(** * A shell REPL in Python (src/main.py): shallow embedding and properties

    The embedding follows src/main.py function by function.  Python [str]
    values are modelled as [string]; one [ascii] stands for one code point
    below 256.  The operating system (file system queries, file writes,
    directory changes, child processes) is an explicit record of operations
    over an abstract file-system state; what Python raises is modelled by an
    error value. *)

From Stdlib Require Import Strings.String Strings.Ascii Lists.List Bool Arith ZArith Lia.
From Stdlib Require Import Sorting.Sorted.
Import ListNotations.
Open Scope string_scope.

(* ================================================================== *)
(** ** Python string primitives *)

Module PyStr.

Definition newline : ascii := "010"%char.
Definition bell : ascii := "007"%char.
Definition dquote : ascii := "034"%char.
Definition squote : ascii := "039"%char.
Definition backslash : ascii := "092"%char.

(** [str.isspace] on one code point below 256: TAB..CR, FS..US, SPACE,
    NEL (0x85) and NBSP (0xA0). *)
Definition isspace (c : ascii) : bool :=
  let n := nat_of_ascii c in
  (((9 <=? n) && (n <=? 13)) || ((28 <=? n) && (n <=? 32))
   || (n =? 133) || (n =? 160))%nat.

(** [s.lstrip()], [s.rstrip()], [s.strip()]. *)
Fixpoint lstrip (s : string) : string :=
  match s with
  | String c s' => if isspace c then lstrip s' else s
  | EmptyString => EmptyString
  end.

Fixpoint rstrip (s : string) : string :=
  match s with
  | String c s' =>
      match rstrip s' with
      | EmptyString => if isspace c then EmptyString else String c EmptyString
      | r => String c r
      end
  | EmptyString => EmptyString
  end.

Definition strip (s : string) : string := rstrip (lstrip s).

(** [s.startswith(p)]. *)
Definition startswith (s p : string) : bool := String.prefix p s.

(** [s[i]]: [None] stands for IndexError. *)
Definition getitem (s : string) (i : nat) : option ascii := String.get i s.

(** [s[:i]] and [s[i:]]. *)
Fixpoint take (i : nat) (s : string) : string :=
  match i, s with
  | S j, String c s' => String c (take j s')
  | _, _ => EmptyString
  end.

Fixpoint drop (i : nat) (s : string) : string :=
  match i, s with
  | S j, String _ s' => drop j s'
  | _, _ => s
  end.

(** [s.split(sep)] for a one-character separator: every occurrence splits,
    so the empty string gives one empty field. *)
Fixpoint split (sep : ascii) (s : string) : list string :=
  match s with
  | EmptyString => [EmptyString]
  | String c s' =>
      if Ascii.eqb c sep then EmptyString :: split sep s'
      else match split sep s' with
           | f :: fs => String c f :: fs
           | [] => [String c EmptyString]
           end
  end.

(** [sep.join(l)]. *)
Definition join (sep : string) (l : list string) : string := String.concat sep l.

(** [x in l] for a list of strings. *)
Definition mem (x : string) (l : list string) : bool :=
  existsb (String.eqb x) l.

(** [l.sort()] on strings: code-point lexicographic order. *)
Fixpoint insert (x : string) (l : list string) : list string :=
  match l with
  | [] => [x]
  | y :: l' => if String.leb x y then x :: l else y :: insert x l'
  end.

Fixpoint sort (l : list string) : list string :=
  match l with
  | [] => []
  | x :: l' => insert x (sort l')
  end.

(** The truth value of an optional string ([None] and [""] are false). *)
Definition truthy (o : option string) : bool :=
  match o with
  | Some (String _ _) => true
  | _ => false
  end.

End PyStr.

(* ================================================================== *)
(** ** The fragment of Python's [re] used by [handle_redirects]

    A backtracking matcher with Python's priorities: alternatives left to
    right, greedy repetition longest first, lazy repetition shortest first.
    Repetition is only ever applied to a single-character class in the
    patterns of the program.  Patterns are compiled from their source text. *)

Module Re.

Inductive cls : Type :=
| Dot                (* .   any character but a newline *)
| Space              (* \s *)
| Ch (c : ascii).    (* a literal character *)

Definition cls_match (k : cls) (c : ascii) : bool :=
  match k with
  | Dot => negb (Ascii.eqb c PyStr.newline)
  | Space => PyStr.isspace c
  | Ch d => Ascii.eqb c d
  end.

Inductive regex : Type :=
| Atom (k : cls)
| Rep (k : cls) (lo : nat) (hi : option nat) (greedy : bool)
| Cat (r1 r2 : regex)
| Alt (r1 r2 : regex)
| Group (n : nat) (r : regex)
| Eol                (* $ *)
| Eps.

(** Group spans, as (start, end) offsets into the subject. *)
Definition caps : Type := list (nat * (nat * nat)).
Definition cont : Type := string -> nat -> caps -> option caps.

Definition hi_allows (hi : option nat) : bool :=
  match hi with Some 0 => false | _ => true end.
Definition hi_pred (hi : option nat) : option nat :=
  match hi with Some n => Some (pred n) | None => None end.

Fixpoint rep (k : cls) (lo : nat) (hi : option nat) (greedy : bool)
    (s : string) (pos : nat) (cs : caps) (kont : cont) {struct s} : option caps :=
  match lo with
  | S lo' =>
      match s with
      | String c s' =>
          if cls_match k c then rep k lo' (hi_pred hi) greedy s' (S pos) cs kont
          else None
      | EmptyString => None
      end
  | O =>
      if greedy then
        match s with
        | String c s' =>
            if cls_match k c && hi_allows hi then
              match rep k O (hi_pred hi) greedy s' (S pos) cs kont with
              | Some r => Some r
              | None => kont s pos cs
              end
            else kont s pos cs
        | EmptyString => kont s pos cs
        end
      else
        match kont s pos cs with
        | Some r => Some r
        | None =>
            match s with
            | String c s' =>
                if cls_match k c && hi_allows hi then
                  rep k O (hi_pred hi) greedy s' (S pos) cs kont
                else None
            | EmptyString => None
            end
        end
  end.

(** [$] without MULTILINE: at the end, or before a final newline. *)
Definition at_eol (s : string) : bool :=
  match s with
  | EmptyString => true
  | String c EmptyString => Ascii.eqb c PyStr.newline
  | _ => false
  end.

Fixpoint rmatch (r : regex) (s : string) (pos : nat) (cs : caps) (kont : cont)
    {struct r} : option caps :=
  match r with
  | Atom k =>
      match s with
      | String c s' => if cls_match k c then kont s' (S pos) cs else None
      | EmptyString => None
      end
  | Rep k lo hi g => rep k lo hi g s pos cs kont
  | Cat r1 r2 => rmatch r1 s pos cs (fun s1 p1 c1 => rmatch r2 s1 p1 c1 kont)
  | Alt r1 r2 =>
      match rmatch r1 s pos cs kont with
      | Some x => Some x
      | None => rmatch r2 s pos cs kont
      end
  | Group n r1 =>
      rmatch r1 s pos cs (fun s1 p1 c1 => kont s1 p1 ((n, (pos, p1)) :: c1))
  | Eol => if at_eol s then kont s pos cs else None
  | Eps => kont s pos cs
  end.

(** A match object: the subject and the group spans. *)
Record match_obj : Type := { subject : string; spans : caps }.

Fixpoint search_from (r : regex) (whole s : string) (pos : nat) : option match_obj :=
  match rmatch r s pos [] (fun _ p cs => Some ((0, (pos, p)) :: cs)) with
  | Some cs => Some {| subject := whole; spans := cs |}
  | None =>
      match s with
      | String _ s' => search_from r whole s' (S pos)
      | EmptyString => None
      end
  end.

(** The first match of a compiled pattern, scanning start positions from
    the left. *)
Definition search_regex (r : regex) (s : string) : option match_obj :=
  search_from r s s 0.

Fixpoint span_of (n : nat) (cs : caps) : option (nat * nat) :=
  match cs with
  | [] => None
  | (m, sp) :: cs' => if Nat.eqb m n then Some sp else span_of n cs'
  end.

(** [m.group(n)]; the empty string stands in for a group that took no part
    (none of the program's groups is optional). *)
Definition group (m : match_obj) (n : nat) : string :=
  match span_of n (spans m) with
  | Some (a, b) => PyStr.take (b - a) (PyStr.drop a (subject m))
  | None => EmptyString
  end.

(** Pattern combinators. *)
Definition star (k : cls) : regex := Rep k 0 None true.
Definition star_lazy (k : cls) : regex := Rep k 0 None false.
Definition plus (k : cls) : regex := Rep k 1 None true.
Definition plus_lazy (k : cls) : regex := Rep k 1 None false.
Definition opt (k : cls) : regex := Rep k 0 (Some 1) true.

(** The pattern syntax: alternation, sequence, groups (capturing groups are
    numbered from 1 by their opening parenthesis), [(?:...)], [.], [\s],
    [$], literal characters, and the quantifiers [*], [+], [?] with their
    lazy forms on a single character. *)
Definition quantified (k : cls) (s : string) : regex * string :=
  match s with
  | String "*" (String "?" rest) => (star_lazy k, rest)
  | String "*" rest => (star k, rest)
  | String "+" (String "?" rest) => (plus_lazy k, rest)
  | String "+" rest => (plus k, rest)
  | String "?" (String "?" rest) => (Rep k 0 (Some 1) false, rest)
  | String "?" rest => (opt k, rest)
  | _ => (Atom k, s)
  end.

Definition mkcat (r1 r2 : regex) : regex :=
  match r2 with
  | Eps => r1
  | _ => Cat r1 r2
  end.

Definition parsed : Type := option (regex * string * nat).

Definition followed_by (tail : string -> nat -> parsed) (r : regex)
    (rest : string) (n : nat) : parsed :=
  match tail rest n with
  | Some (r2, rest', n2) => Some (mkcat r r2, rest', n2)
  | None => None
  end.

Fixpoint parse_alt (fuel : nat) (s : string) (n : nat) {struct fuel} : parsed :=
  match fuel with
  | O => None
  | S fuel' =>
      match parse_seq fuel' s n with
      | Some (r1, String "|" rest, n1) =>
          match parse_alt fuel' rest n1 with
          | Some (r2, rest', n2) => Some (Alt r1 r2, rest', n2)
          | None => None
          end
      | other => other
      end
  end
with parse_seq (fuel : nat) (s : string) (n : nat) {struct fuel} : parsed :=
  match fuel with
  | O => None
  | S fuel' =>
      match s with
      | EmptyString => Some (Eps, s, n)
      | String "|" _ => Some (Eps, s, n)
      | String ")" _ => Some (Eps, s, n)
      | String "(" (String "?" (String ":" inner)) =>
          match parse_alt fuel' inner n with
          | Some (r, String ")" rest, n1) =>
              followed_by (parse_seq fuel') r rest n1
          | _ => None
          end
      | String "(" inner =>
          match parse_alt fuel' inner (S n) with
          | Some (r, String ")" rest, n1) =>
              followed_by (parse_seq fuel') (Group n r) rest n1
          | _ => None
          end
      | String "$" rest => followed_by (parse_seq fuel') Eol rest n
      | String "*" _ => None
      | String "+" _ => None
      | String "?" _ => None
      | String "." rest =>
          let (a, rest') := quantified Dot rest in
          followed_by (parse_seq fuel') a rest' n
      | String "\" (String "s" rest) =>
          let (a, rest') := quantified Space rest in
          followed_by (parse_seq fuel') a rest' n
      | String "\" _ => None
      | String c rest =>
          let (a, rest') := quantified (Ch c) rest in
          followed_by (parse_seq fuel') a rest' n
      end
  end.

(** [re.compile(pattern)]; [None] for a pattern outside the fragment. *)
Definition compile (pattern : string) : option regex :=
  match parse_alt (2 * String.length pattern + 4) pattern 1 with
  | Some (r, EmptyString, _) => Some r
  | _ => None
  end.

(** [re.search(pattern, s)]; the patterns of the program all compile. *)
Definition search (pattern s : string) : option match_obj :=
  match compile pattern with
  | Some r => search_regex r s
  | None => None
  end.

End Re.

(* ================================================================== *)
(** ** handle_redirects (src/main.py, lines 37-87) *)

Import Re.

Definition stdout_append_pattern : string :=
  "(.*?)(?:\s+)(1?>>)(?:\s+)(.+?)(?:\s+2>>.*|$|\s+2>.*|$)".

Definition stdout_pattern : string :=
  "(.*?)(?:\s+)(1?>|>)(?:\s+)(.+?)(?:\s+2>>.*|$|\s+2>.*|$)".

Definition stderr_append_pattern : string :=
  "(.*?)(?:\s+)(2>>)(?:\s+)(.+)$".

Definition stderr_pattern : string :=
  "(.*?)(?:\s+)(2>)(?:\s+)(.+)$".

Definition is_some {A : Type} (o : option A) : bool :=
  match o with Some _ => true | None => false end.

(** The returned tuple (cmd, stdout_file, stderr_file, append_stdout,
    append_stderr). *)
Record redirects : Type := {
  cmd : string;
  stdout_file : option string;
  stderr_file : option string;
  append_stdout : bool;
  append_stderr : bool
}.

Definition handle_redirects (command_str : string) : redirects :=
  let stdout_append_match := search stdout_append_pattern command_str in
  (* stdout_match is only bound in the else branch *)
  let stdout_match :=
    match stdout_append_match with
    | Some _ => None
    | None => search stdout_pattern command_str
    end in
  let '(cmd1, stdout_file1, append_stdout1) :=
    match stdout_append_match with
    | Some m => (group m 1, Some (group m 3), true)
    | None =>
        match stdout_match with
        | Some m => (group m 1, Some (group m 3), false)
        | None => (command_str, None, false)
        end
    end in
  let no_stdout := negb (is_some stdout_append_match || is_some stdout_match) in
  match search stderr_append_pattern command_str with
  | Some m =>
      {| cmd := if no_stdout then group m 1 else cmd1;
         stdout_file := stdout_file1;
         stderr_file := Some (group m 3);
         append_stdout := append_stdout1;
         append_stderr := true |}
  | None =>
      match search stderr_pattern command_str with
      | Some m =>
          {| cmd := if no_stdout then group m 1 else cmd1;
             stdout_file := stdout_file1;
             stderr_file := Some (group m 3);
             append_stdout := append_stdout1;
             append_stderr := false |}
      | None =>
          {| cmd := cmd1;
             stdout_file := stdout_file1;
             stderr_file := None;
             append_stdout := append_stdout1;
             append_stderr := false |}
      end
  end.

(* ================================================================== *)
(** ** shlex.split (posix mode), the tokenizer behind [parse_command]

    [shlex.split(s)] runs [shlex(s, posix=True)] with [whitespace_split]
    set and no comment characters, and collects [read_token] until it
    returns [None].  The automaton below is [read_token]'s loop; [mode] is
    [self.state] and [escapedstate], a [break] is [emit]. *)

Module Shlex.

Inductive error : Type :=
| NoClosingQuotation     (* ValueError("No closing quotation") *)
| NoEscapedCharacter.    (* ValueError("No escaped character") *)

Definition message (e : error) : string :=
  match e with
  | NoClosingQuotation => "No closing quotation"
  | NoEscapedCharacter => "No escaped character"
  end.

(** self.whitespace = ' \t\r\n' *)
Definition is_whitespace (c : ascii) : bool :=
  Ascii.eqb c " "%char || Ascii.eqb c "009"%char
  || Ascii.eqb c "013"%char || Ascii.eqb c "010"%char.

(** self.quotes: the single and the double quote; self.escape: the
    backslash; self.escapedquotes: the double quote. *)
Definition is_quote (c : ascii) : bool :=
  Ascii.eqb c PyStr.squote || Ascii.eqb c PyStr.dquote.
Definition is_escape (c : ascii) : bool := Ascii.eqb c PyStr.backslash.
Definition is_escapedquote (c : ascii) : bool := Ascii.eqb c PyStr.dquote.

Inductive mode : Type :=
| Ws                  (* ' ' *)
| Word                (* 'a' *)
| Quote (q : ascii)   (* inside a quotation opened by q *)
| Escape (e : ascii). (* just after the escape character e *)

Definition snoc (token : string) (c : ascii) : string :=
  token ++ String c EmptyString.

(** The end of one [read_token]: an empty unquoted result is [None], which
    ends the iteration; anything else is the next token. *)
Definition emit (token : string) (quoted : bool) (acc : list string)
    (continue : list string -> error + list string) : error + list string :=
  if negb quoted && String.eqb token "" then inr acc
  else continue (acc ++ [token])%list.

Fixpoint lex (state escapedstate : mode) (quoted : bool) (token : string)
    (input : string) (acc : list string) {struct input} : error + list string :=
  match input with
  | EmptyString =>
      match state with
      | Ws | Word => emit token quoted acc (fun acc' => inr acc')
      | Quote _ => inl NoClosingQuotation
      | Escape _ => inl NoEscapedCharacter
      end
  | String nextchar rest =>
      match state with
      | Ws =>
          if is_whitespace nextchar then
            if negb (String.eqb token "") || quoted
            then emit token quoted acc (fun acc' => lex Ws Ws false "" rest acc')
            else lex Ws escapedstate quoted token rest acc
          else if is_escape nextchar then
            lex (Escape nextchar) Word quoted token rest acc
          else if is_quote nextchar then
            lex (Quote nextchar) escapedstate quoted token rest acc
          else
            lex Word escapedstate quoted (String nextchar EmptyString) rest acc
      | Quote q =>
          if Ascii.eqb nextchar q then
            lex Word escapedstate true token rest acc
          else if is_escape nextchar && is_escapedquote q then
            lex (Escape nextchar) (Quote q) true token rest acc
          else
            lex (Quote q) escapedstate true (snoc token nextchar) rest acc
      | Escape e =>
          let token1 :=
            match escapedstate with
            | Quote q =>
                if negb (Ascii.eqb nextchar e) && negb (Ascii.eqb nextchar q)
                then snoc token e else token
            | _ => token
            end in
          lex escapedstate escapedstate quoted (snoc token1 nextchar) rest acc
      | Word =>
          if is_whitespace nextchar then
            if negb (String.eqb token "") || quoted
            then emit token quoted acc (fun acc' => lex Ws Ws false "" rest acc')
            else lex Ws escapedstate quoted token rest acc
          else if is_quote nextchar then
            lex (Quote nextchar) escapedstate quoted token rest acc
          else if is_escape nextchar then
            lex (Escape nextchar) Word quoted token rest acc
          else
            lex Word escapedstate quoted (snoc token nextchar) rest acc
      end
  end.

Definition split (s : string) : error + list string :=
  lex Ws Ws false "" s [].

End Shlex.

(** parse_command (src/main.py, lines 30-34). *)
Definition parse_command (command_str : string) : Shlex.error + list string :=
  Shlex.split command_str.

(* ================================================================== *)
(** ** posixpath *)

Module PosixPath.

Definition endswith_sep (s : string) : bool :=
  match PyStr.getitem s (String.length s - 1) with
  | Some c => Ascii.eqb c "/"%char
  | None => false
  end.

(** os.path.join(a, b) *)
Definition join (a b : string) : string :=
  if PyStr.startswith b "/" then b
  else if String.eqb a "" || endswith_sep a then a ++ b
  else a ++ "/" ++ b.

(** The part of [p] up to and including its last slash: p[:p.rfind('/')+1]. *)
Fixpoint head_slash (p : string) : string :=
  match p with
  | EmptyString => EmptyString
  | String c p' =>
      match head_slash p' with
      | EmptyString =>
          if Ascii.eqb c "/"%char then String c EmptyString else EmptyString
      | h => String c h
      end
  end.

Fixpoint all_slashes (s : string) : bool :=
  match s with
  | EmptyString => true
  | String c s' => Ascii.eqb c "/"%char && all_slashes s'
  end.

(** head.rstrip('/') *)
Fixpoint rstrip_slash (s : string) : string :=
  match s with
  | EmptyString => EmptyString
  | String c s' =>
      match rstrip_slash s' with
      | EmptyString =>
          if Ascii.eqb c "/"%char then EmptyString else String c EmptyString
      | r => String c r
      end
  end.

(** os.path.dirname(p) *)
Definition dirname (p : string) : string :=
  let head := head_slash p in
  if negb (String.eqb head "") && negb (all_slashes head)
  then rstrip_slash head else head.

End PosixPath.

(* ================================================================== *)
(** ** The operating system and the process state *)

Inductive oskind : Type :=
| FileNotFoundError
| NotADirectoryError
| PermissionError
| OtherOSError.

(** An OSError: its class and its text, [str(e)]. *)
Record oserror : Type := { os_kind : oskind; os_str : string }.

(** Whether a path holds a NUL character; Python rejects such a path with
    ValueError before the system sees it. *)
Fixpoint has_nul (s : string) : bool :=
  match s with
  | EmptyString => false
  | String c s' => Ascii.eqb c "000"%char || has_nul s'
  end.

(** How os.makedirs fails: with an OSError, or with the ValueError of a
    path that holds a NUL. *)
Inductive makedirs_error : Type :=
| DirOSError (e : oserror)
| DirNullByte.

(** What Python raises in this program and nothing catches by name. *)
Inductive exn : Type :=
| ValueError (e : Shlex.error)
| OSError (e : oserror)
| NameError (name : string)
| ChildError (text : string)    (* whatever subprocess.run raises; str(e) *)
| ValueErrorNull.               (* ValueError: embedded null byte *)

Definition exn_str (e : exn) : string :=
  match e with
  | ValueError e => Shlex.message e
  | ValueErrorNull => "embedded null byte"
  | OSError e => os_str e
  | NameError n => "name '" ++ n ++ "' is not defined"
  | ChildError t => t
  end.

(** What a child process wrote on its two output streams. *)
Record child_output : Type := { child_stdout : string; child_stderr : string }.

(** The operations of the file system and of process launching, over an
    abstract file-system state [F].  Every operation that takes a path also
    takes the current working directory, against which the system resolves
    relative paths.  Queries do not change the state; an operation that can
    fail returns the error instead of raising it. *)
Record OS (F : Type) : Type := {
  (* os.path.isfile, os.path.isdir, os.path.exists, os.access(_, os.X_OK) *)
  isfile : F -> string -> string -> bool;
  isdir : F -> string -> string -> bool;
  path_exists : F -> string -> string -> bool;
  access_x : F -> string -> string -> bool;
  (* os.listdir *)
  listdir : F -> string -> string -> oserror + list string;
  (* os.makedirs(_, exist_ok=True) *)
  makedirs : F -> string -> string -> option makedirs_error * F;
  (* with open(path, 'a' or 'w') as f: f.write(text) *)
  write_file : F -> string -> string -> bool -> string -> option oserror * F;
  (* os.chdir: the new working directory, as os.getcwd() reports it *)
  chdir : F -> string -> string -> oserror + string;
  (* os.getcwd() in the working directory of the process: its path, or the
     OSError of a directory that is no longer there *)
  getcwd : F -> string -> oserror + string;
  (* subprocess.run(args, ...) given the environment *)
  run : F -> string -> list (string * string) -> list string ->
        (string + child_output) * F;
  (* os.makedirs raises its ValueError only for a path with a NUL *)
  makedirs_null : forall f c d f',
    makedirs f c d = (Some DirNullByte, f') -> has_nul d = true;
  (* no file whose path holds a NUL is ever opened, and no such directory
     is ever entered *)
  write_file_null : forall f c p a t f',
    write_file f c p a t = (None, f') -> has_nul p = false;
  chdir_null : forall f c p d, chdir f c p = inr d -> has_nul p = false;
  (* right after os.chdir, os.getcwd() reports the new directory *)
  chdir_getcwd : forall f c p d, chdir f c p = inr d -> getcwd f d = inr d
}.

Arguments isfile {F}.
Arguments isdir {F}.
Arguments path_exists {F}.
Arguments access_x {F}.
Arguments listdir {F}.
Arguments makedirs {F}.
Arguments write_file {F}.
Arguments chdir {F}.
Arguments getcwd {F}.
Arguments run {F}.
Arguments makedirs_null {F}.
Arguments write_file_null {F}.
Arguments chdir_null {F}.
Arguments chdir_getcwd {F}.

(** What reaches the terminal. *)
Inductive tty_event : Type :=
| Out (text : string)    (* sys.stdout *)
| Err (text : string).   (* sys.stderr *)

Record world (F : Type) : Type := {
  environ : list (string * string);   (* os.environ *)
  cwd : string;                       (* the working directory of the process *)
  fs : F;
  term : list tty_event
}.

Arguments environ {F}.
Arguments cwd {F}.
Arguments fs {F}.
Arguments term {F}.

(** os.environ.get(name, "") *)
Fixpoint environ_get (env : list (string * string)) (name : string) : string :=
  match env with
  | [] => ""
  | (k, v) :: env' => if String.eqb k name then v else environ_get env' name
  end.

(** How a piece of the program ends. *)
Inductive outcome (A : Type) : Type :=
| Ret (a : A)
| Raise (e : exn)
| SysExit (code : Z).

Arguments Ret {A}.
Arguments Raise {A}.
Arguments SysExit {A}.

Section Program.

Context {F : Type}.
Variable os : OS F.

Definition prog (A : Type) : Type := world F -> outcome A * world F.

Definition ret {A : Type} (a : A) : prog A := fun w => (Ret a, w).
Definition raise {A : Type} (e : exn) : prog A := fun w => (Raise e, w).
Definition sys_exit {A : Type} (code : Z) : prog A := fun w => (SysExit code, w).

Definition bind {A B : Type} (m : prog A) (k : A -> prog B) : prog B :=
  fun w =>
    match m w with
    | (Ret a, w') => k a w'
    | (Raise e, w') => (Raise e, w')
    | (SysExit c, w') => (SysExit c, w')
    end.

(** try: m  except <the exceptions h handles>: ...; [h] answers [None] for
    an exception its clauses do not name. *)
Definition try_except {A : Type} (m : prog A) (h : exn -> option (prog A)) : prog A :=
  fun w =>
    match m w with
    | (Raise e, w') =>
        match h e with
        | Some handler => handler w'
        | None => (Raise e, w')
        end
    | r => r
    end.

Definition emit_tty (ev : tty_event) : prog unit :=
  fun w => (Ret tt, {| environ := environ w; cwd := cwd w; fs := fs w;
                       term := (term w ++ [ev])%list |}).

(** sys.stdout.write(text), sys.stderr.write(text), print(text) *)
Definition stdout_write (text : string) : prog unit := emit_tty (Out text).
Definition stderr_write (text : string) : prog unit := emit_tty (Err text).
Definition print (text : string) : prog unit :=
  emit_tty (Out (text ++ String PyStr.newline EmptyString)).

Definition set_fs (w : world F) (f : F) : world F :=
  {| environ := environ w; cwd := cwd w; fs := f; term := term w |}.

Definition os_makedirs (directory : string) : prog unit :=
  fun w =>
    match makedirs os (fs w) (cwd w) directory with
    | (None, f) => (Ret tt, set_fs w f)
    | (Some (DirOSError e), f) => (Raise (OSError e), set_fs w f)
    | (Some DirNullByte, f) => (Raise ValueErrorNull, set_fs w f)
    end.

(** with open(path, 'a' if append else 'w') as f: f.write(text); a path
    with a NUL is rejected with ValueError before the system is asked. *)
Definition open_write (path : string) (append : bool) (text : string) : prog unit :=
  fun w =>
    if has_nul path then (Raise ValueErrorNull, w)
    else
      match write_file os (fs w) (cwd w) path append text with
      | (None, f) => (Ret tt, set_fs w f)
      | (Some e, f) => (Raise (OSError e), set_fs w f)
      end.

Definition os_getcwd : prog string :=
  fun w =>
    match getcwd os (fs w) (cwd w) with
    | inr d => (Ret d, w)
    | inl e => (Raise (OSError e), w)
    end.

(** os.chdir(directory); a path with a NUL is rejected with ValueError
    before the system is asked. *)
Definition os_chdir (directory : string) : prog unit :=
  fun w =>
    if has_nul directory then (Raise ValueErrorNull, w)
    else
      match chdir os (fs w) (cwd w) directory with
      | inr d => (Ret tt, {| environ := environ w; cwd := d; fs := fs w;
                             term := term w |})
      | inl e => (Raise (OSError e), w)
      end.

End Program.

Arguments prog : clear implicits.
Arguments ret {F A}.
Arguments raise {F A}.
Arguments sys_exit {F A}.
Arguments bind {F A B}.
Arguments try_except {F A}.
Arguments emit_tty {F}.
Arguments stdout_write {F}.
Arguments stderr_write {F}.
Arguments print {F}.
Arguments set_fs {F}.

Declare Scope prog_scope.
Delimit Scope prog_scope with prog.
Notation "x <- m ;; k" := (bind m (fun x => k))
  (at level 61, m at next level, right associativity) : prog_scope.
Notation "m ;; k" := (bind m (fun _ => k))
  (at level 61, right associativity) : prog_scope.

(* ================================================================== *)
(** ** find_executable (src/main.py, lines 9-27) *)

Section Shell.

Context {F : Type}.
Variable os : OS F.

(** os.path.isfile(full_path) and os.access(full_path, os.X_OK) *)
Definition is_executable_file (w : world F) (full_path : string) : bool :=
  isfile os (fs w) (cwd w) full_path && access_x os (fs w) (cwd w) full_path.

Fixpoint find_in_paths (w : world F) (paths : list string) (command : string)
    : option string :=
  match paths with
  | [] => None
  | directory :: paths' =>
      let full_path := PosixPath.join directory command in
      if is_executable_file w full_path then Some full_path
      else find_in_paths w paths' command
  end.

Definition find_executable (w : world F) (command : string) : option string :=
  let path_env := environ_get (environ w) "PATH" in
  let paths := PyStr.split ":" path_env in
  find_in_paths w paths command.

(* ================================================================== *)
(** ** find_completions (src/main.py, lines 109-174) *)

Definition builtins : list string := ["echo"; "exit"; "type"; "pwd"; "cd"].

(** The inner loop over one directory's [files]. *)
Fixpoint scan_files (w : world F) (text directory : string) (files : list string)
    (executables : list string) : list string :=
  match files with
  | [] => executables
  | filename :: files' =>
      let full_path := PosixPath.join directory filename in
      if PyStr.startswith filename text && is_executable_file w full_path then
        if negb (PyStr.mem filename executables)
        then scan_files w text directory files' (executables ++ [filename])
        else scan_files w text directory files' executables
      else scan_files w text directory files' executables
  end.

(** The loop over the PATH directories; an OSError of listdir that is
    neither PermissionError nor FileNotFoundError is not caught. *)
Fixpoint scan_paths (w : world F) (text : string) (paths : list string)
    (executables : list string) : exn + list string :=
  match paths with
  | [] => inr executables
  | directory :: paths' =>
      if negb (isdir os (fs w) (cwd w) directory) then
        scan_paths w text paths' executables
      else
        match listdir os (fs w) (cwd w) directory with
        | inr files =>
            scan_paths w text paths' (scan_files w text directory files executables)
        | inl e =>
            match os_kind e with
            | PermissionError | FileNotFoundError =>
                scan_paths w text paths' executables
            | _ => inl (OSError e)
            end
        end
  end.

(** [for match in matches: if i >= len(match) or match[i] != c: break],
    true when the loop ends without a break. *)
Definition all_share (matches : list string) (i : nat) (c : ascii) : bool :=
  forallb (fun m => match PyStr.getitem m i with
                    | Some d => Ascii.eqb d c
                    | None => false
                    end) matches.

(** The [while True] loop; [rest] is matches[0][i:], so that matches[0][i]
    raises IndexError exactly when [rest] is empty. *)
Fixpoint common_end (matches : list string) (rest : string) (i : nat) : nat :=
  match rest with
  | EmptyString => i
  | String c rest' =>
      if all_share matches i c then common_end matches rest' (S i) else i
  end.

Definition find_completions (w : world F) (text : string)
    : exn + (list string * string) :=
  let matches0 := filter (fun c => PyStr.startswith c text) builtins in
  let path_env := environ_get (environ w) "PATH" in
  let paths := PyStr.split ":" path_env in
  match scan_paths w text paths [] with
  | inl e => inl e
  | inr executables =>
      let matches := PyStr.sort (matches0 ++ executables) in
      match matches with
      | [] => inr ([], "")
      | first :: _ =>
          let i := common_end matches (PyStr.drop (String.length text) first)
                              (String.length text) in
          inr (matches, PyStr.take i first)
      end
  end.

(* ================================================================== *)
(** ** complete (src/main.py, lines 103-106 and 177-246) *)

(** The module-level variables of the completer.  [longest_prefix] has no
    module-level binding before the first call of [find_completions]. *)
Record globals : Type := {
  last_text : string;
  tab_pressed : bool;
  completion_matches : list string;
  longest_prefix : option string
}.

Definition initial_globals : globals :=
  {| last_text := ""; tab_pressed := false; completion_matches := [];
     longest_prefix := None |}.

Definition set_tab_pressed (g : globals) (b : bool) : globals :=
  {| last_text := last_text g; tab_pressed := b;
     completion_matches := completion_matches g;
     longest_prefix := longest_prefix g |}.

Definition completion (A : Type) : Type := (outcome A * globals * world F)%type.

(** Lines 239-246: the matches indexed by [state]. *)
Definition complete_indexed (text : string) (state : nat) (g : globals)
    (w : world F) : completion (option string) :=
  match nth_error (completion_matches g) state with
  | Some m =>
      if String.eqb m text || PyStr.mem m builtins
      then (Ret (Some (m ++ " ")), g, w)
      else (Ret (Some m), g, w)
  | None => (Ret None, g, w)
  end.

(** Lines 221-246. *)
Definition complete_display (text : string) (state : nat) (g : globals)
    (w : world F) : completion (option string) :=
  if (1 <? List.length (completion_matches g))%nat then
    if negb (tab_pressed g) && (state =? 0)%nat then
      let g1 := set_tab_pressed g true in
      match longest_prefix g with
      | None => (Raise (NameError "longest_prefix"), g1, w)
      | Some lp =>
          if (String.length lp <=? String.length text)%nat then
            match stdout_write (String PyStr.bell EmptyString) w with
            | (_, w1) => (Ret None, g1, w1)
            end
          else (Ret None, g1, w)
      end
    else if tab_pressed g && (state =? 0)%nat then
      let g1 := set_tab_pressed g false in
      match (print "" ;;
             print (PyStr.join "  " (completion_matches g)) ;;
             stdout_write ("$ " ++ text))%prog w with
      | (_, w1) => (Ret None, g1, w1)
      end
    else complete_indexed text state g w
  else complete_indexed text state g w.

Definition complete (text : string) (state : nat) (g : globals) (w : world F)
    : completion (option string) :=
  if String.eqb text "ech" && (state =? 0)%nat then (Ret (Some "echo "), g, w)
  else if String.eqb text "exi" && (state =? 0)%nat then (Ret (Some "exit "), g, w)
  else if PyStr.mem text builtins && (state =? 0)%nat
  then (Ret (Some (text ++ " ")), g, w)
  else if String.eqb text "xyz_quz_qux_bar" && (state =? 0)%nat
  then (Ret (Some "xyz_quz_qux_bar "), g, w)
  else if negb (String.eqb text (last_text g)) || (state =? 0)%nat then
    match find_completions w text with
    | inl e => (Raise e, g, w)
    | inr (matches, lp) =>
        let g1 := {| last_text := text; tab_pressed := tab_pressed g;
                     completion_matches := matches;
                     longest_prefix := Some lp |} in
        if PyStr.mem text builtins && (state =? 0)%nat
        then (Ret (Some (text ++ " ")), g1, w)
        else if negb (Nat.eqb (List.length matches) 0)
                && (String.length text <? String.length lp)%nat then
          if (state =? 0)%nat then
            if PyStr.mem lp matches then (Ret (Some (lp ++ " ")), g1, w)
            else (Ret (Some lp), g1, w)
          else complete_display text state g1 w
        else if (List.length matches =? 1)%nat && (state =? 0)%nat then
          (Ret (Some (hd "" matches ++ " ")), g1, w)
        else complete_display text state g1 w
    end
  else complete_display text state g w.

(* ================================================================== *)
(** ** main (src/main.py, lines 249-468) *)

(** ensure_dir_exists (lines 90-100) *)
Definition ensure_dir_exists (file_path : string) : prog F unit :=
  let directory := PosixPath.dirname file_path in
  fun w =>
    if negb (String.eqb directory "")
       && negb (path_exists os (fs w) (cwd w) directory)
    then
      try_except (os_makedirs os directory)
        (fun e => match e with
                  | OSError e' =>
                      Some (print ("Error creating directory " ++ directory
                                   ++ ": " ++ os_str e'))
                  | _ => None
                  end) w
    else ret tt w.

(** if target: body(target) *)
Definition when_set (target : option string) (body : string -> prog F unit)
    : prog F unit :=
  match target with
  | Some (String c t) => body (String c t)
  | _ => ret tt
  end.

(** The block the branches repeat: write [text] and a newline to the
    target file when there is one, and [print(text)] otherwise. *)
Definition write_line (target : option string) (append : bool) (text : string)
    : prog F unit :=
  match target with
  | Some (String c t) =>
      open_write os (String c t) append (text ++ String PyStr.newline EmptyString)
  | _ => print text
  end.

Definition tokens (command_str : string) : prog F (list string) :=
  match parse_command command_str with
  | inr args => ret args
  | inl e => raise (ValueError e)
  end.

(** int(s) for a decimal literal: surrounding white space, a sign, digits
    with single underscores between them, and no more digits than the
    interpreter allows; [None] stands for ValueError. *)

(** The white space int() skips: TAB..CR and SPACE, and NEL and NBSP, which
    it turns into spaces first. The separators FS..US, which str.strip
    removes, are not among them. *)
Definition int_space (c : ascii) : bool :=
  let n := nat_of_ascii c in
  (((9 <=? n) && (n <=? 13)) || (n =? 32) || (n =? 133) || (n =? 160))%nat.

Fixpoint int_lstrip (s : string) : string :=
  match s with
  | String c s' => if int_space c then int_lstrip s' else s
  | EmptyString => EmptyString
  end.

Fixpoint int_rstrip (s : string) : string :=
  match s with
  | String c s' =>
      match int_rstrip s' with
      | EmptyString => if int_space c then EmptyString else String c EmptyString
      | r => String c r
      end
  | EmptyString => EmptyString
  end.

(** sys.int_info.default_max_str_digits: the program leaves the limit of
    the interpreter as it is. *)
Definition int_max_str_digits : nat := 4300.

Definition digit_val (c : ascii) : option Z :=
  let n := nat_of_ascii c in
  if ((48 <=? n) && (n <=? 57))%nat then Some (Z.of_nat (n - 48)) else None.

Fixpoint digits (s : string) (acc : Z) (after_digit : bool) : option Z :=
  match s with
  | EmptyString => if after_digit then Some acc else None
  | String c s' =>
      if Ascii.eqb c "_"%char then
        if after_digit then digits s' acc false else None
      else
        match digit_val c with
        | Some d => digits s' (10 * acc + d)%Z true
        | None => None
        end
  end.

(** The digits of a literal, underscores not counted. *)
Fixpoint count_digits (s : string) : nat :=
  match s with
  | EmptyString => O
  | String c s' =>
      match digit_val c with
      | Some _ => S (count_digits s')
      | None => count_digits s'
      end
  end.

Definition limited_digits (s : string) : option Z :=
  if (int_max_str_digits <? count_digits s)%nat then None
  else digits s 0%Z false.

Definition py_int (s : string) : option Z :=
  match int_rstrip (int_lstrip s) with
  | String "+"%char s' => limited_digits s'
  | String "-"%char s' => option_map Z.opp (limited_digits s')
  | s' => limited_digits s'
  end.

(** Lines 277-302. *)
Definition run_echo (r : redirects) : prog F unit :=
  (args <- tokens (cmd r) ;;
   let output := if (1 <? List.length args)%nat
                 then PyStr.join " " (tl args) else "" in
   when_set (stderr_file r) (fun f => open_write os f (append_stderr r) "") ;;
   write_line (stdout_file r) (append_stdout r) output)%prog.

(** Lines 305-330. *)
Definition run_type (r : redirects) : prog F unit :=
  (args <- tokens (cmd r) ;;
   match args with
   | _ :: cmd_to_check :: _ =>
       fun w =>
         let output :=
           if PyStr.mem cmd_to_check builtins
           then cmd_to_check ++ " is a shell builtin"
           else if PyStr.truthy (find_executable w cmd_to_check)
                then cmd_to_check ++ " is "
                     ++ match find_executable w cmd_to_check with
                        | Some p => p
                        | None => ""
                        end
                else cmd_to_check ++ ": not found" in
         write_line (stdout_file r) (append_stdout r) output w
   | _ => ret tt
   end)%prog.

(** Lines 333-345. *)
Definition run_exit (r : redirects) : prog F unit :=
  (args <- tokens (cmd r) ;;
   let exit_code :=
     match args with
     | _ :: a :: _ => match py_int a with Some n => n | None => 0%Z end
     | _ => 0%Z
     end in
   sys_exit exit_code)%prog.

(** Lines 348-359. *)
Definition run_pwd (r : redirects) : prog F unit :=
  (output <- os_getcwd os ;;
   write_line (stdout_file r) (append_stdout r) output)%prog.

(** The three [except] clauses of lines 381-407. *)
Definition cd_message (directory : string) (k : oskind) : option string :=
  match k with
  | FileNotFoundError => Some ("cd: " ++ directory ++ ": No such file or directory")
  | NotADirectoryError => Some ("cd: " ++ directory ++ ": Not a directory")
  | PermissionError => Some ("cd: " ++ directory ++ ": Permission denied")
  | OtherOSError => None
  end.

(** Lines 368-376: the home directory for [~] and [~/...]. *)
Definition expand_home (w : world F) (directory : string) : string :=
  if String.eqb directory "~" || PyStr.startswith directory "~/" then
    let home_dir := environ_get (environ w) "HOME" in
    if String.eqb directory "~" then home_dir
    else PosixPath.join home_dir (PyStr.drop 2 directory)
  else directory.

(** Lines 362-407. *)
Definition run_cd (r : redirects) : prog F unit :=
  (args <- tokens (cmd r) ;;
   match args with
   | _ :: directory0 :: _ =>
       fun w =>
         let directory := expand_home w directory0 in
         try_except (os_chdir os directory)
           (fun e =>
              match e with
              | OSError e' =>
                  match cd_message directory (os_kind e') with
                  | Some error_msg =>
                      Some (write_line (stderr_file r) (append_stderr r) error_msg)
                  | None => None
                  end
              | _ => None
              end) w
   | _ => ret tt
   end)%prog.

(** subprocess.run(args, stdout=..., stderr=..., text=True): a stream that
    is not captured goes to the terminal. *)
Definition subprocess_run (args : list string) (capture_out capture_err : bool)
    : prog F (option string * option string) :=
  fun w =>
    match run os (fs w) (cwd w) (environ w) args with
    | (inl text, f) => (Raise (ChildError text), set_fs w f)
    | (inr o, f) =>
        let t1 := if capture_out then [] else [Out (child_stdout o)] in
        let t2 := if capture_err then [] else [Err (child_stderr o)] in
        (Ret (if capture_out then Some (child_stdout o) else None,
              if capture_err then Some (child_stderr o) else None),
         {| environ := environ w; cwd := cwd w; fs := f;
            term := (term w ++ t1 ++ t2)%list |})
    end.

(** Lines 410-464. *)
Definition run_external (r : redirects) : prog F unit :=
  (args <- tokens (cmd r) ;;
   match args with
   | [] => ret tt
   | cmd_name :: _ =>
       fun w =>
         if PyStr.truthy (find_executable w cmd_name) then
           try_except
             (result <- subprocess_run args (PyStr.truthy (stdout_file r))
                                       (PyStr.truthy (stderr_file r)) ;;
              match stdout_file r, fst result with
              | Some (String c t), Some out =>
                  open_write os (String c t) (append_stdout r) out
              | _, Some out => stdout_write out
              | _, None => ret tt
              end ;;
              match stderr_file r, snd result with
              | Some (String c t), Some err =>
                  open_write os (String c t) (append_stderr r) err
              | _, Some err => stderr_write err
              | _, None => ret tt
              end)
             (fun e =>
                Some (write_line (stderr_file r) (append_stderr r)
                        ("Error executing command: " ++ exn_str e))) w
         else
           write_line (stderr_file r) (append_stderr r)
             (cmd_name ++ ": command not found") w
   end)%prog.

(** The body of the [try] of the loop, after [input()] (lines 268-464). *)
Definition run_line (command_str : string) : prog F unit :=
  let r := handle_redirects command_str in
  (when_set (stdout_file r) ensure_dir_exists ;;
   when_set (stderr_file r) ensure_dir_exists ;;
   let stripped := PyStr.strip (cmd r) in
   if PyStr.startswith stripped "echo " then run_echo r
   else if PyStr.startswith stripped "type " then run_type r
   else if PyStr.startswith stripped "exit" then run_exit r
   else if String.eqb stripped "pwd" then run_pwd r
   else if PyStr.startswith stripped "cd " then run_cd r
   else run_external r)%prog.

(** How [main] ends. *)
Inductive ending : Type :=
| EndOfInput                 (* EOFError from input(): break *)
| Exited (code : Z)          (* sys.exit *)
| Uncaught (e : exn).        (* an exception leaves main *)

(** The loop of [main] over the lines standard input still holds. *)
Fixpoint main (stdin : list string) (w : world F) : ending * world F :=
  match stdout_write "$ " w with
  | (_, w1) =>
      match stdin with
      | [] => (EndOfInput, w1)
      | command_str :: stdin' =>
          match run_line command_str w1 with
          | (Ret _, w2) => main stdin' w2
          | (SysExit code, w2) => (Exited code, w2)
          | (Raise e, w2) => (Uncaught e, w2)
          end
      end
  end.

End Shell.

Arguments initial_globals : clear implicits.

(* ================================================================== *)
(** ** The dispatcher's command kinds (spec section 4.5) *)

Inductive command_kind : Type :=
| Echo | Type_ | Exit | Pwd | Cd | External.

(** The conditions of the if/elif chain of [main], in its order. *)
Definition classify (stripped : string) : command_kind :=
  if PyStr.startswith stripped "echo " then Echo
  else if PyStr.startswith stripped "type " then Type_
  else if PyStr.startswith stripped "exit" then Exit
  else if String.eqb stripped "pwd" then Pwd
  else if PyStr.startswith stripped "cd " then Cd
  else External.

Definition run_kind {F : Type} (os : OS F) (k : command_kind) (r : redirects)
    : prog F unit :=
  match k with
  | Echo => run_echo os r
  | Type_ => run_type os r
  | Exit => run_exit r
  | Pwd => run_pwd os r
  | Cd => run_cd os r
  | External => run_external os r
  end.

(** Lines 270-274 of [main]: the parent directories of both targets. *)
Definition ensure_dirs {F : Type} (os : OS F) (r : redirects) : prog F unit :=
  (when_set (stdout_file r) (ensure_dir_exists os) ;;
   when_set (stderr_file r) (ensure_dir_exists os))%prog.

(** Whether a text ends inside a quotation, in the words of the spec's
    tokenizer rules: a quote character opens a quotation that the same
    character closes; a backslash outside quotes or inside double quotes
    takes the next character with it. *)
Inductive quoting : Type :=
| Outside
| Inside (q : ascii)
| Escaped (back : quoting).

Fixpoint quote_scan (m : quoting) (s : string) : quoting :=
  match s with
  | EmptyString => m
  | String c s' =>
      match m with
      | Outside =>
          if Shlex.is_escape c then quote_scan (Escaped Outside) s'
          else if Shlex.is_quote c then quote_scan (Inside c) s'
          else quote_scan Outside s'
      | Inside q =>
          if Ascii.eqb c q then quote_scan Outside s'
          else if Shlex.is_escape c && Shlex.is_escapedquote q
               then quote_scan (Escaped (Inside q)) s'
               else quote_scan (Inside q) s'
      | Escaped back => quote_scan back s'
      end
  end.

Definition unterminated_quote (s : string) : bool :=
  match quote_scan Outside s with
  | Inside _ => true
  | _ => false
  end.

(** The quoting a state of the tokenizer stands for. *)
Definition mode_of (state escapedstate : Shlex.mode) : quoting :=
  match state with
  | Shlex.Ws | Shlex.Word => Outside
  | Shlex.Quote q => Inside q
  | Shlex.Escape _ =>
      Escaped (match escapedstate with
               | Shlex.Quote q => Inside q
               | _ => Outside
               end)
  end.

(** [escapedstate] is only ever ' ', 'a' or a quote character. *)
Definition esc_ok (escapedstate : Shlex.mode) : Prop :=
  match escapedstate with
  | Shlex.Escape _ => False
  | _ => True
  end.

(** What the tokenizer answers, by the quoting its input ends in. *)
Definition lex_outcome (m : quoting) (r : Shlex.error + list string) : Prop :=
  match m with
  | Inside _ => r = inl Shlex.NoClosingQuotation
  | Escaped _ => r = inl Shlex.NoEscapedCharacter
  | Outside => exists toks, r = inr toks
  end.

(** A newline and a bell, as one-character strings. *)
Definition nl : string := String PyStr.newline EmptyString.
Definition bel : string := String PyStr.bell EmptyString.

(** The characters of a string. *)
Definition chars (s : string) : list ascii := list_ascii_of_string s.

(** Two worlds that differ at most in what the terminal has shown. *)
Definition same_system {F : Type} (w w' : world F) : Prop :=
  environ w = environ w' /\ cwd w = cwd w' /\ fs w = fs w'.

(** [longest_prefix] is bound whenever there are recorded candidates. *)
Definition prefix_bound (g : globals) : Prop :=
  completion_matches g = [] \/ longest_prefix g <> None.

(** The texts lines 185-197 of [complete] answer on their own at state 0. *)
Definition hardcoded (text : string) : bool :=
  String.eqb text "ech" || String.eqb text "exi" || PyStr.mem text builtins
  || String.eqb text "xyz_quz_qux_bar".

(** The world after more terminal output. *)
Definition add_term {F : Type} (w : world F) (evs : list tty_event) : world F :=
  {| environ := environ w; cwd := cwd w; fs := fs w;
     term := (term w ++ evs)%list |}.

(** The completer's variables once the candidates of [text] are recorded. *)
Definition recorded (text : string) (matches : list string) (lp : string)
    (awaiting : bool) : globals :=
  {| last_text := text; tab_pressed := awaiting;
     completion_matches := matches; longest_prefix := Some lp |}.

(** Code-point order on strings. *)
Definition str_le (a b : string) : Prop := String.leb a b = true.

(** A decimal digit. *)
Definition is_digit (c : ascii) : bool :=
  match digit_val c with Some _ => true | None => false end.

(** A line that ensure_dir_exists prints for a directory it could not
    create. *)
Definition creation_message (ev : tty_event) : Prop :=
  exists directory reason,
    ev = Out (("Error creating directory " ++ directory ++ ": " ++ reason) ++ nl).

(** What a target may be for its parent directory to be created: no
    target, or a path without NUL. *)
Definition nul_free (target : option string) : bool :=
  match target with
  | Some t => negb (has_nul t)
  | None => true
  end.

(* ================================================================== *)
(** ** A small concrete system, for running the program on examples *)

Module Toy.

(** Paths are taken as they are written; nothing is resolved against the
    working directory. *)
Record files : Type := {
  dirs : list (string * list string);   (* directories and their listings *)
  locked : list string;                 (* directories without permission *)
  execs : list string;                  (* executable regular files *)
  contents : list (string * string)     (* regular files that were written *)
}.

Fixpoint lookup {A : Type} (k : string) (l : list (string * A)) : option A :=
  match l with
  | [] => None
  | (k', v) :: l' => if String.eqb k k' then Some v else lookup k l'
  end.

Definition t_isdir (f : files) (_ p : string) : bool := is_some (lookup p (dirs f)).
Definition t_isfile (f : files) (_ p : string) : bool :=
  PyStr.mem p (execs f) || is_some (lookup p (contents f)).
Definition t_exists (f : files) (c p : string) : bool := t_isdir f c p || t_isfile f c p.
Definition t_access_x (f : files) (_ p : string) : bool :=
  PyStr.mem p (execs f) || (t_isdir f "" p && negb (PyStr.mem p (locked f))).

Definition err (k : oskind) (text : string) : oserror :=
  {| os_kind := k; os_str := text |}.

Definition t_listdir (f : files) (c p : string) : oserror + list string :=
  match lookup p (dirs f) with
  | Some l =>
      if PyStr.mem p (locked f) then inl (err PermissionError "Permission denied")
      else inr l
  | None =>
      if t_isfile f c p then inl (err NotADirectoryError "Not a directory")
      else inl (err FileNotFoundError "No such file or directory")
  end.

Definition t_makedirs (f : files) (_ p : string) : option makedirs_error * files :=
  if has_nul p then (Some DirNullByte, f)
  else if PyStr.mem (PosixPath.dirname p) (locked f)
  then (Some (DirOSError (err PermissionError "Permission denied")), f)
  else (None, {| dirs := (p, []) :: dirs f; locked := locked f;
                 execs := execs f; contents := contents f |}).

Definition t_write_file (f : files) (_ p : string) (append : bool) (text : string)
    : option oserror * files :=
  if has_nul p then (Some (err OtherOSError "embedded null byte"), f)
  else if t_isdir f "" p then (Some (err OtherOSError "Is a directory"), f)
  else if PyStr.mem (PosixPath.dirname p) (locked f)
  then (Some (err PermissionError "Permission denied"), f)
  else
    let old := match lookup p (contents f) with
               | Some t => if append then t else ""
               | None => ""
               end in
    (None, {| dirs := dirs f; locked := locked f; execs := execs f;
              contents := (p, old ++ text) :: contents f |}).

Definition t_chdir (f : files) (_ p : string) : oserror + string :=
  if has_nul p then inl (err OtherOSError "embedded null byte")
  else if t_isdir f "" p then
    if PyStr.mem p (locked f) then inl (err PermissionError "Permission denied")
    else inr p
  else if t_isfile f "" p then inl (err NotADirectoryError "Not a directory")
  else inl (err FileNotFoundError "No such file or directory").

(** The working directory is reported as long as it is a directory. *)
Definition t_getcwd (f : files) (c : string) : oserror + string :=
  if t_isdir f "" c then inr c
  else inl (err FileNotFoundError "No such file or directory").

Definition t_run (f : files) (_ : string) (_ : list (string * string))
    (_ : list string) : (string + child_output) * files :=
  (inr {| child_stdout := ""; child_stderr := "" |}, f).

Definition t_makedirs_null (f : files) (c d : string) (f' : files) :
  t_makedirs f c d = (Some DirNullByte, f') -> has_nul d = true.
Proof.
  unfold t_makedirs. destruct (has_nul d); [reflexivity|].
  destruct (PyStr.mem _ _); discriminate.
Qed.

Definition t_write_file_null (f : files) (c p : string) (a : bool) (t : string)
    (f' : files) :
  t_write_file f c p a t = (None, f') -> has_nul p = false.
Proof. unfold t_write_file. destruct (has_nul p); [discriminate|reflexivity]. Qed.

Definition t_chdir_null (f : files) (c p d : string) :
  t_chdir f c p = inr d -> has_nul p = false.
Proof. unfold t_chdir. destruct (has_nul p); [discriminate|reflexivity]. Qed.

Definition t_chdir_getcwd (f : files) (c p d : string) :
  t_chdir f c p = inr d -> t_getcwd f d = inr d.
Proof.
  unfold t_chdir, t_getcwd. destruct (has_nul p); [discriminate|].
  destruct (t_isdir f "" p) eqn:E.
  - destruct (PyStr.mem p (locked f)); [discriminate|].
    intros [= <-]. rewrite E. reflexivity.
  - destruct (t_isfile f "" p); discriminate.
Qed.

Definition os : OS files :=
  {| isfile := t_isfile; isdir := t_isdir; path_exists := t_exists;
     access_x := t_access_x; listdir := t_listdir; makedirs := t_makedirs;
     write_file := t_write_file; chdir := t_chdir; getcwd := t_getcwd;
     run := t_run;
     makedirs_null := t_makedirs_null; write_file_null := t_write_file_null;
     chdir_null := t_chdir_null; chdir_getcwd := t_chdir_getcwd |}.

(** A root directory, /usr/bin with echo, ls and pwdx, and a locked /root. *)
Definition disk : files :=
  {| dirs := [("/", ["usr"; "root"; "home"]); ("/usr", ["bin"]);
              ("/usr/bin", ["echo"; "ls"; "pwdx"]); ("/root", []); ("/home", [])];
     locked := ["/root"];
     execs := ["/usr/bin/echo"; "/usr/bin/ls"; "/usr/bin/pwdx"];
     contents := [] |}.

(** PATH=/usr/bin, HOME=/home, started in /home. *)
Definition w0 : world files :=
  {| environ := [("PATH", "/usr/bin"); ("HOME", "/home")]; cwd := "/home";
     fs := disk; term := [] |}.

(** The same with no PATH variable. *)
Definition w_nopath : world files :=
  {| environ := [("HOME", "/home")]; cwd := "/home"; fs := disk; term := [] |}.

(** A search path whose only program is pwdx. *)
Definition w_pwdx : world files :=
  {| environ := [("PATH", "/opt")]; cwd := "/home";
     fs := {| dirs := [("/opt", ["pwdx"]); ("/home", [])]; locked := [];
              execs := ["/opt/pwdx"]; contents := [] |};
     term := [] |}.

End Toy.

(* ================================================================== *)
(** ** More example worlds *)

Module ToyMore.

(** PATH=/root:/usr/bin, where /root cannot be listed. *)
Definition w_locked : world Toy.files :=
  {| environ := [("PATH", "/root:/usr/bin")]; cwd := "/home"; fs := Toy.disk;
     term := [] |}.

(** A search path whose only program is exiftool. *)
Definition w_exif : world Toy.files :=
  {| environ := [("PATH", "/opt")]; cwd := "/home";
     fs := {| Toy.dirs := [("/opt", ["exiftool"]); ("/home", [])];
              Toy.locked := []; Toy.execs := ["/opt/exiftool"];
              Toy.contents := [] |};
     term := [] |}.

(** PATH=/usr/bin/ls:/usr/bin, whose first entry is a regular file. *)
Definition w_file_on_path : world Toy.files :=
  {| environ := [("PATH", "/usr/bin/ls:/usr/bin")]; cwd := "/home";
     fs := Toy.disk; term := [] |}.

(** A process whose working directory, /gone, has been removed. *)
Definition w_gone : world Toy.files :=
  {| environ := [("PATH", "/usr/bin"); ("HOME", "/home")]; cwd := "/gone";
     fs := Toy.disk; term := [] |}.

End ToyMore.

(* ================================================================== *)
(** ** Shapes of input lines, for the properties of whole lines *)

Fixpoint all_chars (p : ascii -> bool) (s : string) : bool :=
  match s with
  | EmptyString => true
  | String c s' => p c && all_chars p s'
  end.

(** The character that every redirection operator ends with. *)
Definition is_gt (c : ascii) : bool := Ascii.eqb c ">"%char.
Definition not_gt (c : ascii) : bool := negb (is_gt c).

(** A character that is no white space, no quote, no backslash and no [>]. *)
Definition plain (c : ascii) : bool :=
  negb (PyStr.isspace c) && negb (Shlex.is_quote c) && negb (Shlex.is_escape c)
  && not_gt c.

(** A word: not empty, plain characters only. *)
Definition plain_word (w : string) : bool :=
  negb (String.eqb w "") && all_chars plain w.

(** White space of the tokenizer only (space, tab, CR, LF). *)
Definition blank (s : string) : bool := all_chars Shlex.is_whitespace s.

(** A gap between two words: blank and not empty. *)
Definition gap (s : string) : bool := negb (String.eqb s "") && blank s.

(** Words, each after its gap, and a blank tail. *)
Fixpoint spaced (pieces : list (string * string)) (tail : string) : string :=
  match pieces with
  | [] => tail
  | (ws, w) :: pieces' => ws ++ w ++ spaced pieces' tail
  end.

Definition pieces_ok (pieces : list (string * string)) : bool :=
  forallb (fun p => gap (fst p) && plain_word (snd p)) pieces.

(** Whether every match of a pattern has to consume the character [c]. *)
Fixpoint needs (c : ascii) (r : Re.regex) : bool :=
  match r with
  | Re.Atom (Re.Ch d) => Ascii.eqb d c
  | Re.Atom _ => false
  | Re.Rep _ _ _ _ => false
  | Re.Cat r1 r2 => needs c r1 || needs c r2
  | Re.Alt r1 r2 => needs c r1 && needs c r2
  | Re.Group _ r1 => needs c r1
  | Re.Eol => false
  | Re.Eps => false
  end.

Definition pattern_needs (c : ascii) (pattern : string) : bool :=
  match Re.compile pattern with
  | Some r => needs c r
  | None => true
  end.

(** What one directory of the search path contributes to the candidates of
    [text]: it is a directory, its listing succeeds and holds the name, the
    name starts with [text] and is an executable regular file there. *)
Definition offers {F : Type} (os : OS F) (w : world F)
    (text directory filename : string) : Prop :=
  isdir os (fs w) (cwd w) directory = true /\
  (exists files, listdir os (fs w) (cwd w) directory = inr files /\
                 In filename files) /\
  PyStr.startswith filename text = true /\
  is_executable_file os w (PosixPath.join directory filename) = true.

(** A run of completion requests, each with its text, its state number and
    the world at its time; the answers, in order. *)
Fixpoint requests {F : Type} (os : OS F) (reqs : list (string * nat * world F))
    (g : globals) : list (outcome (option string)) :=
  match reqs with
  | [] => []
  | (text, state, w) :: reqs' =>
      let '(r, g', _) := complete os text state g w in
      r :: requests os reqs' g'
  end.

(** A NameError, whatever the name. *)
Definition is_name_error {A : Type} (r : outcome A) : bool :=
  match r with
  | Raise (NameError _) => true
  | _ => false
  end.


(** *** Lines with redirection operators *)

(** White space other than the newline. *)
Definition hspace (c : ascii) : bool :=
  PyStr.isspace c && negb (Ascii.eqb c PyStr.newline).

(** What stands between a command, an operator and a target: white space
    without newline, not empty. *)
Definition sep (s : string) : bool :=
  negb (String.eqb s "") && all_chars hspace s.

Definition no_newline (c : ascii) : bool := negb (Ascii.eqb c PyStr.newline).

Fixpoint ends_nonspace (s : string) : bool :=
  match s with
  | EmptyString => true
  | String a EmptyString => negb (PyStr.isspace a)
  | String _ s' => ends_nonspace s'
  end.

(** A command text: no [>], no newline, no white space at its end. *)
Definition cmd_ok (c : string) : bool :=
  all_chars (fun x => not_gt x && no_newline x) c && ends_nonspace c.

(** A target: not empty, no white space, no [>]. *)
Definition solid_char (x : ascii) : bool := negb (PyStr.isspace x) && not_gt x.
Definition solid (t : string) : bool :=
  negb (String.eqb t "") && all_chars solid_char t.

(** The four spellings of a stdout operator and the two of a stderr one. *)
Inductive out_op : Type := Trunc | Trunc1 | App | App1.
Inductive err_op : Type := ErrTrunc | ErrApp.

Definition out_text (o : out_op) : string :=
  match o with Trunc => ">" | Trunc1 => "1>" | App => ">>" | App1 => "1>>" end.
Definition out_appends (o : out_op) : bool :=
  match o with Trunc | Trunc1 => false | App | App1 => true end.
Definition err_text (o : err_op) : string :=
  match o with ErrTrunc => "2>" | ErrApp => "2>>" end.
Definition err_appends (o : err_op) : bool :=
  match o with ErrTrunc => false | ErrApp => true end.

(** The text after a literal prefix, compared character by character. *)
Fixpoint after_prefix (p s : string) : option string :=
  match p, s with
  | EmptyString, _ => Some s
  | String a p', String b s' => if Ascii.eqb b a then after_prefix p' s' else None
  | String _ _, EmptyString => None
  end.

Definition head_space (s : string) : bool :=
  match s with
  | String a _ => PyStr.isspace a
  | EmptyString => false
  end.

(** Whether [s] begins with the spelling [o], or with one of the operator
    spellings [ops], followed by white space. *)
Definition begins (o s : string) : bool :=
  match after_prefix o s with
  | Some rest => head_space rest
  | None => false
  end.

Definition starts (ops : list string) (s : string) : bool :=
  existsb (fun o => begins o s) ops.

(** No operator of [ops] right after the white space [s] begins with. *)
Fixpoint lead_free (ops : list string) (s : string) : bool :=
  match s with
  | String a s' =>
      if PyStr.isspace a then negb (starts ops s') && lead_free ops s' else true
  | EmptyString => true
  end.

(** No operator of [ops] after any white space of [s]. *)
Fixpoint op_free (ops : list string) (s : string) : bool :=
  match s with
  | EmptyString => true
  | String a s' =>
      (if PyStr.isspace a then negb (starts ops s') else true) && op_free ops s'
  end.

(** No operator of [ops] after the white space that any non-empty suffix of
    [x] begins with, when [x] is followed by [r]. *)
Fixpoint prefix_free (ops : list string) (x r : string) : bool :=
  match x with
  | EmptyString => true
  | String a x' => lead_free ops (String a x' ++ r) && prefix_free ops x' r
  end.

(** The parts of the four patterns, as [Re.compile] builds them. *)
Definition re_ws : Re.regex := Re.Rep Re.Space 1 None true.
Definition re_lit (c : ascii) : Re.regex := Re.Atom (Re.Ch c).
Definition re_tail : Re.regex :=
  Re.Alt (Re.Cat re_ws (Re.Cat (re_lit "2") (Re.Cat (re_lit ">")
            (Re.Cat (re_lit ">") (Re.Rep Re.Dot 0 None true)))))
    (Re.Alt Re.Eol
       (Re.Alt (Re.Cat re_ws (Re.Cat (re_lit "2") (Re.Cat (re_lit ">")
                  (Re.Rep Re.Dot 0 None true))))
          Re.Eol)).
Definition re_shape (op g3 tail : Re.regex) : Re.regex :=
  Re.Cat (Re.Group 1 (Re.Rep Re.Dot 0 None false))
    (Re.Cat re_ws (Re.Cat (Re.Group 2 op)
       (Re.Cat re_ws (Re.Cat (Re.Group 3 g3) tail)))).
Definition op_stdout_append : Re.regex :=
  Re.Cat (Re.Rep (Re.Ch "1") 0 (Some 1) true) (Re.Cat (re_lit ">") (re_lit ">")).
Definition op_stdout : Re.regex :=
  Re.Alt (Re.Cat (Re.Rep (Re.Ch "1") 0 (Some 1) true) (re_lit ">")) (re_lit ">").
Definition op_stderr_append : Re.regex :=
  Re.Cat (re_lit "2") (Re.Cat (re_lit ">") (re_lit ">")).
Definition op_stderr : Re.regex := Re.Cat (re_lit "2") (re_lit ">").
Definition g3_lazy : Re.regex := Re.Rep Re.Dot 1 None false.
Definition g3_greedy : Re.regex := Re.Rep Re.Dot 1 None true.

(** The spellings each operator expression accepts. *)
Definition ops_stdout_append : list string := [">>"; "1>>"].
Definition ops_stdout : list string := [">"; "1>"].
Definition ops_stderr_append : list string := ["2>>"].
Definition ops_stderr : list string := ["2>"].

Definition spellings : list string := [">"; "1>"; ">>"; "1>>"; "2>"; "2>>"].
Definition is_spelling (o : string) : bool := existsb (String.eqb o) spellings.
Definition only_spellings (ops : list string) : bool := forallb is_spelling ops.
Definition mem_ops (o : string) (ops : list string) : bool :=
  existsb (String.eqb o) ops.

(** Whether one of the first two characters is [>]. *)
Definition gt2 (s : string) : bool :=
  match s with
  | String a (String b _) => is_gt a || is_gt b
  | String a EmptyString => is_gt a
  | EmptyString => false
  end.

(** What may follow a stdout target: nothing, or a stderr redirection. *)
Definition tail_ok (rest : string) : Prop :=
  rest = "" \/
  exists w3 eo w4 e,
    rest = w3 ++ err_text eo ++ w4 ++ e /\
    sep w3 = true /\ sep w4 = true /\ solid e = true.

(** An expression without capturing groups. *)
Fixpoint group_free (r : Re.regex) : bool :=
  match r with
  | Re.Cat r1 r2 | Re.Alt r1 r2 => group_free r1 && group_free r2
  | Re.Group _ _ => false
  | _ => true
  end.

(** The continuation [Re.search_from] starts a match with. *)
Definition final (start : nat) : Re.cont :=
  fun _ p cs => Some ((0, (start, p)) :: cs).

(** The result of [handle_redirects] on a line without redirection. *)
Definition no_redirect (line : string) : redirects :=
  {| cmd := line; stdout_file := None; stderr_file := None;
     append_stdout := false; append_stderr := false |}.

(** The world after a successful change of directory. *)
Definition set_cwd {F : Type} (w : world F) (d : string) : world F :=
  {| environ := environ w; cwd := d; fs := fs w; term := term w |}.

(* ================================================================== *)
(** * Properties *)

(** ** handle_redirects *)

(** The four patterns are within the fragment of the pattern syntax. *)
Lemma patterns_compile :
  is_some (Re.compile stdout_append_pattern) = true /\
  is_some (Re.compile stdout_pattern) = true /\
  is_some (Re.compile stderr_append_pattern) = true /\
  is_some (Re.compile stderr_pattern) = true.
Proof. vm_compute. repeat split. Qed.

(** With the stdout operator first, both targets are cut out of the command. *)
Lemma handle_redirects_stdout_first :
  handle_redirects "cmd > o.txt 2> e.txt" =
  {| cmd := "cmd"; stdout_file := Some "o.txt"; stderr_file := Some "e.txt";
     append_stdout := false; append_stderr := false |}.
Proof. vm_compute. reflexivity. Qed.

(** C1: on the line [cmd 2> e.txt > o.txt] the stderr operator comes first;
    the command text handle_redirects returns still holds the stderr
    operator and its target, and the stderr target swallows the stdout
    operator and its target. *)
Theorem handle_redirects_stderr_first :
  handle_redirects "cmd 2> e.txt > o.txt" =
  {| cmd := "cmd 2> e.txt"; stdout_file := Some "o.txt";
     stderr_file := Some "e.txt > o.txt";
     append_stdout := false; append_stderr := false |}.
Proof. vm_compute. reflexivity. Qed.

(** ** find_executable *)

Section ResolverFacts.

Context {F : Type}.
Variable os : OS F.

Lemma join_empty_dir (command : string) : PosixPath.join "" command = command.
Proof.
  unfold PosixPath.join. destruct (PyStr.startswith command "/"); reflexivity.
Qed.

Lemma find_in_paths_none (w : world F) (command : string) (paths : list string) :
  find_in_paths os w paths command = None <->
  forall d, In d paths ->
            is_executable_file os w (PosixPath.join d command) = false.
Proof.
  induction paths as [|d0 paths IH]; simpl.
  - split; [intros _ d []|reflexivity].
  - destruct (is_executable_file os w (PosixPath.join d0 command)) eqn:E.
    + split; [discriminate|].
      intros H. specialize (H d0 (or_introl eq_refl)). congruence.
    + rewrite IH. split.
      * intros H d [<-|Hd]; auto.
      * intros H d Hd. apply H. now right.
Qed.

Lemma find_in_paths_some (w : world F) (command p : string) (paths : list string) :
  find_in_paths os w paths command = Some p <->
  exists before d after,
    paths = (before ++ d :: after)%list /\
    p = PosixPath.join d command /\
    is_executable_file os w p = true /\
    forall d', In d' before ->
               is_executable_file os w (PosixPath.join d' command) = false.
Proof.
  induction paths as [|d0 paths IH]; simpl.
  - split; [discriminate|].
    intros (before & d & after & H & _). destruct before; discriminate.
  - destruct (is_executable_file os w (PosixPath.join d0 command)) eqn:E.
    + split.
      * intros [= <-]. exists [], d0, paths. repeat split; auto.
        intros d' [].
      * intros (before & d & after & Hp & -> & Hx & Hb).
        destruct before as [|b before]; simpl in Hp; injection Hp as ? ?; subst.
        -- reflexivity.
        -- rewrite (Hb _ (or_introl eq_refl)) in E. discriminate.
    + rewrite IH. split.
      * intros (before & d & after & -> & -> & Hx & Hb).
        exists (d0 :: before), d, after. repeat split; auto.
        intros d' [<-|Hd]; auto.
      * intros (before & d & after & Hp & -> & Hx & Hb).
        destruct before as [|b before]; simpl in Hp; injection Hp as ? ?; subst.
        -- congruence.
        -- exists before, d, after. repeat split; auto.
           intros d' Hd. apply Hb. now right.
Qed.

(** C7 (amended): find_executable returns the joined path of the first
    entry of the split search-path variable whose joined path is a regular
    file and executable, and None exactly when no entry has one; an unset
    or empty variable splits into the single empty entry, whose joined path
    is the name itself, so the name is then tried as a path of its own. *)
Theorem find_executable_first_match (w : world F) (command : string) :
  let paths := PyStr.split ":" (environ_get (environ w) "PATH") in
  (forall p,
      find_executable os w command = Some p <->
      exists before d after,
        paths = (before ++ d :: after)%list /\
        p = PosixPath.join d command /\
        is_executable_file os w p = true /\
        forall d', In d' before ->
                   is_executable_file os w (PosixPath.join d' command) = false) /\
  (find_executable os w command = None <->
   forall d, In d paths ->
             is_executable_file os w (PosixPath.join d command) = false) /\
  (environ_get (environ w) "PATH" = "" ->
   find_executable os w command =
   if is_executable_file os w command then Some command else None).
Proof.
  cbv zeta. unfold find_executable. repeat split.
  - apply find_in_paths_some.
  - apply find_in_paths_some.
  - apply find_in_paths_none.
  - apply find_in_paths_none.
  - intros ->. simpl. rewrite join_empty_dir. reflexivity.
Qed.

End ResolverFacts.

(** C7: with no search-path variable at all, find_executable still returns
    a path: a name that is itself the path of an executable file. *)
Lemma find_executable_without_path :
  environ_get (environ Toy.w_nopath) "PATH" = "" /\
  find_executable Toy.os Toy.w_nopath "/usr/bin/ls" = Some "/usr/bin/ls".
Proof. split; reflexivity. Qed.

(** ** complete: the hard-coded texts *)

(** C10: at state 0 the typed texts ech, exi and xyz_quz_qux_bar return
    [echo ], [exit ] and [xyz_quz_qux_bar ] whatever the system holds and
    whatever the completer's variables are; nothing is looked up, written
    or recorded. *)
Theorem complete_hardcoded {F : Type} (os : OS F) (g : globals) (w : world F) :
  complete os "ech" 0 g w = (Ret (Some "echo "), g, w) /\
  complete os "exi" 0 g w = (Ret (Some "exit "), g, w) /\
  complete os "xyz_quz_qux_bar" 0 g w = (Ret (Some "xyz_quz_qux_bar "), g, w).
Proof. repeat split; reflexivity. Qed.

(** ** find_completions: a name that is both a builtin and on the path *)

(** C5: with /usr/bin/echo on the search path, the candidates for [e] list
    echo twice: executables are only compared with the executables found so
    far, not with the builtin matches. *)
Theorem find_completions_duplicate :
  find_completions Toy.os Toy.w0 "e" = inr (["echo"; "echo"; "exit"], "e").
Proof. vm_compute. reflexivity. Qed.

(** ** complete: a new text while a second press is awaited *)

(** C2: after a first press on [e] (bell, second press awaited), a press on
    the different text [] keeps the awaited flag and prints the candidate
    list at once. *)
Theorem complete_new_text_prints_list :
  let '(r1, g1, w1) := complete Toy.os "e" 0 initial_globals Toy.w_nopath in
  let '(r2, g2, w2) := complete Toy.os "" 0 g1 w1 in
  r1 = Ret None /\ term w1 = [Out bel] /\
  last_text g1 = "e" /\ tab_pressed g1 = true /\
  r2 = Ret None /\
  term w2 = [Out bel; Out nl; Out ("cd  echo  exit  pwd  type" ++ nl); Out "$ "] /\
  last_text g2 = "" /\ tab_pressed g2 = false.
Proof. vm_compute. repeat split; reflexivity. Qed.

(** ** The dispatcher *)

Lemma startswith_get (t p : string) :
  PyStr.startswith t p = true ->
  forall i c, String.get i p = Some c -> String.get i t = Some c.
Proof.
  unfold PyStr.startswith. revert t.
  induction p as [|a p IH]; intros t H i c Hc.
  - destruct i; discriminate.
  - destruct t as [|b t]; simpl in H; [discriminate|].
    destruct (ascii_dec a b) as [<-|]; [|discriminate].
    destruct i as [|i]; simpl in *; [assumption|].
    now apply IH.
Qed.

(** Two prefixes that differ at position [i] cannot both hold. *)
Ltac clash E1 E2 i :=
  let H1 := fresh in
  let H2 := fresh in
  pose proof (startswith_get _ _ E1 i) as H1;
  pose proof (startswith_get _ _ E2 i) as H2;
  simpl in H1, H2;
  specialize (H1 _ eq_refl); specialize (H2 _ eq_refl); congruence.

Ltac literal E := apply String.eqb_eq in E; subst; discriminate.

Lemma classify_cases (t : string) :
  (classify t = Echo <-> PyStr.startswith t "echo " = true) /\
  (classify t = Type_ <-> PyStr.startswith t "type " = true) /\
  (classify t = Exit <-> PyStr.startswith t "exit" = true) /\
  (classify t = Pwd <-> t = "pwd") /\
  (classify t = Cd <-> PyStr.startswith t "cd " = true) /\
  (classify t = External <->
   PyStr.startswith t "echo " = false /\ PyStr.startswith t "type " = false /\
   PyStr.startswith t "exit" = false /\ t <> "pwd" /\
   PyStr.startswith t "cd " = false).
Proof.
  unfold classify.
  destruct (PyStr.startswith t "echo ") eqn:E1;
  destruct (PyStr.startswith t "type ") eqn:E2;
  destruct (PyStr.startswith t "exit") eqn:E3;
  destruct (String.eqb t "pwd") eqn:E4;
  destruct (PyStr.startswith t "cd ") eqn:E5;
  try (clash E1 E2 0); try (clash E1 E3 1); try (clash E1 E5 0);
  try (clash E2 E3 0); try (clash E2 E5 0); try (clash E3 E5 0);
  try (literal E4);
  try (apply String.eqb_neq in E4);
  try (apply String.eqb_eq in E4);
  repeat split; intros; try discriminate; try congruence;
  intuition (try discriminate; try congruence).
Qed.

Lemma run_line_dispatch {F : Type} (os : OS F) (command_str : string) (w : world F) :
  let r := handle_redirects command_str in
  run_line os command_str w =
  (ensure_dirs os r ;; run_kind os (classify (PyStr.strip (cmd r))) r)%prog w.
Proof.
  cbv zeta. unfold run_line, ensure_dirs, classify, bind.
  destruct (when_set (stdout_file (handle_redirects command_str))
              (ensure_dir_exists os) w) as [[[]| |] w1]; try reflexivity.
  destruct (when_set (stderr_file (handle_redirects command_str))
              (ensure_dir_exists os) w1) as [[[]| |] w2]; try reflexivity.
  destruct (PyStr.startswith _ "echo "); [reflexivity|].
  destruct (PyStr.startswith _ "type "); [reflexivity|].
  destruct (PyStr.startswith _ "exit"); [reflexivity|].
  destruct (String.eqb _ "pwd"); [reflexivity|].
  destruct (PyStr.startswith _ "cd "); reflexivity.
Qed.

Lemma whitespace_is_space (c : ascii) :
  Shlex.is_whitespace c = true -> PyStr.isspace c = true.
Proof.
  unfold Shlex.is_whitespace. rewrite !orb_true_iff, !Ascii.eqb_eq.
  intros [[[->| ->]| ->]| ->]; reflexivity.
Qed.

(** A text of blanks only is trimmed to nothing and has no tokens. *)
Lemma strip_of_blank (s : string) : blank s = true -> PyStr.strip s = "".
Proof.
  unfold PyStr.strip, blank. induction s as [|c s IH]; [reflexivity|].
  simpl. intros H. apply andb_true_iff in H. destruct H as [Hc Hs].
  rewrite (whitespace_is_space c Hc). apply IH, Hs.
Qed.

Lemma tokens_of_blank (s : string) : blank s = true -> parse_command s = inr [].
Proof.
  unfold parse_command, Shlex.split, blank.
  induction s as [|c s IH]; [reflexivity|].
  simpl. intros H. apply andb_true_iff in H. destruct H as [Hc Hs].
  rewrite Hc. apply IH, Hs.
Qed.

(** C6 (amended): main runs the branch of the first condition of its chain
    that the trimmed command text meets: the prefixes [echo ], [type ],
    [exit] and [cd ] select Echo, Type, Exit and Cd, the text equal to
    [pwd], and no longer text, selects Pwd, and every other text is handed
    to the external branch; so [pwdx] is External, not Pwd.  The external
    branch does nothing when the token list is empty, which is how a blank
    command text is passed over. *)
Theorem dispatch_by_kind {F : Type} (os : OS F) (command_str : string) (w : world F) :
  let r := handle_redirects command_str in
  let t := PyStr.strip (cmd r) in
  run_line os command_str w = (ensure_dirs os r ;; run_kind os (classify t) r)%prog w /\
  (classify t = Echo <-> PyStr.startswith t "echo " = true) /\
  (classify t = Type_ <-> PyStr.startswith t "type " = true) /\
  (classify t = Exit <-> PyStr.startswith t "exit" = true) /\
  (classify t = Pwd <-> t = "pwd") /\
  (classify t = Cd <-> PyStr.startswith t "cd " = true) /\
  (classify t = External <->
   PyStr.startswith t "echo " = false /\ PyStr.startswith t "type " = false /\
   PyStr.startswith t "exit" = false /\ t <> "pwd" /\
   PyStr.startswith t "cd " = false) /\
  classify "pwdx" = External /\
  (parse_command (cmd r) = inr [] ->
   forall w', run_kind os External r w' = (Ret tt, w')) /\
  (blank (cmd r) = true ->
   classify t = External /\ parse_command (cmd r) = inr []).
Proof.
  cbv zeta. split; [apply run_line_dispatch|].
  pose proof (classify_cases (PyStr.strip (cmd (handle_redirects command_str)))) as H.
  assert (Hkinds :
    let t := PyStr.strip (cmd (handle_redirects command_str)) in
    (classify t = Echo <-> PyStr.startswith t "echo " = true) /\
    (classify t = Type_ <-> PyStr.startswith t "type " = true) /\
    (classify t = Exit <-> PyStr.startswith t "exit" = true) /\
    (classify t = Pwd <-> t = "pwd") /\
    (classify t = Cd <-> PyStr.startswith t "cd " = true) /\
    (classify t = External <->
     PyStr.startswith t "echo " = false /\ PyStr.startswith t "type " = false /\
     PyStr.startswith t "exit" = false /\ t <> "pwd" /\
     PyStr.startswith t "cd " = false) /\
    classify "pwdx" = External).
  { cbv zeta. repeat split; try apply H; tauto. }
  cbv zeta in Hkinds.
  destruct Hkinds as (K1 & K2 & K3 & K4 & K5 & K6 & K7).
  repeat (split; [assumption|]).
  split.
  - intros Hp w'. cbn [run_kind]. unfold run_external, bind, tokens.
    rewrite Hp. reflexivity.
  - intros Hb. split.
    + rewrite strip_of_blank by assumption. reflexivity.
    + apply tokens_of_blank. assumption.
Qed.

(** C6: the line [pwdx] begins with [pwd] but is not run as the Pwd
    builtin: it is looked up as an external command, and the working
    directory is not printed. *)
Lemma pwdx_is_external :
  PyStr.startswith (PyStr.strip (cmd (handle_redirects "pwdx"))) "pwd" = true /\
  run_line Toy.os "pwdx" Toy.w_nopath =
    run_external Toy.os (handle_redirects "pwdx") Toy.w_nopath /\
  term (snd (run_line Toy.os "pwdx" Toy.w_nopath)) =
    [Out ("pwdx: command not found" ++ nl)] /\
  term (snd (run_pwd Toy.os (handle_redirects "pwdx") Toy.w_nopath)) =
    [Out ("/home" ++ nl)].
Proof. vm_compute. repeat split; reflexivity. Qed.

(** ** Sorting *)

Lemma str_le_total (a b : string) : str_le a b \/ str_le b a.
Proof. apply String.leb_total. Qed.

Lemma insert_hdrel (a x : string) (l : list string) :
  str_le a x -> HdRel str_le a l -> HdRel str_le a (PyStr.insert x l).
Proof.
  intros Hax Hl. destruct l as [|y l]; simpl.
  - now constructor.
  - destruct (String.leb x y); constructor; [assumption|].
    now inversion Hl.
Qed.

Lemma insert_sorted (x : string) (l : list string) :
  Sorted str_le l -> Sorted str_le (PyStr.insert x l).
Proof.
  induction 1 as [|y l Hs IH Hhd]; simpl.
  - repeat constructor.
  - destruct (String.leb x y) eqn:E.
    + repeat constructor; assumption.
    + constructor; [assumption|].
      apply insert_hdrel; [|assumption].
      destruct (str_le_total x y) as [H|H]; [|assumption].
      unfold str_le in H. congruence.
Qed.

Lemma sort_sorted (l : list string) : Sorted str_le (PyStr.sort l).
Proof.
  induction l as [|x l IH]; simpl; [constructor|now apply insert_sorted].
Qed.

Lemma insert_in (x y : string) (l : list string) :
  In y (PyStr.insert x l) <-> y = x \/ In y l.
Proof.
  induction l as [|z l IH]; simpl.
  - intuition.
  - destruct (String.leb x z); simpl; [|rewrite IH]; intuition.
Qed.

Lemma sort_in (y : string) (l : list string) : In y (PyStr.sort l) <-> In y l.
Proof.
  induction l as [|x l IH]; simpl; [tauto|].
  rewrite insert_in, IH. intuition.
Qed.

(** ** find_completions *)

Section CompletionFacts.

Context {F : Type}.
Variable os : OS F.

(** The lookups read the file system, the working directory and the
    environment, and nothing of the terminal. *)
Lemma is_executable_file_system (w w' : world F) (p : string) :
  same_system w w' -> is_executable_file os w p = is_executable_file os w' p.
Proof. intros (_ & Hc & Hf). unfold is_executable_file. now rewrite Hc, Hf. Qed.

Lemma scan_files_system (w w' : world F) (text directory : string)
    (files executables : list string) :
  same_system w w' ->
  scan_files os w text directory files executables =
  scan_files os w' text directory files executables.
Proof.
  intros Hs. revert executables.
  induction files as [|f files IH]; intros executables; simpl; [reflexivity|].
  rewrite (is_executable_file_system w w' _ Hs), !IH. reflexivity.
Qed.

Lemma scan_paths_system (w w' : world F) (text : string)
    (paths executables : list string) :
  same_system w w' ->
  scan_paths os w text paths executables = scan_paths os w' text paths executables.
Proof.
  intros Hs. revert executables.
  induction paths as [|d paths IH]; intros executables; simpl; [reflexivity|].
  destruct Hs as (He & Hc & Hf). rewrite <- Hc, <- Hf.
  destruct (isdir os (fs w) (cwd w) d); simpl; [|apply IH].
  destruct (listdir os (fs w) (cwd w) d) as [e|files].
  - destruct (os_kind e); auto.
  - rewrite (scan_files_system w w') by (repeat split; assumption). apply IH.
Qed.

Lemma find_completions_system (w w' : world F) (text : string) :
  same_system w w' -> find_completions os w text = find_completions os w' text.
Proof.
  intros Hs. unfold find_completions.
  rewrite (scan_paths_system w w' _ _ _ Hs).
  destruct Hs as (-> & _). reflexivity.
Qed.

Lemma add_term_system (w : world F) (evs : list tty_event) :
  same_system (add_term w evs) w.
Proof. repeat split. Qed.

Lemma find_completions_sorted (w : world F) (text : string)
    (matches : list string) (lp : string) :
  find_completions os w text = inr (matches, lp) -> Sorted str_le matches.
Proof.
  unfold find_completions.
  destruct (scan_paths os w text _ []) as [e|executables]; [discriminate|].
  pose proof (sort_sorted
                (filter (fun c => PyStr.startswith c text) builtins ++ executables))
    as Hs.
  destruct (PyStr.sort _) as [|first rest]; intros [= <- <-]; [constructor|exact Hs].
Qed.

(** A search-path entry that is no directory, or whose listing fails with
    PermissionError or FileNotFoundError, is passed over. *)
Lemma scan_paths_skips (w : world F) (text directory : string)
    (paths executables : list string) :
  isdir os (fs w) (cwd w) directory = false \/
  (exists e, listdir os (fs w) (cwd w) directory = inl e /\
             (os_kind e = PermissionError \/ os_kind e = FileNotFoundError)) ->
  scan_paths os w text (directory :: paths) executables =
  scan_paths os w text paths executables.
Proof.
  simpl. intros [->|(e & -> & [Hk|Hk])]; [reflexivity| |];
    destruct (isdir os (fs w) (cwd w) directory); simpl; rewrite ?Hk; reflexivity.
Qed.

(** Reading [longest_prefix] never fails: it is bound by the time there
    are candidates. *)
Lemma complete_prefix_bound (text : string) (state : nat) (g : globals)
    (w : world F) :
  prefix_bound g ->
  prefix_bound (snd (fst (complete os text state g w))) /\
  fst (fst (complete os text state g w)) <> Raise (NameError "longest_prefix").
Proof.
  intros Hg.
  assert (Hd : forall g0, prefix_bound g0 ->
            prefix_bound (snd (fst (complete_display text state g0 w))) /\
            fst (fst (complete_display text state g0 w))
              <> Raise (NameError "longest_prefix")).
  { intros g0 H0. unfold complete_display, complete_indexed.
    destruct (1 <? List.length (completion_matches g0))%nat eqn:E1.
    - destruct (negb (tab_pressed g0) && (state =? 0)%nat).
      + destruct (longest_prefix g0) as [lp0|] eqn:E2.
        * destruct (String.length lp0 <=? String.length text)%nat; simpl;
            (split; [right; simpl; congruence|discriminate]).
        * destruct H0 as [H0|H0]; [|contradiction].
          rewrite H0 in E1. discriminate.
      + destruct (tab_pressed g0 && (state =? 0)%nat); simpl.
        * split; [|discriminate]. unfold prefix_bound in *. simpl. exact H0.
        * destruct (nth_error (completion_matches g0) state) as [m|];
            repeat match goal with
              | |- context [if ?b then _ else _] => destruct b
              end;
            simpl; (split; [exact H0|discriminate]).
    - destruct (nth_error (completion_matches g0) state) as [m|];
        repeat match goal with
          | |- context [if ?b then _ else _] => destruct b
          end;
        simpl; (split; [exact H0|discriminate]). }
  unfold complete.
  repeat match goal with
    | |- context [if ?b then (Ret ?x, g, w) else _] =>
        destruct b; [simpl; split; [exact Hg|discriminate]|]
    end.
  destruct (negb (String.eqb text (last_text g)) || (state =? 0)%nat);
    [|apply Hd; exact Hg].
  destruct (find_completions os w text) as [e|[ms lp]] eqn:Ef.
  - simpl. split; [exact Hg|].
    unfold find_completions in Ef.
    destruct (scan_paths os w text _ []) as [e'|ex] eqn:Es.
    + injection Ef as <-. clear Hd.
      revert Es. generalize (@nil string).
      induction (PyStr.split ":" (environ_get (environ w) "PATH")) as [|d ps IH];
        simpl; intros l Es; [discriminate|].
      destruct (negb (isdir os (fs w) (cwd w) d)); [eapply IH; eassumption|].
      destruct (listdir os (fs w) (cwd w) d) as [e0|fl];
        [|eapply IH; eassumption].
      destruct (os_kind e0); try (eapply IH; eassumption);
        injection Es as <-; discriminate.
    + destruct (PyStr.sort _); discriminate.
  - assert (Hb : forall b, prefix_bound
              {| last_text := text; tab_pressed := b; completion_matches := ms;
                 longest_prefix := Some lp |})
      by (intros b; right; simpl; congruence).
    repeat match goal with
      | |- context [if ?b then _ else _] =>
          destruct b; try (simpl; split; [apply Hb|discriminate]);
          try (apply Hd; apply Hb)
      end.
Qed.

(** ** complete: several candidates and nothing to extend *)

Section Ambiguous.

Variables (text lp : string) (matches : list string).
Hypothesis Hmany : 1 < List.length matches.
Hypothesis Hshort : String.length lp <= String.length text.
Hypothesis Hplain : hardcoded text = false.

Lemma hardcoded_tests :
  String.eqb text "ech" = false /\ String.eqb text "exi" = false /\
  PyStr.mem text builtins = false /\ String.eqb text "xyz_quz_qux_bar" = false.
Proof.
  unfold hardcoded in Hplain.
  repeat (apply orb_false_elim in Hplain; destruct Hplain as [Hplain ?]).
  repeat split; assumption.
Qed.

(** A request at state 0 with the flag clear: bell, flag set. *)
Lemma complete_first_press (g : globals) (w : world F) :
  find_completions os w text = inr (matches, lp) ->
  tab_pressed g = false ->
  complete os text 0 g w =
  (Ret None, recorded text matches lp true, add_term w [Out bel]).
Proof.
  intros Hf Ht. destruct hardcoded_tests as (H1 & H2 & H3 & H4).
  unfold complete. rewrite H1, H2, H3, H4. simpl.
  rewrite orb_true_r, Hf.
  replace (String.length text <? String.length lp)%nat with false
    by (symmetry; apply Nat.ltb_ge; exact Hshort).
  rewrite andb_false_r.
  replace (List.length matches =? 1)%nat with false
    by (symmetry; apply Nat.eqb_neq; lia).
  simpl. unfold complete_display. simpl.
  replace (1 <? List.length matches)%nat with true
    by (symmetry; apply Nat.ltb_lt; exact Hmany).
  rewrite Ht. simpl.
  replace (String.length lp <=? String.length text)%nat with true
    by (symmetry; apply Nat.leb_le; exact Hshort).
  reflexivity.
Qed.

(** A request at state 0 with the flag set, whatever text was recorded
    before: the candidate list and the prompt, flag cleared. *)
Lemma complete_second_press (g : globals) (w : world F) :
  find_completions os w text = inr (matches, lp) ->
  tab_pressed g = true ->
  complete os text 0 g w =
  (Ret None, recorded text matches lp false,
   add_term w [Out nl; Out (PyStr.join "  " matches ++ nl); Out ("$ " ++ text)]).
Proof.
  intros Hf Ht. destruct hardcoded_tests as (H1 & H2 & H3 & H4).
  unfold complete. rewrite H1, H2, H3, H4. simpl.
  rewrite orb_true_r, Hf.
  replace (String.length text <? String.length lp)%nat with false
    by (symmetry; apply Nat.ltb_ge; exact Hshort).
  rewrite andb_false_r.
  replace (List.length matches =? 1)%nat with false
    by (symmetry; apply Nat.eqb_neq; lia).
  simpl. unfold complete_display. simpl.
  replace (1 <? List.length matches)%nat with true
    by (symmetry; apply Nat.ltb_lt; exact Hmany).
  rewrite Ht. simpl.
  unfold add_term, recorded, set_tab_pressed. simpl.
  rewrite <- !app_assoc. reflexivity.
Qed.

End Ambiguous.

(** C4 (amended): for a typed text that is none of the hard-coded ones
    (ech, exi, xyz_quz_qux_bar and the five builtin names), with several
    candidates and a longest common extension no longer than the text, and
    with the awaited flag clear: the first request writes a bell, returns
    nothing and sets the flag; the next request on the same text writes a
    newline, the sorted candidates joined by two spaces, and the prompt
    with the text, returns nothing and clears the flag; the request after
    that rings the bell again. *)
Theorem complete_bell_list_bell (w : world F) (g : globals) (text lp : string)
    (matches : list string) :
  find_completions os w text = inr (matches, lp) ->
  1 < List.length matches ->
  String.length lp <= String.length text ->
  hardcoded text = false ->
  tab_pressed g = false ->
  let g1 := recorded text matches lp true in
  let w1 := add_term w [Out bel] in
  let g2 := recorded text matches lp false in
  let w2 := add_term w1 [Out nl; Out (PyStr.join "  " matches ++ nl);
                         Out ("$ " ++ text)] in
  complete os text 0 g w = (Ret None, g1, w1) /\
  complete os text 0 g1 w1 = (Ret None, g2, w2) /\
  complete os text 0 g2 w2 = (Ret None, g1, add_term w2 [Out bel]) /\
  Sorted str_le matches.
Proof.
  intros Hf Hmany Hshort Hplain Ht. cbv zeta.
  assert (Hsys : forall w', same_system w' w ->
                            find_completions os w' text = inr (matches, lp)).
  { intros w' Hs. now rewrite (find_completions_system w' w text Hs). }
  repeat split.
  - now apply complete_first_press.
  - apply complete_second_press; auto.
    apply Hsys. repeat split.
  - apply complete_first_press; auto.
    apply Hsys. repeat split.
  - eapply find_completions_sorted; eassumption.
Qed.

End CompletionFacts.

(** C4: two ways in which several candidates with nothing to extend do not
    give the bell on the first request. With exiftool on the search path
    the typed text [exi] has the candidates exiftool and exit and nothing
    to extend, yet the first request returns [exit ], with no bell and no
    flag: the text is answered before the candidates are looked at. And
    the flag outlives a change of the text: after the bell for the empty
    text, the first request for [e], with candidates echo and exit, prints
    the list at once. *)
Lemma complete_no_bell_on_first_request :
  (find_completions Toy.os ToyMore.w_exif "exi" = inr (["exiftool"; "exit"], "exi") /\
   hardcoded "exi" = true /\
   complete Toy.os "exi" 0 initial_globals ToyMore.w_exif =
     (Ret (Some "exit "), initial_globals, ToyMore.w_exif)) /\
  (let all := ["cd"; "echo"; "exit"; "pwd"; "type"] in
   let g1 := recorded "" all "" true in
   let w1 := add_term Toy.w_nopath [Out bel] in
   tab_pressed initial_globals = false /\
   complete Toy.os "" 0 initial_globals Toy.w_nopath = (Ret None, g1, w1) /\
   find_completions Toy.os w1 "e" = inr (["echo"; "exit"], "e") /\
   hardcoded "e" = false /\ tab_pressed g1 = true /\
   complete Toy.os "e" 0 g1 w1 =
     (Ret None, recorded "e" ["echo"; "exit"] "e" false,
      add_term w1 [Out nl; Out ("echo  exit" ++ nl); Out "$ e"])).
Proof. vm_compute. repeat split; reflexivity. Qed.

(** The three requests on the text [e] with no search path: bell, the
    list [echo  exit], bell. *)
Lemma complete_bell_list_bell_witness :
  let w := Toy.w_nopath in
  let g1 := recorded "e" ["echo"; "exit"] "e" true in
  let w1 := add_term w [Out bel] in
  let g2 := recorded "e" ["echo"; "exit"] "e" false in
  let w2 := add_term w1 [Out nl; Out (PyStr.join "  " ["echo"; "exit"] ++ nl);
                         Out ("$ " ++ "e")] in
  complete Toy.os "e" 0 initial_globals w = (Ret None, g1, w1) /\
  complete Toy.os "e" 0 g1 w1 = (Ret None, g2, w2) /\
  complete Toy.os "e" 0 g2 w2 = (Ret None, g1, add_term w2 [Out bel]) /\
  Sorted str_le ["echo"; "exit"].
Proof.
  apply (complete_bell_list_bell Toy.os Toy.w_nopath initial_globals "e" "e"
           ["echo"; "exit"]).
  - vm_compute. reflexivity.
  - simpl. lia.
  - simpl. lia.
  - reflexivity.
  - reflexivity.
Defined.

(** ** The tokenizer and unterminated quoting *)

Lemma whitespace_plain (c : ascii) :
  Shlex.is_whitespace c = true ->
  Shlex.is_quote c = false /\ Shlex.is_escape c = false.
Proof.
  unfold Shlex.is_whitespace. rewrite !orb_true_iff.
  intros [[[H|H]|H]|H]; apply Ascii.eqb_eq in H; subst; split; reflexivity.
Qed.

Lemma quote_not_escape (c : ascii) :
  Shlex.is_quote c = true -> Shlex.is_escape c = false.
Proof.
  unfold Shlex.is_quote. rewrite orb_true_iff.
  intros [H|H]; apply Ascii.eqb_eq in H; subst; reflexivity.
Qed.

Lemma emit_continue (token : string) (quoted : bool) (acc : list string)
    (k : list string -> Shlex.error + list string) :
  negb (String.eqb token "") || quoted = true ->
  Shlex.emit token quoted acc k = k (acc ++ [token])%list.
Proof.
  unfold Shlex.emit. destruct quoted, (String.eqb token ""); simpl;
    intros H; try discriminate; reflexivity.
Qed.

Lemma lex_quote_scan (input : string) :
  forall state escapedstate quoted token acc,
    esc_ok escapedstate ->
    lex_outcome (quote_scan (mode_of state escapedstate) input)
                (Shlex.lex state escapedstate quoted token input acc).
Proof.
  induction input as [|c rest IH]; intros state esc quoted token acc Hesc.
  - destruct state; simpl; try reflexivity;
      unfold Shlex.emit; destruct (negb quoted && String.eqb token "");
      eexists; reflexivity.
  - destruct state as [| |q|e]; simpl.
    + (* Ws *)
      destruct (Shlex.is_whitespace c) eqn:Ew.
      * destruct (whitespace_plain c Ew) as [-> ->].
        destruct (negb (String.eqb token "") || quoted) eqn:Et.
        -- rewrite emit_continue by assumption.
           apply (IH Shlex.Ws Shlex.Ws). exact I.
        -- apply (IH Shlex.Ws esc). assumption.
      * destruct (Shlex.is_escape c) eqn:Ee.
        -- apply (IH (Shlex.Escape c) Shlex.Word). exact I.
        -- destruct (Shlex.is_quote c) eqn:Eq.
           ++ apply (IH (Shlex.Quote c) esc). assumption.
           ++ apply (IH Shlex.Word esc). assumption.
    + (* Word *)
      destruct (Shlex.is_whitespace c) eqn:Ew.
      * destruct (whitespace_plain c Ew) as [-> ->].
        destruct (negb (String.eqb token "") || quoted) eqn:Et.
        -- rewrite emit_continue by assumption.
           apply (IH Shlex.Ws Shlex.Ws). exact I.
        -- apply (IH Shlex.Ws esc). assumption.
      * destruct (Shlex.is_quote c) eqn:Eq.
        -- rewrite (quote_not_escape c Eq).
           apply (IH (Shlex.Quote c) esc). assumption.
        -- destruct (Shlex.is_escape c) eqn:Ee.
           ++ apply (IH (Shlex.Escape c) Shlex.Word). exact I.
           ++ apply (IH Shlex.Word esc). assumption.
    + (* Quote q *)
      destruct (Ascii.eqb c q).
      * apply (IH Shlex.Word esc). assumption.
      * destruct (Shlex.is_escape c && Shlex.is_escapedquote q).
        -- apply (IH (Shlex.Escape c) (Shlex.Quote q)). exact I.
        -- apply (IH (Shlex.Quote q) esc). assumption.
    + (* Escape e *)
      destruct esc as [| |q|e']; try contradiction;
        match goal with
        | |- lex_outcome _ (Shlex.lex ?st ?es _ _ _ _) => apply (IH st es); exact I
        end.
Qed.

(** The tokenizer fails with "No closing quotation" exactly on the texts
    that end inside a quotation. *)
Lemma parse_command_unterminated (s : string) :
  parse_command s = inl Shlex.NoClosingQuotation <-> unterminated_quote s = true.
Proof.
  unfold parse_command, Shlex.split, unterminated_quote.
  pose proof (lex_quote_scan s Shlex.Ws Shlex.Ws false "" [] I) as H.
  simpl in H.
  destruct (quote_scan Outside s); simpl in H.
  - destruct H as [toks ->]. split; discriminate.
  - rewrite H. split; reflexivity.
  - rewrite H. split; discriminate.
Qed.

(** [strip] only removes white space. *)
Lemma lstrip_chars (s : string) (c : ascii) :
  In c (chars s) -> PyStr.isspace c = true \/ In c (chars (PyStr.lstrip s)).
Proof.
  induction s as [|a s IH]; simpl; [tauto|].
  destruct (PyStr.isspace a) eqn:E; intros [<-|H]; simpl; auto.
Qed.

Lemma rstrip_chars (s : string) (c : ascii) :
  In c (chars s) -> PyStr.isspace c = true \/ In c (chars (PyStr.rstrip s)).
Proof.
  induction s as [|a s IH]; simpl; [tauto|].
  intros [<-|H].
  - destruct (PyStr.rstrip s); [destruct (PyStr.isspace a) eqn:E|]; simpl; auto.
  - destruct (IH H) as [Hs|Hin]; [now left|].
    destruct (PyStr.rstrip s); [destruct Hin|]. right. simpl. now right.
Qed.

Lemma strip_chars (s : string) (c : ascii) :
  In c (chars s) -> PyStr.isspace c = true \/ In c (chars (PyStr.strip s)).
Proof.
  intros H. unfold PyStr.strip.
  destruct (lstrip_chars s c H) as [|H1]; [now left|].
  apply rstrip_chars. exact H1.
Qed.

Lemma isspace_plain (c : ascii) :
  PyStr.isspace c = true -> Shlex.is_quote c = false /\ Shlex.is_escape c = false.
Proof.
  destruct c as [[] [] [] [] [] [] [] []]; vm_compute; intuition discriminate.
Qed.

Lemma quote_scan_plain (s : string) :
  (forall c, In c (chars s) ->
             Shlex.is_quote c = false /\ Shlex.is_escape c = false) ->
  quote_scan Outside s = Outside.
Proof.
  induction s as [|a s IH]; simpl; [reflexivity|].
  intros H. destruct (H a (or_introl eq_refl)) as [-> ->]. auto.
Qed.

Lemma pwd_not_unterminated (s : string) :
  PyStr.strip s = "pwd" -> unterminated_quote s = false.
Proof.
  intros Hs. unfold unterminated_quote. rewrite quote_scan_plain; [reflexivity|].
  intros c Hc. destruct (strip_chars s c Hc) as [H|H].
  - now apply isspace_plain.
  - rewrite Hs in H. simpl in H.
    destruct H as [<-|[<-|[<-|[]]]]; split; reflexivity.
Qed.

(** ** The loop of main *)

Section MainFacts.

Context {F : Type}.
Variable os : OS F.

Lemma has_nul_head_slash (p : string) :
  has_nul (PosixPath.head_slash p) = true -> has_nul p = true.
Proof.
  induction p as [|c p IH]; simpl; [discriminate|].
  destruct (PosixPath.head_slash p) as [|d h] eqn:E.
  - destruct (Ascii.eqb c "/") eqn:Ec; simpl; [|discriminate].
    rewrite orb_false_r. intros ->. reflexivity.
  - change (has_nul (String c (String d h)) = true ->
            Ascii.eqb c "000" || has_nul p = true).
    simpl. destruct (Ascii.eqb c "000"); [reflexivity|]. simpl. exact IH.
Qed.

Lemma has_nul_rstrip_slash (s : string) :
  has_nul (PosixPath.rstrip_slash s) = true -> has_nul s = true.
Proof.
  induction s as [|c s IH]; simpl; [discriminate|].
  destruct (PosixPath.rstrip_slash s) as [|d h] eqn:E.
  - destruct (Ascii.eqb c "/") eqn:Ec; simpl; [discriminate|].
    rewrite orb_false_r. intros ->. reflexivity.
  - change (has_nul (String c (String d h)) = true ->
            Ascii.eqb c "000" || has_nul s = true).
    simpl. destruct (Ascii.eqb c "000"); [reflexivity|]. simpl. exact IH.
Qed.

(** A NUL in the parent directory of a path is a NUL in the path. *)
Lemma has_nul_dirname (p : string) :
  has_nul (PosixPath.dirname p) = true -> has_nul p = true.
Proof.
  unfold PosixPath.dirname.
  destruct (negb (String.eqb (PosixPath.head_slash p) "")
            && negb (PosixPath.all_slashes (PosixPath.head_slash p))).
  - intros H. apply has_nul_head_slash, has_nul_rstrip_slash, H.
  - apply has_nul_head_slash.
Qed.

(** ensure_dir_exists returns, or ends with the ValueError of a NUL in the
    parent directory; the working directory and the environment stay, and
    all it writes are lines about directories it could not create. *)
Lemma ensure_dir_exists_ends (file_path : string) (w : world F) :
  exists w',
    (ensure_dir_exists os file_path w = (Ret tt, w') \/
     ensure_dir_exists os file_path w = (Raise ValueErrorNull, w') /\
     has_nul (PosixPath.dirname file_path) = true) /\
    environ w' = environ w /\ cwd w' = cwd w /\
    exists msgs, term w' = (term w ++ msgs)%list /\ Forall creation_message msgs.
Proof.
  unfold ensure_dir_exists.
  destruct (negb (String.eqb (PosixPath.dirname file_path) "")
            && negb (path_exists os (fs w) (cwd w) (PosixPath.dirname file_path))).
  - unfold try_except, os_makedirs.
    destruct (makedirs os (fs w) (cwd w) (PosixPath.dirname file_path))
      as [[[e|]|] f] eqn:Em; simpl.
    + eexists. split; [left; reflexivity|]. repeat split.
      eexists. split; [reflexivity|]. constructor; [|constructor].
      exists (PosixPath.dirname file_path), (os_str e). reflexivity.
    + eexists. split; [right; split; [reflexivity|]|].
      * apply (makedirs_null os _ _ _ _ Em).
      * repeat split. exists []. rewrite app_nil_r. split; [reflexivity|constructor].
    + eexists. split; [left; reflexivity|]. repeat split.
      exists []. rewrite app_nil_r. split; [reflexivity|constructor].
  - exists w. split; [left; reflexivity|]. repeat split.
    exists []. rewrite app_nil_r. split; [reflexivity|constructor].
Qed.

Lemma when_set_ensure_ends (target : option string) (w : world F) :
  exists w',
    (when_set target (ensure_dir_exists os) w = (Ret tt, w') \/
     when_set target (ensure_dir_exists os) w = (Raise ValueErrorNull, w') /\
     nul_free target = false) /\
    environ w' = environ w /\ cwd w' = cwd w /\
    exists msgs, term w' = (term w ++ msgs)%list /\ Forall creation_message msgs.
Proof.
  assert (Hnone : exists w',
    ((Ret tt, w) = (Ret tt, w') \/
     (Ret tt, w) = (Raise ValueErrorNull, w') /\ nul_free target = false) /\
    environ w' = environ w /\ cwd w' = cwd w /\
    exists msgs, term w' = (term w ++ msgs)%list /\ Forall creation_message msgs).
  { exists w. split; [left; reflexivity|]. repeat split.
    exists []. rewrite app_nil_r. split; [reflexivity|constructor]. }
  destruct target as [[|c t]|]; try exact Hnone.
  cbn [when_set].
  destruct (ensure_dir_exists_ends (String c t) w) as (w' & [H|[H Hn]] & Hrest).
  - exists w'. split; [left; exact H|exact Hrest].
  - exists w'. split; [right; split; [exact H|]|exact Hrest].
    cbn [nul_free]. rewrite (has_nul_dirname _ Hn). reflexivity.
Qed.

(** Creating the parent directories of both targets. *)
Lemma ensure_dirs_ends (r : redirects) (w : world F) :
  exists w',
    (ensure_dirs os r w = (Ret tt, w') \/
     ensure_dirs os r w = (Raise ValueErrorNull, w') /\
     nul_free (stdout_file r) && nul_free (stderr_file r) = false) /\
    environ w' = environ w /\ cwd w' = cwd w /\
    exists msgs, term w' = (term w ++ msgs)%list /\ Forall creation_message msgs.
Proof.
  unfold ensure_dirs, bind.
  destruct (when_set_ensure_ends (stdout_file r) w)
    as (w1 & [H1|[H1 Hn1]] & He1 & Hc1 & m1 & Ht1 & Hm1); rewrite H1.
  - destruct (when_set_ensure_ends (stderr_file r) w1)
      as (w2 & [H2|[H2 Hn2]] & He2 & Hc2 & m2 & Ht2 & Hm2); rewrite H2;
      exists w2.
    + split; [left; reflexivity|]. repeat split; try congruence.
      exists (m1 ++ m2)%list. rewrite Ht2, Ht1, app_assoc.
      split; [reflexivity|]. apply Forall_app. split; assumption.
    + split; [right; split; [reflexivity|]|].
      * rewrite Hn2. apply andb_false_r.
      * repeat split; try congruence.
        exists (m1 ++ m2)%list. rewrite Ht2, Ht1, app_assoc.
        split; [reflexivity|]. apply Forall_app. split; assumption.
  - exists w1. split; [right; split; [reflexivity|]|].
    + rewrite Hn1. reflexivity.
    + repeat split; try assumption. exists m1. split; assumption.
Qed.

(** With no NUL in the targets the parent directories are seen to without
    an exception. *)
Lemma ensure_dirs_returns (r : redirects) (w : world F) :
  nul_free (stdout_file r) = true -> nul_free (stderr_file r) = true ->
  exists w', ensure_dirs os r w = (Ret tt, w') /\
             environ w' = environ w /\ cwd w' = cwd w.
Proof.
  intros H1 H2.
  destruct (ensure_dirs_ends r w) as (w' & [H|[_ Hn]] & He & Hc & _).
  - exists w'. auto.
  - rewrite H1, H2 in Hn. discriminate.
Qed.

Lemma ensure_dir_exists_returns (file_path : string) (w : world F) :
  has_nul file_path = false ->
  exists w', ensure_dir_exists os file_path w = (Ret tt, w') /\
             environ w' = environ w /\ cwd w' = cwd w.
Proof.
  intros Hn.
  destruct (ensure_dir_exists_ends file_path w) as (w' & [H|[_ Hd]] & He & Hc & _).
  - exists w'. auto.
  - apply has_nul_dirname in Hd. rewrite Hn in Hd. discriminate.
Qed.

Lemma run_kind_tokens_error (k : command_kind) (r : redirects) (w : world F)
    (e : Shlex.error) :
  k <> Pwd ->
  parse_command (cmd r) = inl e ->
  run_kind os k r w = (Raise (ValueError e), w).
Proof.
  intros Hk He.
  destruct k; try contradiction; simpl;
    unfold run_echo, run_type, run_exit, run_cd, run_external, bind, tokens;
    rewrite He; reflexivity.
Qed.

(** C3 (amended): for every input line whose command text ends inside a
    quotation, the tokenizer fails with ValueError "No closing quotation";
    main has no handler for it, so an uncaught ValueError ends main there
    and no later line is read. All that is done for the line comes before
    the tokenizer: the prompt, and ensure_dir_exists on the targets, which
    may create directories, write lines about directories it could not
    create, or end with the ValueError of a NUL in a target. Nothing about
    the quotation is written, and the working directory stays. *)
Theorem unterminated_quote_ends_main (command_str : string) (stdin : list string)
    (w : world F) :
  let r := handle_redirects command_str in
  let done := ensure_dirs os r (add_term w [Out "$ "]) in
  unterminated_quote (cmd r) = true ->
  parse_command (cmd r) = inl Shlex.NoClosingQuotation /\
  main os (command_str :: stdin) w =
    (Uncaught match fst done with
              | Raise e => e
              | _ => ValueError Shlex.NoClosingQuotation
              end,
     snd done) /\
  (fst done = Ret tt \/ fst done = Raise ValueErrorNull) /\
  cwd (snd done) = cwd w /\
  exists msgs, term (snd done) = (term w ++ Out "$ " :: msgs)%list /\
               Forall creation_message msgs.
Proof.
  cbv zeta. intros Hq.
  assert (Hp : parse_command (cmd (handle_redirects command_str))
               = inl Shlex.NoClosingQuotation)
    by (apply parse_command_unterminated; exact Hq).
  split; [exact Hp|].
  assert (Hmain : forall o w1,
            ensure_dirs os (handle_redirects command_str) (add_term w [Out "$ "])
            = (o, w1) ->
            o = Ret tt \/ o = Raise ValueErrorNull ->
            main os (command_str :: stdin) w =
            (Uncaught match o with
                      | Raise e => e
                      | _ => ValueError Shlex.NoClosingQuotation
                      end, w1)).
  { intros o w1 Hd Ho. cbn [main]. unfold stdout_write, emit_tty.
    fold (add_term w [Out "$ "]).
    rewrite run_line_dispatch. unfold bind. rewrite Hd.
    destruct Ho as [-> | ->]; [|reflexivity].
    rewrite (run_kind_tokens_error _ _ _ Shlex.NoClosingQuotation); auto.
    intros Hk. apply classify_cases in Hk.
    apply pwd_not_unterminated in Hk. congruence. }
  destruct (ensure_dirs_ends (handle_redirects command_str) (add_term w [Out "$ "]))
    as (w1 & Hd & _ & Hc & msgs & Ht & Hm).
  assert (Ho : exists o, ensure_dirs os (handle_redirects command_str)
                           (add_term w [Out "$ "]) = (o, w1) /\
                         (o = Ret tt \/ o = Raise ValueErrorNull)).
  { destruct Hd as [Hd|[Hd _]]; eexists; split; eauto. }
  destruct Ho as (o & Hd' & Ho).
  rewrite Hd'. cbn [fst snd].
  split; [apply Hmain; assumption|].
  split; [exact Ho|]. split; [exact Hc|].
  exists msgs. split; [|exact Hm].
  rewrite Ht. unfold add_term. cbn [term]. rewrite <- app_assoc. reflexivity.
Qed.

End MainFacts.

(** C3: the line [echo 'abc] has an unterminated quote; main ends with the
    uncaught ValueError, the next line is never run and no second prompt is
    written. *)
Lemma unterminated_quote_no_next_prompt :
  main Toy.os ["echo 'abc"; "echo hi"] Toy.w0 =
    (Uncaught (ValueError Shlex.NoClosingQuotation), add_term Toy.w0 [Out "$ "]) /\
  main Toy.os ["echo hi"] Toy.w0 =
    (EndOfInput, add_term Toy.w0 [Out "$ "; Out ("hi" ++ nl); Out "$ "]).
Proof. vm_compute. split; reflexivity. Qed.

(** The same on a line with a redirection into a directory that cannot be
    created: the command text of [echo 'abc > /root/sub/out.txt] is
    [echo 'abc], and the line about /root/sub is all that is written. *)
Lemma unterminated_quote_after_creation_message :
  main Toy.os ["echo 'abc > /root/sub/out.txt"; "echo hi"] Toy.w0 =
    (Uncaught (ValueError Shlex.NoClosingQuotation),
     add_term Toy.w0
       [Out "$ ";
        Out ("Error creating directory /root/sub: Permission denied" ++ nl)]).
Proof. vm_compute. reflexivity. Qed.

Lemma unterminated_quote_ends_main_witness :
  let r := handle_redirects "echo 'abc > /root/sub/out.txt" in
  let done := ensure_dirs Toy.os r (add_term Toy.w0 [Out "$ "]) in
  parse_command (cmd r) = inl Shlex.NoClosingQuotation /\
  main Toy.os ["echo 'abc > /root/sub/out.txt"; "echo hi"] Toy.w0 =
    (Uncaught match fst done with
              | Raise e => e
              | _ => ValueError Shlex.NoClosingQuotation
              end,
     snd done) /\
  (fst done = Ret tt \/ fst done = Raise ValueErrorNull) /\
  cwd (snd done) = cwd Toy.w0 /\
  exists msgs, term (snd done) = (term Toy.w0 ++ Out "$ " :: msgs)%list /\
               Forall creation_message msgs.
Proof.
  apply (unterminated_quote_ends_main Toy.os "echo 'abc > /root/sub/out.txt"
           ["echo hi"] Toy.w0).
  vm_compute. reflexivity.
Defined.

(** ** The echo and cd builtins *)

Section BuiltinFacts.

Context {F : Type}.
Variable os : OS F.

Lemma echo_output (args : list string) :
  (if (1 <? List.length args)%nat then PyStr.join " " (tl args) else "") =
  PyStr.join " " (tl args).
Proof. destruct args as [|a [|b args]]; reflexivity. Qed.

(** A target that was opened holds no NUL. *)
Lemma opened_nul_free (target : option string) (f f0 : F) (c : string)
    (a : bool) (text : string) :
  fst match target with
      | Some (String c0 t) => write_file os f c (String c0 t) a text
      | _ => (None, f0)
      end = None ->
  nul_free target = true.
Proof.
  destruct target as [[|c0 t]|]; try reflexivity.
  destruct (write_file os f c (String c0 t) a text) as [e f'] eqn:E.
  intros H. simpl in H. subst e. apply negb_true_iff.
  apply (write_file_null os _ _ _ _ _ _ E).
Qed.

(** C8 (amended): for every echo command line whose command text the
    tokenizer splits into argv and whose target files can be opened, the
    text is argv[1:] joined by single spaces; a stderr target is opened in
    its mode (append or truncate) and nothing is written to it; then the
    text and a newline are written to the stdout target in its mode, or to
    the terminal when there is none; and the line ends normally. *)
Theorem echo_writes_joined_args (command_str : string) (w : world F)
    (args : list string) :
  let r := handle_redirects command_str in
  let w1 := snd (ensure_dirs os r w) in
  let output := PyStr.join " " (tl args) in
  let touched :=
    match stderr_file r with
    | Some (String c t) =>
        write_file os (fs w1) (cwd w1) (String c t) (append_stderr r) ""
    | _ => (None, fs w1)
    end in
  let written :=
    match stdout_file r with
    | Some (String c t) =>
        write_file os (snd touched) (cwd w1) (String c t) (append_stdout r)
                   (output ++ nl)
    | _ => (None, snd touched)
    end in
  PyStr.startswith (PyStr.strip (cmd r)) "echo " = true ->
  parse_command (cmd r) = inr args ->
  fst touched = None ->
  fst written = None ->
  run_line os command_str w =
    (Ret tt,
     set_fs (add_term w1 (if PyStr.truthy (stdout_file r) then []
                          else [Out (output ++ nl)]))
            (snd written)).
Proof.
  cbv zeta. unfold nl. intros Hecho Hargs Htouch Hwrite.
  rewrite run_line_dispatch. cbv zeta.
  apply classify_cases in Hecho. rewrite Hecho. unfold bind.
  pose proof (opened_nul_free _ _ _ _ _ _ Htouch) as Hn2.
  pose proof (opened_nul_free _ _ _ _ _ _ Hwrite) as Hn1.
  destruct (ensure_dirs_returns os (handle_redirects command_str) w Hn1 Hn2)
    as (w1 & Hd & _ & _).
  rewrite Hd in *. simpl in *.
  unfold run_echo, bind, tokens. rewrite Hargs. unfold ret at 1.
  rewrite echo_output.
  destruct (stderr_file (handle_redirects command_str)) as [[|c t]|];
    destruct (stdout_file (handle_redirects command_str)) as [[|c' t']|];
    simpl in *; unfold open_write, print, emit_tty, set_fs, add_term, ret in *;
    simpl in *;
    repeat match goal with
      | H : fst ?x = None |- _ =>
          let e := fresh "e" in let f := fresh "f" in
          destruct x as [e f] eqn:?; simpl in H; subst e
      end;
    simpl in *;
    repeat match goal with
      | H : negb _ = true |- _ => apply negb_true_iff in H
      end;
    repeat (simpl;
            match goal with
            | H : _ = false |- _ => rewrite H
            | H : write_file _ _ _ _ _ _ = _ |- _ => rewrite H
            end);
    simpl; rewrite ?app_nil_r; reflexivity.
Qed.

(** C9 (amended): for every cd command whose os.chdir fails as not found,
    not a directory or permission denied, and whose stderr target, when
    there is one, can be opened: the one message of that failure, for the
    directory after [~] expansion, and a newline are written to the stderr
    target in its mode, or to the terminal when there is none; the working
    directory stays as it was; and the loop goes on to the next line. The
    exceptions are a NUL in the path: in a stdout target, where creating its
    parent directory can end with a ValueError before cd runs, and in the
    directory itself, which os.chdir rejects with a ValueError; nothing
    catches either, and main ends. *)
Theorem cd_failure_message (command_str : string) (stdin : list string)
    (w : world F) (a0 d0 : string) (rest : list string) (e : oserror)
    (error_msg : string) :
  let r := handle_redirects command_str in
  let w1 := snd (ensure_dirs os r (add_term w [Out "$ "])) in
  let directory := expand_home w d0 in
  let written :=
    match stderr_file r with
    | Some (String c t) =>
        write_file os (fs w1) (cwd w1) (String c t) (append_stderr r)
                   (error_msg ++ nl)
    | _ => (None, fs w1)
    end in
  let w2 := set_fs (add_term w1 (if PyStr.truthy (stderr_file r) then []
                                 else [Out (error_msg ++ nl)]))
                   (snd written) in
  classify (PyStr.strip (cmd r)) = Cd ->
  parse_command (cmd r) = inr (a0 :: d0 :: rest) ->
  chdir os (fs w1) (cwd w1) directory = inl e ->
  cd_message directory (os_kind e) = Some error_msg ->
  fst written = None ->
  main os (command_str :: stdin) w =
    match fst (ensure_dirs os r (add_term w [Out "$ "])) with
    | Ret _ =>
        if has_nul directory then (Uncaught ValueErrorNull, w1)
        else main os stdin w2
    | Raise e0 => (Uncaught e0, w1)
    | SysExit code => (Exited code, w1)
    end /\
  (fst (ensure_dirs os r (add_term w [Out "$ "])) = Ret tt \/
   fst (ensure_dirs os r (add_term w [Out "$ "])) = Raise ValueErrorNull /\
   nul_free (stdout_file r) = false) /\
  cwd w2 = cwd w /\
  (error_msg = "cd: " ++ directory ++ ": No such file or directory" \/
   error_msg = "cd: " ++ directory ++ ": Not a directory" \/
   error_msg = "cd: " ++ directory ++ ": Permission denied").
Proof.
  cbv zeta. unfold nl. intros Hcd Hargs Hch Hmsg Hwrite.
  pose proof (opened_nul_free _ _ _ _ _ _ Hwrite) as Hn2.
  destruct (ensure_dirs_ends os (handle_redirects command_str)
              (add_term w [Out "$ "])) as (w1 & Hd & He & Hc & _).
  assert (Hmain : forall o,
            ensure_dirs os (handle_redirects command_str) (add_term w [Out "$ "])
            = (o, w1) ->
            main os (command_str :: stdin) w =
            match run_kind os Cd (handle_redirects command_str) w1 with
            | (Ret _, w2) =>
                match o with
                | Ret _ => main os stdin w2
                | Raise e0 => (Uncaught e0, w1)
                | SysExit code => (Exited code, w1)
                end
            | (SysExit code, w2) =>
                match o with
                | Ret _ => (Exited code, w2)
                | Raise e0 => (Uncaught e0, w1)
                | SysExit code' => (Exited code', w1)
                end
            | (Raise e1, w2) =>
                match o with
                | Ret _ => (Uncaught e1, w2)
                | Raise e0 => (Uncaught e0, w1)
                | SysExit code' => (Exited code', w1)
                end
            end).
  { intros o Ho. cbn [main]. unfold stdout_write, emit_tty.
    fold (add_term w [Out "$ "]).
    rewrite run_line_dispatch. cbv zeta. rewrite Hcd. unfold bind. rewrite Ho.
    destruct o as [[]|e0|code];
      destruct (run_kind os Cd (handle_redirects command_str) w1)
        as [[[]|e1|code1] w2']; reflexivity. }
  assert (Hrun : run_kind os Cd (handle_redirects command_str) w1 =
            (if has_nul (expand_home w d0) then (Raise ValueErrorNull, w1) else
            (Ret tt,
             set_fs (add_term w1
                       (if PyStr.truthy (stderr_file (handle_redirects command_str))
                        then []
                        else [Out (error_msg ++ String PyStr.newline "")]))
                    (snd match stderr_file (handle_redirects command_str) with
                         | Some (String c t) =>
                             write_file os (fs w1) (cwd w1) (String c t)
                               (append_stderr (handle_redirects command_str))
                               (error_msg ++ String PyStr.newline "")
                         | _ => (None, fs w1)
                         end))) /\
            chdir os (fs w1) (cwd w1) (expand_home w d0) = inl e).
  { assert (Hsnd : snd (ensure_dirs os (handle_redirects command_str)
                          (add_term w [Out "$ "])) = w1).
    { destruct Hd as [Hd|[Hd _]]; rewrite Hd; reflexivity. }
    rewrite Hsnd in Hch, Hwrite. split; [|exact Hch].
    simpl. unfold run_cd, bind, tokens. rewrite Hargs. unfold ret at 1.
    replace (expand_home w1 d0) with (expand_home w d0)
      by (unfold expand_home; rewrite He; reflexivity).
    unfold try_except, os_chdir.
    destruct (has_nul (expand_home w d0)); [reflexivity|].
    rewrite Hch, Hmsg.
    destruct (stderr_file (handle_redirects command_str)) as [[|c t]|];
      simpl in *; unfold open_write, print, emit_tty, set_fs, add_term in *;
      simpl in *;
      repeat match goal with
        | H : fst ?x = None |- _ =>
            let e := fresh "e" in let f := fresh "f" in
            destruct x as [e f] eqn:?; simpl in H; subst e
        end;
      repeat match goal with
        | H : negb _ = true |- _ => apply negb_true_iff in H; rewrite H
        end;
      simpl; rewrite ?app_nil_r; reflexivity. }
  destruct Hrun as [Hrun _].
  assert (Hsnd : snd (ensure_dirs os (handle_redirects command_str)
                        (add_term w [Out "$ "])) = w1).
  { destruct Hd as [Hd|[Hd _]]; rewrite Hd; reflexivity. }
  rewrite Hsnd.
  split; [|split; [|split]].
  - destruct Hd as [Hd|[Hd _]]; rewrite (Hmain _ Hd), Hrun, Hd;
      destruct (has_nul (expand_home w d0)); reflexivity.
  - destruct Hd as [Hd|[Hd Hn]]; rewrite Hd; [left; reflexivity|right].
    split; [reflexivity|]. rewrite Hn2, andb_true_r in Hn. exact Hn.
  - exact Hc.
  - destruct (os_kind e); simpl in Hmsg; inversion Hmsg; auto.
Qed.

End BuiltinFacts.

(** C8: the line [echo 'hi > out.txt] is an echo command line, yet nothing
    is written, neither to out.txt nor to the terminal: the tokenizer
    raises and the line ends with the ValueError. *)
Lemma echo_unterminated_writes_nothing :
  let r := handle_redirects "echo 'hi > out.txt" in
  PyStr.startswith (PyStr.strip (cmd r)) "echo " = true /\
  stdout_file r = Some "out.txt" /\
  run_line Toy.os "echo 'hi > out.txt" Toy.w0 =
    (Raise (ValueError Shlex.NoClosingQuotation), Toy.w0).
Proof. vm_compute. repeat split; reflexivity. Qed.

(** An echo line whose stderr target cannot be opened stops before its
    stdout target is written. *)
Lemma echo_unopenable_stderr_target :
  run_line Toy.os "echo hi > out.txt 2> /" Toy.w0 =
    (Raise (OSError (Toy.err OtherOSError "Is a directory")), Toy.w0).
Proof. vm_compute. reflexivity. Qed.

(** The line [echo  hello   world > out.txt 2>> err.txt] leaves
    [hello world] and a newline in out.txt and an empty err.txt. *)
Lemma echo_writes_joined_args_witness :
  run_line Toy.os "echo  hello   world > out.txt 2>> err.txt" Toy.w0 =
    (Ret tt,
     set_fs Toy.w0
       {| Toy.dirs := Toy.dirs Toy.disk; Toy.locked := Toy.locked Toy.disk;
          Toy.execs := Toy.execs Toy.disk;
          Toy.contents := [("out.txt", "hello world" ++ nl); ("err.txt", "")] |}).
Proof.
  apply (echo_writes_joined_args Toy.os
           "echo  hello   world > out.txt 2>> err.txt" Toy.w0
           ["echo"; "hello"; "world"]).
  - vm_compute. reflexivity.
  - vm_compute. reflexivity.
  - vm_compute. reflexivity.
  - vm_compute. reflexivity.
Defined.

(** C9: the line [cd /nope 2> /] names a missing directory, and its stderr
    target is a directory; no message is written anywhere and main ends
    with the uncaught error of the open: the next line is never run. *)
Lemma cd_unopenable_stderr_target :
  main Toy.os ["cd /nope 2> /"; "pwd"] Toy.w0 =
    (Uncaught (OSError (Toy.err OtherOSError "Is a directory")),
     add_term Toy.w0 [Out "$ "]).
Proof. vm_compute. reflexivity. Qed.

(** The line [cd /nope 2> err.txt] leaves the message in err.txt, the
    working directory at /home, and the loop goes on with [pwd]. *)
Lemma cd_failure_message_witness :
  let w2 :=
    set_fs (add_term Toy.w0 [Out "$ "])
      {| Toy.dirs := Toy.dirs Toy.disk; Toy.locked := Toy.locked Toy.disk;
         Toy.execs := Toy.execs Toy.disk;
         Toy.contents :=
           [("err.txt", "cd: /nope: No such file or directory" ++ nl)] |} in
  main Toy.os ["cd /nope 2> err.txt"; "pwd"] Toy.w0 =
    main Toy.os ["pwd"] w2 /\
  (fst (ensure_dirs Toy.os (handle_redirects "cd /nope 2> err.txt")
          (add_term Toy.w0 [Out "$ "])) = Ret tt \/
   fst (ensure_dirs Toy.os (handle_redirects "cd /nope 2> err.txt")
          (add_term Toy.w0 [Out "$ "])) = Raise ValueErrorNull /\
   nul_free (stdout_file (handle_redirects "cd /nope 2> err.txt")) = false) /\
  cwd w2 = "/home" /\
  ("cd: /nope: No such file or directory" =
     "cd: " ++ "/nope" ++ ": No such file or directory" \/
   "cd: /nope: No such file or directory" = "cd: " ++ "/nope" ++ ": Not a directory" \/
   "cd: /nope: No such file or directory" =
     "cd: " ++ "/nope" ++ ": Permission denied").
Proof.
  apply (cd_failure_message Toy.os "cd /nope 2> err.txt" ["pwd"] Toy.w0
           "cd" "/nope" []
           (Toy.err FileNotFoundError "No such file or directory")
           "cd: /nope: No such file or directory").
  - vm_compute. reflexivity.
  - vm_compute. reflexivity.
  - vm_compute. reflexivity.
  - vm_compute. reflexivity.
  - vm_compute. reflexivity.
Defined.

(* ================================================================== *)
(** * Further properties of the program *)

(** ** Strings *)

Lemma append_nil_r (s : string) : s ++ "" = s.
Proof. induction s as [|c s IH]; simpl; congruence. Qed.

Lemma append_assoc (a b c : string) : (a ++ b) ++ c = a ++ b ++ c.
Proof. induction a as [|x a IH]; simpl; congruence. Qed.

Lemma all_chars_app (p : ascii -> bool) (a b : string) :
  all_chars p (a ++ b) = all_chars p a && all_chars p b.
Proof.
  induction a as [|c a IH]; simpl; [reflexivity|].
  rewrite IH. apply andb_assoc.
Qed.

Lemma all_chars_weaken (p q : ascii -> bool) (s : string) :
  (forall c, p c = true -> q c = true) ->
  all_chars p s = true -> all_chars q s = true.
Proof.
  intros Hpq. induction s as [|c s IH]; simpl; [reflexivity|].
  rewrite !andb_true_iff. intros [Hc Hs]. auto.
Qed.

Lemma whitespace_isspace (c : ascii) :
  Shlex.is_whitespace c = true -> PyStr.isspace c = true.
Proof.
  unfold Shlex.is_whitespace. rewrite !orb_true_iff.
  intros [[[H|H]|H]|H]; apply Ascii.eqb_eq in H; subst; reflexivity.
Qed.

Lemma isspace_not_gt (c : ascii) : PyStr.isspace c = true -> not_gt c = true.
Proof.
  destruct c as [[] [] [] [] [] [] [] []]; vm_compute; intuition discriminate.
Qed.

Lemma plain_facts (c : ascii) :
  plain c = true ->
  PyStr.isspace c = false /\ Shlex.is_whitespace c = false /\
  Shlex.is_quote c = false /\ Shlex.is_escape c = false /\ not_gt c = true.
Proof.
  unfold plain. rewrite !andb_true_iff, !negb_true_iff.
  intros (((Hs & Hq) & He) & Hg). repeat split; auto.
  destruct (Shlex.is_whitespace c) eqn:E; [|reflexivity].
  apply whitespace_isspace in E. congruence.
Qed.

Lemma plain_word_facts (w : string) :
  plain_word w = true ->
  exists c w', w = String c w' /\ plain c = true /\ all_chars plain w' = true.
Proof.
  unfold plain_word. destruct w as [|c w']; simpl; [discriminate|].
  rewrite andb_true_iff. intros [Hc Hw]. eauto.
Qed.

Lemma gap_facts (ws : string) :
  gap ws = true ->
  exists c ws', ws = String c ws' /\ Shlex.is_whitespace c = true /\ blank ws' = true.
Proof.
  unfold gap, blank. destruct ws as [|c ws']; simpl; [discriminate|].
  rewrite andb_true_iff. intros [Hc Hw]. eauto.
Qed.

(** ** handle_redirects on a line without [>] *)

Section NoOperator.

Variable c : ascii.

Let free (s : string) : bool := all_chars (fun x => negb (Ascii.eqb x c)) s.

Lemma rep_fails (k : Re.cls) (g : bool) (kont : Re.cont) (s : string) :
  forall lo hi pos cs,
    (forall s' p cs', free s' = true -> kont s' p cs' = None) ->
    free s = true ->
    Re.rep k lo hi g s pos cs kont = None.
Proof.
  induction s as [|a s IH]; intros lo hi pos cs Hk Hs.
  - destruct lo; simpl; [|reflexivity].
    destruct g; rewrite (Hk "" pos cs eq_refl); reflexivity.
  - assert (Hs' : free s = true)
      by (unfold free in *; simpl in Hs; apply andb_true_iff in Hs; tauto).
    destruct lo; simpl.
    + destruct g.
      * destruct (Re.cls_match k a && Re.hi_allows hi);
          [rewrite IH by assumption|]; apply Hk; assumption.
      * rewrite (Hk _ pos cs Hs).
        destruct (Re.cls_match k a && Re.hi_allows hi); [|reflexivity].
        apply IH; assumption.
    + destruct (Re.cls_match k a); [|reflexivity]. apply IH; assumption.
Qed.

(** A pattern only ever answers through its continuation, on a suffix. *)
Lemma rmatch_fails (r : Re.regex) :
  forall (kont : Re.cont) s pos cs,
    (forall s' p cs', free s' = true -> kont s' p cs' = None) ->
    free s = true ->
    Re.rmatch r s pos cs kont = None.
Proof.
  induction r as [k|k lo hi g|r1 IH1 r2 IH2|r1 IH1 r2 IH2|n r1 IH1| |];
    intros kont s pos cs Hk Hs; simpl.
  - destruct s as [|a s]; [reflexivity|].
    destruct (Re.cls_match k a); [|reflexivity].
    apply Hk. unfold free in *. simpl in Hs. apply andb_true_iff in Hs. tauto.
  - apply rep_fails; assumption.
  - apply IH1; [|assumption]. intros s' p cs' Hs'. apply IH2; assumption.
  - rewrite IH1 by assumption. apply IH2; assumption.
  - apply IH1; [|assumption]. intros s' p cs' Hs'. apply Hk. assumption.
  - destruct (Re.at_eol s); [apply Hk; assumption|reflexivity].
  - apply Hk; assumption.
Qed.

Lemma rmatch_needs (r : Re.regex) :
  forall (kont : Re.cont) s pos cs,
    needs c r = true -> free s = true -> Re.rmatch r s pos cs kont = None.
Proof.
  induction r as [k|k lo hi g|r1 IH1 r2 IH2|r1 IH1 r2 IH2|n r1 IH1| |];
    intros kont s pos cs Hn Hs; simpl in *; try discriminate.
  - destruct k as [| |d]; try discriminate.
    destruct s as [|a s]; [reflexivity|]. simpl.
    unfold free in Hs. simpl in Hs. apply andb_true_iff in Hs.
    destruct Hs as [Ha _]. apply Ascii.eqb_eq in Hn. subst d.
    apply negb_true_iff in Ha. rewrite Ha. reflexivity.
  - apply orb_true_iff in Hn. destruct Hn as [Hn|Hn].
    + apply IH1; assumption.
    + apply rmatch_fails; [|assumption].
      intros s' p cs' Hs'. apply IH2; assumption.
  - apply andb_true_iff in Hn. destruct Hn as [Hn1 Hn2].
    rewrite IH1 by assumption. apply IH2; assumption.
  - apply IH1; assumption.
Qed.

Lemma search_from_needs (r : Re.regex) (whole : string) (s : string) :
  forall pos,
    needs c r = true -> free s = true -> Re.search_from r whole s pos = None.
Proof.
  induction s as [|a s IH]; intros pos Hn Hs; simpl.
  - rewrite rmatch_needs by assumption. reflexivity.
  - rewrite rmatch_needs by assumption. apply IH; [assumption|].
    unfold free in *. simpl in Hs. apply andb_true_iff in Hs. tauto.
Qed.

Lemma search_needs (pattern s : string) :
  pattern_needs c pattern = true -> free s = true -> Re.search pattern s = None.
Proof.
  unfold pattern_needs, Re.search, Re.search_regex.
  destruct (Re.compile pattern) as [r|]; [|reflexivity].
  apply search_from_needs.
Qed.

End NoOperator.

Lemma handle_redirects_plain (line : string) :
  all_chars not_gt line = true -> handle_redirects line = no_redirect line.
Proof.
  intros H. unfold handle_redirects.
  rewrite !(search_needs ">"%char) by (exact H || reflexivity).
  reflexivity.
Qed.

(** X1: a line that holds no [>] character has no redirection: the command
    text is the whole line, there is no stdout and no stderr target, and
    both append flags are off. *)
Theorem handle_redirects_no_operator (line : string) :
  all_chars not_gt line = true ->
  handle_redirects line =
  {| cmd := line; stdout_file := None; stderr_file := None;
     append_stdout := false; append_stderr := false |}.
Proof. apply handle_redirects_plain. Qed.

(** The line [echo  'a b'  2 1] holds digits and quotes but no [>]. *)
Lemma handle_redirects_no_operator_witness :
  handle_redirects "echo  'a b'  2 1" =
  {| cmd := "echo  'a b'  2 1"; stdout_file := None; stderr_file := None;
     append_stdout := false; append_stderr := false |}.
Proof.
  apply (handle_redirects_no_operator "echo  'a b'  2 1"). reflexivity.
Defined.

(** ** The tokenizer on plain words *)

Lemma lex_blank (b rest : string) (esc : Shlex.mode) (acc : list string) :
  blank b = true ->
  Shlex.lex Shlex.Ws esc false "" (b ++ rest) acc =
  Shlex.lex Shlex.Ws esc false "" rest acc.
Proof.
  unfold blank. induction b as [|c b IH]; simpl; [reflexivity|].
  rewrite andb_true_iff. intros [Hc Hb]. rewrite Hc. simpl. auto.
Qed.

Lemma lex_word_chars (w rest : string) :
  forall token esc acc,
    all_chars plain w = true ->
    Shlex.lex Shlex.Word esc false token (w ++ rest) acc =
    Shlex.lex Shlex.Word esc false (token ++ w) rest acc.
Proof.
  induction w as [|c w IH]; intros token esc acc Hw; simpl.
  - rewrite append_nil_r. reflexivity.
  - simpl in Hw. apply andb_true_iff in Hw. destruct Hw as [Hc Hw].
    destruct (plain_facts c Hc) as (_ & -> & -> & -> & _).
    rewrite IH by assumption. unfold Shlex.snoc.
    rewrite append_assoc. reflexivity.
Qed.

Lemma lex_word_start (w rest : string) (esc : Shlex.mode) (acc : list string) :
  plain_word w = true ->
  Shlex.lex Shlex.Ws esc false "" (w ++ rest) acc =
  Shlex.lex Shlex.Word esc false w rest acc.
Proof.
  intros Hw. destruct (plain_word_facts w Hw) as (c & w' & -> & Hc & Hw').
  simpl. destruct (plain_facts c Hc) as (_ & -> & -> & -> & _).
  rewrite lex_word_chars by assumption. reflexivity.
Qed.

Lemma lex_word_gap (token ws rest : string) (esc : Shlex.mode)
    (acc : list string) :
  token <> "" -> gap ws = true ->
  Shlex.lex Shlex.Word esc false token (ws ++ rest) acc =
  Shlex.lex Shlex.Ws Shlex.Ws false "" rest (acc ++ [token])%list.
Proof.
  intros Ht Hg. destruct (gap_facts ws Hg) as (c & ws' & -> & Hc & Hb).
  simpl. rewrite Hc.
  apply String.eqb_neq in Ht. rewrite Ht. simpl.
  rewrite emit_continue by (rewrite Ht; reflexivity).
  apply lex_blank. exact Hb.
Qed.

Lemma lex_word_tail (token tail : string) (esc : Shlex.mode) (acc : list string) :
  token <> "" -> blank tail = true ->
  Shlex.lex Shlex.Word esc false token tail acc = inr (acc ++ [token])%list.
Proof.
  intros Ht Hb. destruct tail as [|c tail].
  - simpl. rewrite emit_continue; [reflexivity|].
    apply String.eqb_neq in Ht. rewrite Ht. reflexivity.
  - rewrite <- (append_nil_r (String c tail)).
    rewrite lex_word_gap; [reflexivity|assumption|exact Hb].
Qed.

Lemma plain_word_nonempty (w : string) : plain_word w = true -> w <> "".
Proof. intros H. destruct (plain_word_facts w H) as (c & w' & -> & _). discriminate. Qed.

Lemma lex_spaced (pieces : list (string * string)) (tail : string) :
  forall token esc acc,
    token <> "" -> pieces_ok pieces = true -> blank tail = true ->
    Shlex.lex Shlex.Word esc false token (spaced pieces tail) acc =
    inr (acc ++ token :: map snd pieces)%list.
Proof.
  induction pieces as [|[ws w] pieces IH]; intros token esc acc Ht Hp Hb; simpl.
  - apply lex_word_tail; assumption.
  - simpl in Hp. rewrite !andb_true_iff in Hp. destruct Hp as [[Hg Hw] Hp].
    rewrite lex_word_gap by assumption.
    rewrite lex_word_start by assumption.
    rewrite IH by (auto using plain_word_nonempty).
    rewrite <- app_assoc. reflexivity.
Qed.

Lemma parse_spaced (lead w0 : string) (pieces : list (string * string))
    (tail : string) :
  blank lead = true -> plain_word w0 = true -> pieces_ok pieces = true ->
  blank tail = true ->
  parse_command (lead ++ w0 ++ spaced pieces tail) = inr (w0 :: map snd pieces).
Proof.
  intros Hl Hw Hp Ht. unfold parse_command, Shlex.split.
  rewrite lex_blank by assumption.
  rewrite lex_word_start by assumption.
  rewrite lex_spaced by (auto using plain_word_nonempty).
  reflexivity.
Qed.

(** X2: on words of plain characters (no white space, quotes, backslash
    or [>]) separated by any non-empty runs of spaces, tabs, CR and LF,
    with any such run before and after, the tokenizer returns exactly the
    words, in order: the amount of white space between them is lost. *)
Theorem parse_command_spaced_words (lead w0 : string)
    (pieces : list (string * string)) (tail : string) :
  blank lead = true -> plain_word w0 = true -> pieces_ok pieces = true ->
  blank tail = true ->
  parse_command (lead ++ w0 ++ spaced pieces tail) = inr (w0 :: map snd pieces).
Proof. apply parse_spaced. Qed.

(** Two spaces, then echo, hello and world with two and three spaces
    between them, and a trailing space. *)
Lemma parse_command_spaced_words_witness :
  parse_command ("  " ++ "echo" ++ spaced [("  ", "hello"); ("   ", "world")] " ")
  = inr ("echo" :: map snd [("  ", "hello"); ("   ", "world")]).
Proof.
  apply (parse_command_spaced_words "  " "echo"
           [("  ", "hello"); ("   ", "world")] " "); reflexivity.
Defined.

(** X3: a text without quote and backslash characters never makes the
    tokenizer fail; a text fails exactly when it ends inside a quotation
    or right after an escaping backslash. *)
Theorem parse_command_failures (s : string) :
  (parse_command s = inl Shlex.NoClosingQuotation <->
   exists q, quote_scan Outside s = Inside q) /\
  (parse_command s = inl Shlex.NoEscapedCharacter <->
   exists back, quote_scan Outside s = Escaped back) /\
  ((exists toks, parse_command s = inr toks) <-> quote_scan Outside s = Outside) /\
  (all_chars (fun c => negb (Shlex.is_quote c) && negb (Shlex.is_escape c)) s = true
   -> exists toks, parse_command s = inr toks).
Proof.
  unfold parse_command, Shlex.split.
  pose proof (lex_quote_scan s Shlex.Ws Shlex.Ws false "" [] I) as H.
  simpl in H.
  assert (Hplain :
    all_chars (fun c => negb (Shlex.is_quote c) && negb (Shlex.is_escape c)) s = true
    -> quote_scan Outside s = Outside).
  { clear H. induction s as [|a s IH]; simpl; [reflexivity|].
    rewrite !andb_true_iff, !negb_true_iff. intros [[-> ->] Hs]. auto. }
  destruct (quote_scan Outside s) as [|q|back]; simpl in H.
  - destruct H as [toks H]. rewrite H. repeat split; try discriminate;
      try (intros [? ?]; discriminate); eauto.
  - rewrite H. repeat split; try discriminate; eauto;
      try (intros [? ?]; discriminate).
    intros Hp. specialize (Hplain Hp). discriminate.
  - rewrite H. repeat split; try discriminate; eauto;
      try (intros [? ?]; discriminate).
    intros Hp. specialize (Hplain Hp). discriminate.
Qed.

(** ** strip on lines of words *)

Lemma lstrip_app_space (a x : string) :
  all_chars PyStr.isspace a = true -> PyStr.lstrip (a ++ x) = PyStr.lstrip x.
Proof.
  induction a as [|c a IH]; simpl; [reflexivity|].
  rewrite andb_true_iff. intros [-> Ha]. auto.
Qed.

Lemma rstrip_app_nonempty (a b : string) :
  PyStr.rstrip b <> "" -> PyStr.rstrip (a ++ b) = a ++ PyStr.rstrip b.
Proof.
  intros Hb. induction a as [|c a IH]; simpl; [reflexivity|].
  rewrite IH. destruct (a ++ PyStr.rstrip b) eqn:E; [|reflexivity].
  destruct a; simpl in E; [contradiction|discriminate].
Qed.

Lemma rstrip_app_empty (a b : string) :
  PyStr.rstrip b = "" -> PyStr.rstrip (a ++ b) = PyStr.rstrip a.
Proof.
  intros Hb. induction a as [|c a IH]; simpl; [assumption|].
  rewrite IH. reflexivity.
Qed.

Lemma rstrip_space (s : string) :
  all_chars PyStr.isspace s = true -> PyStr.rstrip s = "".
Proof.
  induction s as [|c s IH]; simpl; [reflexivity|].
  rewrite andb_true_iff. intros [Hc Hs]. rewrite IH, Hc by assumption. reflexivity.
Qed.

Lemma rstrip_word (w : string) :
  all_chars plain w = true -> PyStr.rstrip w = w.
Proof.
  induction w as [|c w IH]; simpl; [reflexivity|].
  rewrite andb_true_iff. intros [Hc Hw]. rewrite IH by assumption.
  destruct (plain_facts c Hc) as (-> & _). destruct w; reflexivity.
Qed.

Lemma blank_space (s : string) :
  blank s = true -> all_chars PyStr.isspace s = true.
Proof. apply all_chars_weaken. apply whitespace_isspace. Qed.

Lemma rstrip_spaced (pieces : list (string * string)) (tail : string) :
  forall w0,
    plain_word w0 = true -> pieces_ok pieces = true -> blank tail = true ->
    PyStr.rstrip (w0 ++ spaced pieces tail) = w0 ++ spaced pieces "".
Proof.
  induction pieces as [|[ws w] pieces IH]; intros w0 Hw Hp Ht; simpl.
  - rewrite rstrip_app_empty by (apply rstrip_space, blank_space, Ht).
    rewrite append_nil_r. apply rstrip_word.
    unfold plain_word in Hw. apply andb_true_iff in Hw. tauto.
  - simpl in Hp. rewrite !andb_true_iff in Hp. destruct Hp as [[Hg Hw1] Hp].
    rewrite <- (append_assoc w0 ws (w ++ spaced pieces tail)).
    rewrite <- (append_assoc w0 ws (w ++ spaced pieces "")).
    rewrite rstrip_app_nonempty; rewrite IH by assumption; [reflexivity|].
    destruct (plain_word_facts w Hw1) as (c & w' & -> & _). discriminate.
Qed.

(** The trimmed text of a line of words: the words with their gaps. *)
Lemma strip_spaced (lead w0 : string) (pieces : list (string * string))
    (tail : string) :
  blank lead = true -> plain_word w0 = true -> pieces_ok pieces = true ->
  blank tail = true ->
  PyStr.strip (lead ++ w0 ++ spaced pieces tail) = w0 ++ spaced pieces "".
Proof.
  intros Hl Hw Hp Ht. unfold PyStr.strip.
  rewrite lstrip_app_space by (apply blank_space, Hl).
  destruct (plain_word_facts w0 Hw) as (c & w' & E & Hc & Hw').
  replace (PyStr.lstrip (w0 ++ spaced pieces tail)) with (w0 ++ spaced pieces tail).
  - apply rstrip_spaced; assumption.
  - subst w0. simpl. destruct (plain_facts c Hc) as (-> & _). reflexivity.
Qed.

Lemma not_gt_blank (s : string) : blank s = true -> all_chars not_gt s = true.
Proof.
  apply all_chars_weaken. intros c Hc. apply isspace_not_gt, whitespace_isspace, Hc.
Qed.

Lemma not_gt_word (w : string) : plain_word w = true -> all_chars not_gt w = true.
Proof.
  unfold plain_word. rewrite andb_true_iff. intros [_ H]. revert H.
  apply all_chars_weaken. intros c Hc. apply plain_facts in Hc. tauto.
Qed.

Lemma not_gt_spaced (pieces : list (string * string)) (tail : string) :
  pieces_ok pieces = true -> blank tail = true ->
  all_chars not_gt (spaced pieces tail) = true.
Proof.
  intros Hp Ht. induction pieces as [|[ws w] pieces IH]; simpl.
  - apply not_gt_blank, Ht.
  - simpl in Hp. rewrite !andb_true_iff in Hp. destruct Hp as [[Hg Hw] Hp].
    rewrite !all_chars_app, IH, (not_gt_word w) by assumption.
    unfold gap in Hg. apply andb_true_iff in Hg.
    rewrite (not_gt_blank ws) by tauto. reflexivity.
Qed.

Lemma not_gt_line (lead w0 : string) (pieces : list (string * string))
    (tail : string) :
  blank lead = true -> plain_word w0 = true -> pieces_ok pieces = true ->
  blank tail = true ->
  all_chars not_gt (lead ++ w0 ++ spaced pieces tail) = true.
Proof.
  intros Hl Hw Hp Ht.
  rewrite !all_chars_app, (not_gt_blank lead), (not_gt_word w0), not_gt_spaced
    by assumption.
  reflexivity.
Qed.

(** ** Whole lines without redirection *)

Section PlainLines.

Context {F : Type}.
Variable os : OS F.

Lemma run_line_plain (line : string) (w : world F) :
  all_chars not_gt line = true ->
  run_line os line w =
  run_kind os (classify (PyStr.strip line)) (no_redirect line) w.
Proof.
  intros H. rewrite run_line_dispatch. cbv zeta.
  rewrite handle_redirects_plain by assumption. reflexivity.
Qed.

(** A line of words runs the branch of its trimmed text on its words. *)
Lemma run_line_words (lead w0 : string) (pieces : list (string * string))
    (tail : string) (w : world F) :
  blank lead = true -> plain_word w0 = true -> pieces_ok pieces = true ->
  blank tail = true ->
  let line := lead ++ w0 ++ spaced pieces tail in
  run_line os line w =
    run_kind os (classify (w0 ++ spaced pieces "")) (no_redirect line) w /\
  parse_command line = inr (w0 :: map snd pieces).
Proof.
  intros Hl Hw Hp Ht. cbv zeta. split.
  - rewrite run_line_plain by (apply not_gt_line; assumption).
    rewrite strip_spaced by assumption. reflexivity.
  - apply parse_spaced; assumption.
Qed.

(** X4: a line of spaces, tabs, CR and LF only (the empty line too) does
    nothing: nothing is written, nothing is looked up, and the loop goes
    on to the next prompt. *)
Theorem blank_line_is_skipped (line : string) (stdin : list string) (w : world F) :
  blank line = true ->
  run_line os line w = (Ret tt, w) /\
  main os (line :: stdin) w = main os stdin (add_term w [Out "$ "]).
Proof.
  intros Hb.
  assert (Hr : forall w', run_line os line w' = (Ret tt, w')).
  { intros w'. rewrite run_line_plain by (apply not_gt_blank, Hb).
    unfold PyStr.strip.
    rewrite <- (append_nil_r line) at 1.
    rewrite lstrip_app_space by (apply blank_space, Hb). simpl.
    unfold run_external, bind, tokens, parse_command, Shlex.split. simpl.
    rewrite <- (append_nil_r line). rewrite lex_blank by assumption.
    reflexivity. }
  split; [apply Hr|].
  simpl. unfold stdout_write, emit_tty. fold (add_term w [Out "$ "]).
  rewrite Hr. reflexivity.
Qed.

End PlainLines.

Lemma blank_line_is_skipped_witness :
  run_line Toy.os "   " Toy.w0 = (Ret tt, Toy.w0) /\
  main Toy.os ["   "; "pwd"] Toy.w0 =
    main Toy.os ["pwd"] (add_term Toy.w0 [Out "$ "]).
Proof.
  apply (blank_line_is_skipped Toy.os "   " ["pwd"] Toy.w0). reflexivity.
Defined.

(** ** The builtins on lines of words *)

Lemma join_path_nonempty (a b : string) : b <> "" -> PosixPath.join a b <> "".
Proof.
  intros Hb. unfold PosixPath.join.
  destruct (PyStr.startswith b "/"); [assumption|].
  destruct (String.eqb a "" || PosixPath.endswith_sep a);
    destruct a; simpl; try assumption; discriminate.
Qed.

Lemma startswith_app (a y p : string) :
  PyStr.startswith a p = true -> PyStr.startswith (a ++ y) p = true.
Proof.
  unfold PyStr.startswith. revert a.
  induction p as [|c p IH]; intros a H; [destruct (a ++ y); reflexivity|].
  destruct a as [|d a]; simpl in *; [discriminate|].
  destruct (ascii_dec c d); [auto|discriminate].
Qed.

Lemma startswith_prefix_app (p x : string) : PyStr.startswith (p ++ x) p = true.
Proof.
  unfold PyStr.startswith. induction p as [|c p IH]; simpl.
  - destruct x; reflexivity.
  - destruct (ascii_dec c c); [assumption|contradiction].
Qed.

Lemma gap_space (g : string) : blank g = true -> gap (" " ++ g) = true.
Proof. intros H. unfold gap. simpl. exact H. Qed.

Section WordLines.

Context {F : Type}.
Variable os : OS F.

Lemma find_executable_truthy (w : world F) (name : string) :
  name <> "" ->
  PyStr.truthy (find_executable os w name) = is_some (find_executable os w name).
Proof.
  intros Hn. destruct (find_executable os w name) as [p|] eqn:E; [|reflexivity].
  unfold find_executable in E. apply find_in_paths_some in E.
  destruct E as (before & d & after & _ & -> & _).
  pose proof (join_path_nonempty d name Hn) as Hj.
  destruct (PosixPath.join d name); [contradiction|reflexivity].
Qed.

(** X5: an echo line without redirection, given as words with any white
    space between them, writes the words joined by single spaces and a
    newline to the terminal, changes nothing else, and ends normally. *)
Theorem echo_prints_words (lead gap1 w1 : string)
    (pieces : list (string * string)) (tail : string) (w : world F) :
  blank lead = true -> blank gap1 = true -> plain_word w1 = true ->
  pieces_ok pieces = true -> blank tail = true ->
  run_line os (lead ++ "echo " ++ gap1 ++ w1 ++ spaced pieces tail) w =
  (Ret tt, add_term w [Out (PyStr.join " " (w1 :: map snd pieces) ++ nl)]).
Proof.
  intros Hl Hg Hw Hp Ht.
  assert (Hp' : pieces_ok ((" " ++ gap1, w1) :: pieces) = true).
  { unfold pieces_ok in *. cbn [forallb fst snd].
    rewrite (gap_space gap1 Hg), Hw, Hp. reflexivity. }
  change (lead ++ "echo " ++ gap1 ++ w1 ++ spaced pieces tail)
    with (lead ++ "echo" ++ spaced ((" " ++ gap1, w1) :: pieces) tail).
  destruct (run_line_words os lead "echo" ((" " ++ gap1, w1) :: pieces) tail w Hl eq_refl Hp' Ht)
    as [Hr Hparse].
  rewrite Hr.
  replace (classify _) with Echo
    by (symmetry; apply classify_cases; apply (startswith_prefix_app "echo " _)).
  cbn [run_kind]. unfold run_echo, bind, tokens, no_redirect.
  cbn [cmd stdout_file stderr_file append_stdout append_stderr].
  rewrite Hparse. cbn [map snd]. reflexivity.
Qed.

(** X6: [type name] without redirection writes one line to the terminal:
    [name is a shell builtin] for the five builtin names, whatever the
    search path holds; otherwise [name is path] with the path
    find_executable returns; otherwise [name: not found]. *)
Theorem type_reports (lead gap1 name tail : string) (w : world F) :
  blank lead = true -> blank gap1 = true -> plain_word name = true ->
  blank tail = true ->
  run_line os (lead ++ "type " ++ gap1 ++ name ++ tail) w =
  (Ret tt,
   add_term w
     [Out ((if PyStr.mem name builtins then name ++ " is a shell builtin"
            else match find_executable os w name with
                 | Some path => name ++ " is " ++ path
                 | None => name ++ ": not found"
                 end) ++ nl)]).
Proof.
  intros Hl Hg Hw Ht.
  assert (Hp' : pieces_ok [(" " ++ gap1, name)] = true).
  { unfold pieces_ok. cbn [forallb fst snd].
    rewrite (gap_space gap1 Hg), Hw. reflexivity. }
  change (lead ++ "type " ++ gap1 ++ name ++ tail)
    with (lead ++ "type" ++ spaced [(" " ++ gap1, name)] tail).
  destruct (run_line_words os lead "type" [(" " ++ gap1, name)] tail w Hl eq_refl Hp' Ht)
    as [Hr Hparse].
  rewrite Hr.
  replace (classify _) with Type_
    by (symmetry; apply classify_cases; apply (startswith_prefix_app "type " _)).
  cbn [run_kind]. unfold run_type, bind, tokens, no_redirect.
  cbn [cmd stdout_file stderr_file append_stdout append_stderr].
  rewrite Hparse. cbn [map snd]. unfold ret at 1.
  rewrite find_executable_truthy by (apply plain_word_nonempty, Hw).
  destruct (PyStr.mem name builtins); [reflexivity|].
  destruct (find_executable os w name); reflexivity.
Qed.

Lemma cd_line (lead gap1 dir tail : string) (w : world F) :
  blank lead = true -> blank gap1 = true -> plain_word dir = true ->
  blank tail = true ->
  run_line os (lead ++ "cd " ++ gap1 ++ dir ++ tail) w =
  if has_nul (expand_home w dir) then (Raise ValueErrorNull, w)
  else
    match chdir os (fs w) (cwd w) (expand_home w dir) with
    | inr d => (Ret tt, set_cwd w d)
    | inl e =>
        match cd_message (expand_home w dir) (os_kind e) with
        | Some error_msg => (Ret tt, add_term w [Out (error_msg ++ nl)])
        | None => (Raise (OSError e), w)
        end
    end.
Proof.
  intros Hl Hg Hw Ht.
  assert (Hp' : pieces_ok [(" " ++ gap1, dir)] = true).
  { unfold pieces_ok. cbn [forallb fst snd].
    rewrite (gap_space gap1 Hg), Hw. reflexivity. }
  change (lead ++ "cd " ++ gap1 ++ dir ++ tail)
    with (lead ++ "cd" ++ spaced [(" " ++ gap1, dir)] tail).
  destruct (run_line_words os lead "cd" [(" " ++ gap1, dir)] tail w Hl eq_refl Hp' Ht)
    as [Hr Hparse].
  rewrite Hr.
  replace (classify _) with Cd
    by (symmetry; apply classify_cases; apply (startswith_prefix_app "cd " _)).
  cbn [run_kind]. unfold run_cd, bind, tokens, no_redirect.
  cbn [cmd stdout_file stderr_file append_stdout append_stderr].
  rewrite Hparse. cbn [map snd]. unfold ret at 1.
  unfold try_except, os_chdir.
  destruct (has_nul (expand_home w dir)); [reflexivity|].
  destruct (chdir os (fs w) (cwd w) (expand_home w dir)) as [e|d]; [|reflexivity].
  destruct (cd_message (expand_home w dir) (os_kind e)); reflexivity.
Qed.

(** X7: [cd dir] without redirection: when os.chdir succeeds the working
    directory becomes the one the system reports and nothing is written;
    when it fails as not found, not a directory or permission denied the
    message of that failure is written to the terminal and the directory
    stays; any other OSError, and the ValueError for a directory that
    holds a NUL, is not caught and leaves the line as an error.  A leading
    [~] is replaced by HOME first. *)
Theorem cd_outcomes (lead gap1 dir tail : string) (w : world F) :
  blank lead = true -> blank gap1 = true -> plain_word dir = true ->
  blank tail = true ->
  run_line os (lead ++ "cd " ++ gap1 ++ dir ++ tail) w =
  if has_nul (expand_home w dir) then (Raise ValueErrorNull, w)
  else
    match chdir os (fs w) (cwd w) (expand_home w dir) with
    | inr d => (Ret tt, set_cwd w d)
    | inl e =>
        match cd_message (expand_home w dir) (os_kind e) with
        | Some error_msg => (Ret tt, add_term w [Out (error_msg ++ nl)])
        | None => (Raise (OSError e), w)
        end
    end.
Proof. exact (cd_line lead gap1 dir tail w). Qed.

Lemma pwd_line (lead tail : string) (w : world F) :
  all_chars PyStr.isspace lead = true -> all_chars PyStr.isspace tail = true ->
  run_line os (lead ++ "pwd" ++ tail) w =
  match getcwd os (fs w) (cwd w) with
  | inr d => (Ret tt, add_term w [Out (d ++ nl)])
  | inl e => (Raise (OSError e), w)
  end.
Proof.
  intros Hl Ht.
  rewrite run_line_plain.
  - unfold PyStr.strip. rewrite lstrip_app_space by assumption.
    replace (PyStr.lstrip ("pwd" ++ tail)) with ("pwd" ++ tail) by reflexivity.
    rewrite rstrip_app_empty by (apply rstrip_space, Ht).
    change (PyStr.rstrip "pwd") with "pwd".
    change (classify "pwd") with Pwd. cbn [run_kind].
    unfold run_pwd, bind, os_getcwd, no_redirect.
    cbn [stdout_file append_stdout].
    destruct (getcwd os (fs w) (cwd w)); reflexivity.
  - rewrite !all_chars_app.
    rewrite (all_chars_weaken _ _ lead isspace_not_gt Hl).
    rewrite (all_chars_weaken _ _ tail isspace_not_gt Ht). reflexivity.
Qed.

(** X8: [pwd], with any white space around it and no redirection, writes
    what os.getcwd() returns and a newline to the terminal. When
    os.getcwd() raises, as it does once the working directory has been
    removed, nothing is written and nothing catches the OSError: main ends
    with it and reads no further line. *)
Theorem pwd_prints_cwd (lead tail : string) (stdin : list string) (w : world F) :
  all_chars PyStr.isspace lead = true -> all_chars PyStr.isspace tail = true ->
  run_line os (lead ++ "pwd" ++ tail) w =
    match getcwd os (fs w) (cwd w) with
    | inr d => (Ret tt, add_term w [Out (d ++ nl)])
    | inl e => (Raise (OSError e), w)
    end /\
  main os ((lead ++ "pwd" ++ tail) :: stdin) w =
    match getcwd os (fs w) (cwd w) with
    | inr d => main os stdin (add_term w [Out "$ "; Out (d ++ nl)])
    | inl e => (Uncaught (OSError e), add_term w [Out "$ "])
    end.
Proof.
  intros Hl Ht. split; [exact (pwd_line lead tail w Hl Ht)|].
  cbn [main]. unfold stdout_write, emit_tty. fold (add_term w [Out "$ "]).
  rewrite (pwd_line lead tail _ Hl Ht).
  change (fs (add_term w [Out "$ "])) with (fs w).
  change (cwd (add_term w [Out "$ "])) with (cwd w).
  destruct (getcwd os (fs w) (cwd w)); [reflexivity|].
  unfold add_term. cbn [environ cwd fs term]. rewrite <- app_assoc. reflexivity.
Qed.


(** X10: a line of words whose first word begins with [exit] (and so also
    [exitfoo]) ends main at once with the exit code int() reads from the
    second word, or 0 when there is none or int() raises ValueError for
    it, as it does for a word that is no decimal literal and for one of
    more than 4300 digits; nothing is written and no later line is read. *)
Theorem exit_ends_main (lead w0 : string) (pieces : list (string * string))
    (tail : string) (stdin : list string) (w : world F) :
  blank lead = true -> plain_word w0 = true -> pieces_ok pieces = true ->
  blank tail = true -> PyStr.startswith w0 "exit" = true ->
  main os ((lead ++ w0 ++ spaced pieces tail) :: stdin) w =
  (Exited match pieces with
          | (_, a) :: _ => match py_int a with Some n => n | None => 0%Z end
          | [] => 0%Z
          end,
   add_term w [Out "$ "]).
Proof.
  intros Hl Hw Hp Ht Hx.
  destruct (run_line_words os lead w0 pieces tail (add_term w [Out "$ "])
              Hl Hw Hp Ht) as [Hr Hparse].
  assert (Hk : classify (w0 ++ spaced pieces "") = Exit)
    by (apply classify_cases, startswith_app, Hx).
  rewrite Hk in Hr.
  simpl. unfold stdout_write, emit_tty. fold (add_term w [Out "$ "]).
  rewrite Hr. simpl. unfold run_exit, bind, tokens. unfold no_redirect; cbn [cmd]. rewrite Hparse.
  unfold ret at 1. unfold sys_exit.
  destruct pieces as [|[ws a] pieces]; reflexivity.
Qed.

(** X11: a line of words that is none of the builtins, without
    redirection: when find_executable finds nothing for the first word,
    [word: command not found] is written to the terminal; otherwise the
    words are run as a child process, whose output goes to the terminal,
    and a failure to launch is reported as [Error executing command: ...];
    in every case the line ends normally. *)
Theorem external_outcomes (lead w0 : string) (pieces : list (string * string))
    (tail : string) (w : world F) :
  blank lead = true -> plain_word w0 = true -> pieces_ok pieces = true ->
  blank tail = true -> classify (w0 ++ spaced pieces "") = External ->
  run_line os (lead ++ w0 ++ spaced pieces tail) w =
  match find_executable os w w0 with
  | None => (Ret tt, add_term w [Out ((w0 ++ ": command not found") ++ nl)])
  | Some _ =>
      match run os (fs w) (cwd w) (environ w) (w0 :: map snd pieces) with
      | (inr o, f) =>
          (Ret tt, add_term (set_fs w f) [Out (child_stdout o); Err (child_stderr o)])
      | (inl text, f) =>
          (Ret tt, add_term (set_fs w f)
                     [Out ("Error executing command: " ++ text ++ nl)])
      end
  end.
Proof.
  intros Hl Hw Hp Ht Hk.
  destruct (run_line_words os lead w0 pieces tail w Hl Hw Hp Ht) as [Hr Hparse].
  rewrite Hr, Hk. cbn [run_kind]. unfold run_external, bind, tokens, no_redirect.
  cbn [cmd stdout_file stderr_file append_stdout append_stderr].
  rewrite Hparse. unfold ret at 1.
  rewrite find_executable_truthy by (apply plain_word_nonempty, Hw).
  destruct (find_executable os w w0); cbn [is_some]; [|reflexivity].
  unfold try_except, bind, subprocess_run. cbn [PyStr.truthy].
  destruct (run os (fs w) (cwd w) (environ w) (w0 :: map snd pieces))
    as [[text|o] f]; cbn [fst snd]; unfold set_fs, add_term; simpl;
    rewrite <- ?app_assoc; reflexivity.
Qed.

End WordLines.

(** [echo  hello   world ] prints [hello world]. *)
Lemma echo_prints_words_witness :
  run_line Toy.os "echo  hello   world " Toy.w0 =
  (Ret tt, add_term Toy.w0 [Out ("hello world" ++ nl)]).
Proof.
  exact (echo_prints_words Toy.os "" " " "hello" [("   ", "world")] " " Toy.w0
           eq_refl eq_refl eq_refl eq_refl eq_refl).
Defined.

(** [type ls] with /usr/bin on the search path. *)
Lemma type_reports_witness :
  run_line Toy.os "type ls" Toy.w0 =
  (Ret tt, add_term Toy.w0 [Out ("ls is /usr/bin/ls" ++ nl)]).
Proof.
  exact (type_reports Toy.os "" "" "ls" "" Toy.w0 eq_refl eq_refl eq_refl eq_refl).
Defined.

(** [cd /root], a directory without permission. *)
Lemma cd_outcomes_witness :
  run_line Toy.os "cd /root" Toy.w0 =
  (Ret tt, add_term Toy.w0 [Out ("cd: /root: Permission denied" ++ nl)]).
Proof.
  exact (cd_outcomes Toy.os "" "" "/root" "" Toy.w0 eq_refl eq_refl eq_refl eq_refl).
Defined.

(** [pwd] between a tab and two spaces, in /home and in a working
    directory that is no longer there. *)
Lemma pwd_prints_cwd_witness :
  (run_line Toy.os (String "009" "pwd  ") Toy.w0 =
     (Ret tt, add_term Toy.w0 [Out ("/home" ++ nl)]) /\
   main Toy.os [String "009" "pwd  "; "echo hi"] Toy.w0 =
     main Toy.os ["echo hi"] (add_term Toy.w0 [Out "$ "; Out ("/home" ++ nl)])) /\
  (run_line Toy.os (String "009" "pwd  ") ToyMore.w_gone =
     (Raise (OSError (Toy.err FileNotFoundError "No such file or directory")),
      ToyMore.w_gone) /\
   main Toy.os [String "009" "pwd  "; "echo hi"] ToyMore.w_gone =
     (Uncaught (OSError (Toy.err FileNotFoundError "No such file or directory")),
      add_term ToyMore.w_gone [Out "$ "])).
Proof.
  split.
  - exact (pwd_prints_cwd Toy.os (String "009" "") "  " ["echo hi"] Toy.w0
             eq_refl eq_refl).
  - exact (pwd_prints_cwd Toy.os (String "009" "") "  " ["echo hi"] ToyMore.w_gone
             eq_refl eq_refl).
Defined.


(** [exitnow 7] ends main with code 7 before [pwd] is read. *)
Lemma exit_ends_main_witness :
  main Toy.os ["exitnow 7"; "pwd"] Toy.w0 = (Exited 7, add_term Toy.w0 [Out "$ "]).
Proof.
  exact (exit_ends_main Toy.os "" "exitnow" [(" ", "7")] "" ["pwd"] Toy.w0
           eq_refl eq_refl eq_refl eq_refl eq_refl).
Defined.

(** What int() reads: a sign, underscores between digits and white space
    around are accepted; a separator such as FS (code point 28) is not
    white space for it, although str.strip removes it. *)
Lemma py_int_examples :
  py_int "42" = Some 42%Z /\ py_int "abc" = None /\ py_int "" = None /\
  py_int " +1_000 " = Some 1000%Z /\ py_int "-7" = Some (-7)%Z /\
  py_int "1__0" = None /\ py_int "_1" = None /\ py_int "+ 1" = None /\
  py_int (String "160" "7") = Some 7%Z /\
  py_int ("7" ++ String "028" "") = None /\
  PyStr.strip ("7" ++ String "028" "") = "7".
Proof. vm_compute. repeat split; reflexivity. Qed.

Lemma digit_facts (c : ascii) :
  is_digit c = true ->
  int_space c = false /\ c <> "+"%char /\ c <> "-"%char /\
  digit_val c <> None.
Proof.
  intros H. unfold is_digit in H.
  destruct (digit_val c) eqn:E; [|discriminate].
  repeat split; try discriminate;
    destruct c as [[] [] [] [] [] [] [] []]; vm_compute in E;
    try discriminate; try reflexivity.
Qed.

Lemma int_rstrip_digits (s : string) :
  all_chars is_digit s = true -> int_rstrip s = s.
Proof.
  induction s as [|c s IH]; [reflexivity|].
  simpl. intros H. apply andb_true_iff in H. destruct H as [Hc Hs].
  rewrite (IH Hs). destruct (digit_facts c Hc) as (-> & _).
  destruct s; reflexivity.
Qed.

Lemma count_digits_all (s : string) :
  all_chars is_digit s = true -> count_digits s = String.length s.
Proof.
  induction s as [|c s IH]; [reflexivity|].
  simpl. intros H. apply andb_true_iff in H. destruct H as [Hc Hs].
  unfold is_digit in Hc. destruct (digit_val c); [|discriminate].
  rewrite (IH Hs). reflexivity.
Qed.

(** On a word of decimal digits int() gives its value, unless the word has
    more digits than the interpreter allows: then it raises ValueError,
    and the exit code is 0. *)
Lemma py_int_digits (s : string) :
  all_chars is_digit s = true ->
  py_int s = if (int_max_str_digits <? String.length s)%nat then None
             else digits s 0%Z false.
Proof.
  intros H. unfold py_int.
  assert (Hl : int_lstrip s = s).
  { destruct s as [|c s]; [reflexivity|]. simpl in H |- *.
    apply andb_true_iff in H. destruct H as [Hc _].
    destruct (digit_facts c Hc) as (-> & _). reflexivity. }
  rewrite Hl, (int_rstrip_digits s H).
  destruct s as [|c s]; [reflexivity|].
  pose proof H as H'. simpl in H'. apply andb_true_iff in H'.
  destruct H' as [Hc _]. unfold is_digit in Hc.
  pose proof (count_digits_all _ H) as Hcount.
  destruct c as [[] [] [] [] [] [] [] []]; try (vm_compute in Hc; discriminate);
    cbv beta iota; unfold limited_digits; rewrite Hcount; reflexivity.
Qed.

(** [exit 7] ends main with code 7; with FS after the 7, which is part of
    the word for the tokenizer, the code is 0. *)
Lemma exit_code_examples :
  main Toy.os ["exit 7"] Toy.w0 = (Exited 7, add_term Toy.w0 [Out "$ "]) /\
  main Toy.os ["exit 7" ++ String "028" ""] Toy.w0 =
    (Exited 0, add_term Toy.w0 [Out "$ "]) /\
  main Toy.os ["exit abc"] Toy.w0 = (Exited 0, add_term Toy.w0 [Out "$ "]).
Proof. vm_compute. repeat split; reflexivity. Qed.

(** [nosuch -l] is not found. *)
Lemma external_outcomes_witness :
  run_line Toy.os "nosuch -l" Toy.w0 =
  (Ret tt, add_term Toy.w0 [Out ("nosuch: command not found" ++ nl)]).
Proof.
  exact (external_outcomes Toy.os "" "nosuch" [(" ", "-l")] "" Toy.w0
           eq_refl eq_refl eq_refl eq_refl eq_refl).
Defined.

(** ** find_executable on names that are paths *)

Lemma split_nonempty (sep : ascii) (s : string) : PyStr.split sep s <> [].
Proof.
  destruct s as [|c s]; simpl; [discriminate|].
  destruct (Ascii.eqb c sep); [discriminate|].
  destruct (PyStr.split sep s); discriminate.
Qed.

Lemma join_absolute (a b : string) :
  PyStr.startswith b "/" = true -> PosixPath.join a b = b.
Proof. intros H. unfold PosixPath.join. rewrite H. reflexivity. Qed.

Section ResolverMore.

Context {F : Type}.
Variable os : OS F.

(** X12: a name that begins with a slash is tried as a path of its own in
    every entry of the search path, so find_executable returns the name
    itself when it is an executable regular file and nothing otherwise,
    whatever the search-path variable holds. *)
Theorem find_executable_absolute (w : world F) (command : string) :
  PyStr.startswith command "/" = true ->
  find_executable os w command =
  if is_executable_file os w command then Some command else None.
Proof.
  intros Habs. unfold find_executable.
  pose proof (split_nonempty ":"%char (environ_get (environ w) "PATH")) as Hne.
  induction (PyStr.split ":" (environ_get (environ w) "PATH")) as [|d ps IH];
    [contradiction|].
  simpl. rewrite join_absolute by assumption.
  destruct (is_executable_file os w command) eqn:E; [reflexivity|].
  destruct ps as [|d' ps]; [reflexivity|].
  rewrite IH by discriminate. reflexivity.
Qed.

End ResolverMore.

(** /usr/bin/ls with a search path that does not hold it. *)
Lemma find_executable_absolute_witness :
  find_executable Toy.os Toy.w_pwdx "/usr/bin/ls" =
  if is_executable_file Toy.os Toy.w_pwdx "/usr/bin/ls"
  then Some "/usr/bin/ls" else None.
Proof.
  exact (find_executable_absolute Toy.os Toy.w_pwdx "/usr/bin/ls" eq_refl).
Defined.

(** ** find_completions: what the candidates are *)

Lemma mem_in (x : string) (l : list string) : PyStr.mem x l = true <-> In x l.
Proof.
  unfold PyStr.mem. rewrite existsb_exists. split.
  - intros (y & Hy & E). apply String.eqb_eq in E. now subst.
  - intros H. exists x. split; [assumption|apply String.eqb_refl].
Qed.

Section Candidates.

Context {F : Type}.
Variable os : OS F.
Variable w : world F.
Variable text : string.

Lemma scan_files_in (directory : string) (files : list string) :
  forall executables m,
    In m (scan_files os w text directory files executables) <->
    In m executables \/
    (In m files /\ PyStr.startswith m text = true /\
     is_executable_file os w (PosixPath.join directory m) = true).
Proof.
  induction files as [|f files IH]; intros executables m; simpl.
  - tauto.
  - destruct (PyStr.startswith f text
              && is_executable_file os w (PosixPath.join directory f)) eqn:E.
    + apply andb_true_iff in E. destruct E as [E1 E2].
      destruct (PyStr.mem f executables) eqn:Em; simpl; rewrite IH.
      * apply mem_in in Em. split; [tauto|].
        intros [H|([<-|H] & H1 & H2)]; tauto.
      * rewrite in_app_iff. simpl. split; [intuition (subst; auto)|].
        intros [H|([<-|H] & H1 & H2)]; tauto.
    + rewrite IH. split; [tauto|].
      intros [H|([<-|H] & H1 & H2)]; [tauto| |tauto].
      rewrite H1, H2 in E. discriminate.
Qed.

Lemma scan_files_nodup (directory : string) (files : list string) :
  forall executables,
    NoDup executables ->
    NoDup (scan_files os w text directory files executables).
Proof.
  induction files as [|f files IH]; intros executables Hn; simpl; [assumption|].
  destruct (PyStr.startswith f text
            && is_executable_file os w (PosixPath.join directory f)); [|auto].
  destruct (PyStr.mem f executables) eqn:Em; simpl; [auto|].
  apply IH. apply NoDup_app; [assumption|repeat constructor; intros []|].
  intros x Hx [<-|[]].
  apply mem_in in Hx. congruence.
Qed.

Lemma scan_paths_in (paths : list string) :
  forall executables found m,
    scan_paths os w text paths executables = inr found ->
    (In m found <->
     In m executables \/ exists directory, In directory paths /\ offers os w text directory m).
Proof.
  induction paths as [|d paths IH]; intros executables found m; simpl.
  - intros [= <-]. split; [tauto|]. intros [H|(d & [] & _)]. assumption.
  - destruct (isdir os (fs w) (cwd w) d) eqn:Ed; simpl.
    + destruct (listdir os (fs w) (cwd w) d) as [e|files] eqn:El.
      * assert (Hskip : scan_paths os w text paths executables = inr found ->
                  (In m found <-> In m executables \/
                     exists directory, In directory (d :: paths) /\ offers os w text directory m)).
        { intros H. rewrite (IH _ _ m H). split.
          - intros [H1|(d' & Hd' & Ho)]; [tauto|]. right. exists d'. simpl. tauto.
          - intros [H1|(d' & [<-|Hd'] & Ho)]; [tauto| |right; eauto].
            destruct Ho as (_ & (files & Hf & _) & _). congruence. }
        destruct (os_kind e); try exact Hskip; discriminate.
      * intros H. rewrite (IH _ _ m H), scan_files_in. split.
        -- intros [[H1|(H1 & H2 & H3)]|(d' & Hd' & Ho)]; [tauto| |].
           ++ right. exists d. split; [now left|].
              repeat split; eauto.
           ++ right. exists d'. simpl. tauto.
        -- intros [H1|(d' & [<-|Hd'] & Ho)]; [tauto| |right; eauto].
           destruct Ho as (_ & (files' & Hf & Hin) & H2 & H3).
           rewrite El in Hf. injection Hf as <-. tauto.
    + intros H. rewrite (IH _ _ m H). split.
      * intros [H1|(d' & Hd' & Ho)]; [tauto|]. right. exists d'. simpl. tauto.
      * intros [H1|(d' & [<-|Hd'] & Ho)]; [tauto| |right; eauto].
        destruct Ho as (Hdir & _). congruence.
Qed.

Lemma scan_paths_nodup (paths : list string) :
  forall executables found,
    scan_paths os w text paths executables = inr found ->
    NoDup executables -> NoDup found.
Proof.
  induction paths as [|d paths IH]; intros executables found; simpl.
  - intros [= <-]. auto.
  - destruct (isdir os (fs w) (cwd w) d); simpl; [|apply IH].
    destruct (listdir os (fs w) (cwd w) d) as [e|files].
    + destruct (os_kind e); try apply IH; discriminate.
    + intros H Hn. eapply IH; [eassumption|]. apply scan_files_nodup, Hn.
Qed.

Lemma find_completions_matches (matches : list string) (lp : string) :
  find_completions os w text = inr (matches, lp) ->
  exists found,
    scan_paths os w text (PyStr.split ":" (environ_get (environ w) "PATH")) []
      = inr found /\
    matches = PyStr.sort (filter (fun c => PyStr.startswith c text) builtins ++ found).
Proof.
  unfold find_completions.
  destruct (scan_paths os w text _ []) as [e|found]; [discriminate|].
  intros H. exists found. split; [reflexivity|].
  destruct (PyStr.sort _) as [|first rest]; injection H as <- _; reflexivity.
Qed.

Lemma candidates_iff (matches : list string) (lp m : string) :
  find_completions os w text = inr (matches, lp) ->
  (In m matches <->
   (In m builtins /\ PyStr.startswith m text = true) \/
   exists directory,
     In directory (PyStr.split ":" (environ_get (environ w) "PATH")) /\
     offers os w text directory m).
Proof.
  intros H. destruct (find_completions_matches _ _ H) as (found & Hs & ->).
  rewrite sort_in, in_app_iff, filter_In, (scan_paths_in _ _ _ m Hs).
  simpl. tauto.
Qed.

(** X13: the candidates of a text are exactly the builtin names that start
    with it and the file names that start with it, are listed in a
    directory of the search path (an entry that is a directory and whose
    listing succeeds) and are executable regular files there. *)
Theorem find_completions_candidates (matches : list string) (lp m : string) :
  find_completions os w text = inr (matches, lp) ->
  (In m matches <->
   (In m builtins /\ PyStr.startswith m text = true) \/
   exists directory,
     In directory (PyStr.split ":" (environ_get (environ w) "PATH")) /\
     offers os w text directory m).
Proof. exact (candidates_iff matches lp m). Qed.

(** X14: every candidate that is not a builtin name resolves: for each of
    them find_executable returns a path. *)
Theorem find_completions_resolve (matches : list string) (lp m : string) :
  find_completions os w text = inr (matches, lp) ->
  In m matches ->
  In m builtins \/ exists path, find_executable os w m = Some path.
Proof.
  intros H Hm. apply (candidates_iff _ _ m H) in Hm.
  destruct Hm as [[Hb _]|(d & Hd & _ & _ & _ & Hx)]; [now left|right].
  destruct (find_executable os w m) as [path|] eqn:E; [eauto|].
  unfold find_executable in E.
  rewrite find_in_paths_none in E. rewrite (E d Hd) in Hx. discriminate.
Qed.

(** X15: the lookup of candidates fails only through an OSError of
    os.listdir that is neither PermissionError nor FileNotFoundError:
    find_completions returns its candidates exactly when every listing of
    a search-path entry that is a directory succeeds or fails in one of
    these two ways. Entries that are no directories are never listed and
    do not matter. *)
Theorem find_completions_succeeds :
  (exists matches lp, find_completions os w text = inr (matches, lp)) <->
  (forall directory e,
      In directory (PyStr.split ":" (environ_get (environ w) "PATH")) ->
      isdir os (fs w) (cwd w) directory = true ->
      listdir os (fs w) (cwd w) directory = inl e ->
      os_kind e = PermissionError \/ os_kind e = FileNotFoundError).
Proof.
  unfold find_completions.
  set (paths := PyStr.split ":" (environ_get (environ w) "PATH")).
  split.
  - intros (matches & lp & H).
    destruct (scan_paths os w text paths []) as [e0|found] eqn:Es; [discriminate|].
    clear H. revert Es. generalize (@nil string). generalize found.
    induction paths as [|d ps IH]; intros found0 executables Es directory e Hin;
      [contradiction|].
    simpl in Es. destruct Hin as [<-|Hin].
    + intros Hd Hl. rewrite Hd, Hl in Es. simpl in Es.
      destruct (os_kind e); auto; discriminate.
    + destruct (isdir os (fs w) (cwd w) d); simpl in Es;
        [|exact (IH _ _ Es directory e Hin)].
      destruct (listdir os (fs w) (cwd w) d) as [e1|files];
        [|exact (IH _ _ Es directory e Hin)].
      destruct (os_kind e1); try discriminate; exact (IH _ _ Es directory e Hin).
  - intros Hok.
    assert (Hs : forall executables,
               exists found, scan_paths os w text paths executables = inr found).
    { induction paths as [|d ps IH]; intros executables; simpl; [eauto|].
      assert (IH' := IH (fun d' e Hd => Hok d' e (or_intror Hd))).
      destruct (isdir os (fs w) (cwd w) d) eqn:Ed; simpl; [|apply IH'].
      destruct (listdir os (fs w) (cwd w) d) as [e|files] eqn:El; [|apply IH'].
      destruct (Hok d e (or_introl eq_refl) Ed El) as [-> | ->]; apply IH'. }
    destruct (Hs []) as (found & ->).
    destruct (PyStr.sort _); eauto.
Qed.

End Candidates.

Lemma find_completions_candidates_witness :
  In "pwdx" ["pwd"; "pwdx"] <->
  (In "pwdx" builtins /\ PyStr.startswith "pwdx" "pw" = true) \/
  exists directory,
    In directory (PyStr.split ":" (environ_get (environ Toy.w_pwdx) "PATH")) /\
    offers Toy.os Toy.w_pwdx "pw" directory "pwdx".
Proof.
  exact (find_completions_candidates Toy.os Toy.w_pwdx "pw" ["pwd"; "pwdx"] "pwd"
           "pwdx" eq_refl).
Defined.

Lemma find_completions_resolve_witness :
  In "pwdx" builtins \/ exists path, find_executable Toy.os Toy.w_pwdx "pwdx" = Some path.
Proof.
  apply (find_completions_resolve Toy.os Toy.w_pwdx "pw" ["pwd"; "pwdx"] "pwd" "pwdx").
  - reflexivity.
  - simpl. tauto.
Defined.

(** /root is on the search path and cannot be listed; /usr/bin/ls is on it
    and is a regular file, whose listing would fail as no directory. *)
Lemma find_completions_succeeds_witness :
  (exists matches lp,
     find_completions Toy.os ToyMore.w_locked "l" = inr (matches, lp)) /\
  listdir Toy.os (fs ToyMore.w_file_on_path) (cwd ToyMore.w_file_on_path)
    "/usr/bin/ls" = inl (Toy.err NotADirectoryError "Not a directory") /\
  (exists matches lp,
     find_completions Toy.os ToyMore.w_file_on_path "l" = inr (matches, lp)).
Proof.
  split; [|split; [reflexivity|]].
  - apply (find_completions_succeeds Toy.os ToyMore.w_locked "l").
    intros directory e [<-|[<-|[]]]; vm_compute; try discriminate;
      intros _ [= <-]; simpl; tauto.
  - apply (find_completions_succeeds Toy.os ToyMore.w_file_on_path "l").
    intros directory e [<-|[<-|[]]]; vm_compute; try discriminate;
      intros _ [= <-]; simpl; tauto.
Defined.

(** ** find_completions: how often a name is listed *)

Lemma count_insert (x y : string) (l : list string) :
  count_occ string_dec (PyStr.insert x l) y = count_occ string_dec (x :: l) y.
Proof.
  induction l as [|z l IH]; [reflexivity|].
  simpl PyStr.insert. destruct (String.leb x z); [reflexivity|].
  simpl in *. rewrite IH.
  destruct (string_dec z y), (string_dec x y); reflexivity.
Qed.

Lemma count_sort (y : string) (l : list string) :
  count_occ string_dec (PyStr.sort l) y = count_occ string_dec l y.
Proof.
  induction l as [|x l IH]; [reflexivity|].
  simpl PyStr.sort. rewrite count_insert. simpl. rewrite IH. reflexivity.
Qed.

Lemma builtins_nodup : NoDup builtins.
Proof.
  repeat constructor; simpl; intuition discriminate.
Qed.

Section Multiplicity.

Context {F : Type}.
Variable os : OS F.

(** X16: a file name found in several directories of the search path is
    listed once; so a candidate that is no builtin name appears exactly
    once, and no candidate appears more than twice. *)
Theorem find_completions_multiplicity (w : world F) (text : string)
    (matches : list string) (lp m : string) :
  find_completions os w text = inr (matches, lp) ->
  count_occ string_dec matches m <= 2 /\
  (~ In m builtins -> In m matches -> count_occ string_dec matches m = 1).
Proof.
  intros H. destruct (find_completions_matches os w text _ _ H) as (found & Hs & ->).
  assert (Hf : count_occ string_dec found m <= 1).
  { apply NoDup_count_occ. eapply scan_paths_nodup; [exact Hs|constructor]. }
  assert (Hb : count_occ string_dec
                 (filter (fun c => PyStr.startswith c text) builtins) m <= 1).
  { apply NoDup_count_occ. apply NoDup_filter, builtins_nodup. }
  rewrite count_sort, count_occ_app. split; [lia|].
  intros Hnb Hin.
  assert (Hz : count_occ string_dec
                 (filter (fun c => PyStr.startswith c text) builtins) m = 0).
  { apply count_occ_not_In. rewrite filter_In. tauto. }
  rewrite sort_in, in_app_iff in Hin. destruct Hin as [Hin|Hin].
  - rewrite filter_In in Hin. tauto.
  - apply (count_occ_In string_dec) in Hin. lia.
Qed.

End Multiplicity.

(** ls is found once on the search path of the example. *)
Lemma find_completions_multiplicity_witness :
  count_occ string_dec ["ls"] "ls" <= 2 /\
  (~ In "ls" builtins -> In "ls" ["ls"] -> count_occ string_dec ["ls"] "ls" = 1).
Proof.
  exact (find_completions_multiplicity Toy.os Toy.w0 "l" ["ls"] "ls" "ls" eq_refl).
Defined.

(** ** find_completions: the longest common prefix *)

Lemma startswith_split (s p : string) :
  PyStr.startswith s p = true -> exists x, s = p ++ x.
Proof.
  unfold PyStr.startswith. revert s.
  induction p as [|c p IH]; intros s H; [exists s; reflexivity|].
  destruct s as [|d s]; simpl in H; [discriminate|].
  destruct (ascii_dec c d) as [<-|]; [|discriminate].
  destruct (IH s H) as (x & ->). exists x. reflexivity.
Qed.

Lemma length_app (a b : string) :
  String.length (a ++ b) = String.length a + String.length b.
Proof. induction a as [|c a IH]; simpl; [reflexivity|]. now rewrite IH. Qed.

Lemma get_app_length (a x : string) :
  String.get (String.length a) (a ++ x) = String.get 0 x.
Proof. induction a as [|c a IH]; simpl; [reflexivity|exact IH]. Qed.

Lemma take_app_length (a b : string) : PyStr.take (String.length a) (a ++ b) = a.
Proof. induction a as [|c a IH]; simpl; [destruct b; reflexivity|]. now rewrite IH. Qed.

Lemma drop_app_length (a b : string) : PyStr.drop (String.length a) (a ++ b) = b.
Proof. induction a as [|c a IH]; simpl; [destruct b; reflexivity|exact IH]. Qed.

Lemma startswith_length (s p : string) :
  PyStr.startswith s p = true -> String.length p <= String.length s.
Proof.
  intros H. destruct (startswith_split s p H) as (x & ->).
  rewrite length_app. lia.
Qed.

Lemma all_share_true (matches : list string) (i : nat) (c : ascii) :
  all_share matches i c = true ->
  forall m, In m matches -> String.get i m = Some c.
Proof.
  unfold all_share. rewrite forallb_forall. intros H m Hm.
  specialize (H m Hm). unfold PyStr.getitem in H.
  destruct (String.get i m) as [d|]; [|discriminate].
  apply Ascii.eqb_eq in H. now subst.
Qed.

Lemma all_share_false (matches : list string) (i : nat) (c : ascii) :
  all_share matches i c = false ->
  exists m, In m matches /\ String.get i m <> Some c.
Proof.
  unfold all_share. induction matches as [|m ms IH]; simpl; [discriminate|].
  rewrite andb_false_iff. intros [H|H].
  - exists m. split; [now left|]. unfold PyStr.getitem in H.
    destruct (String.get i m) as [d|]; [|discriminate].
    intros [= ->]. rewrite Ascii.eqb_refl in H. discriminate.
  - destruct (IH H) as (m' & Hm' & Hg). exists m'. split; [now right|assumption].
Qed.

Lemma common_end_spec (matches : list string) (rest : string) :
  forall pre,
    (forall m, In m matches -> PyStr.startswith m pre = true) ->
    exists ext rest',
      rest = ext ++ rest' /\
      common_end matches rest (String.length pre) = String.length (pre ++ ext) /\
      (forall m, In m matches -> PyStr.startswith m (pre ++ ext) = true) /\
      (rest' = "" \/
       exists c r, rest' = String c r /\
                   all_share matches (String.length (pre ++ ext)) c = false).
Proof.
  induction rest as [|c rest IH]; intros pre Hpre.
  - exists "", "". rewrite !append_nil_r. simpl. auto.
  - simpl. destruct (all_share matches (String.length pre) c) eqn:E.
    + assert (Hpre' : forall m, In m matches ->
                PyStr.startswith m (pre ++ String c "") = true).
      { intros m Hm. pose proof (all_share_true _ _ _ E m Hm) as Hg.
        destruct (startswith_split m pre (Hpre m Hm)) as (x & ->).
        rewrite get_app_length in Hg. destruct x as [|d x]; [discriminate|].
        simpl in Hg. injection Hg as ->.
        change (String c x) with (String c "" ++ x).
        rewrite <- append_assoc. apply startswith_prefix_app. }
      destruct (IH (pre ++ String c "") Hpre') as (ext & rest' & -> & Hj & Hall & Hend).
      replace (String.length (pre ++ String c "")) with (S (String.length pre)) in Hj
        by (rewrite length_app; simpl; lia).
      exists (String c ext), rest'.
      replace (pre ++ String c ext) with ((pre ++ String c "") ++ ext)
        by (rewrite append_assoc; reflexivity).
      auto.
    + exists "", (String c rest). rewrite !append_nil_r. simpl.
      repeat split; auto. right. eauto.
Qed.

Section LongestPrefix.

Context {F : Type}.
Variable os : OS F.

Lemma longest_prefix_facts (w : world F) (text : string)
    (matches : list string) (lp : string) :
  find_completions os w text = inr (matches, lp) ->
  (forall m, In m matches ->
             PyStr.startswith m text = true /\ PyStr.startswith m lp = true) /\
  (matches = [] -> lp = "") /\
  (matches <> [] ->
   PyStr.startswith lp text = true /\
   forall c, exists m,
     In m matches /\ PyStr.startswith m (lp ++ String c "") = false).
Proof.
  intros H.
  assert (Htext : forall m, In m matches -> PyStr.startswith m text = true).
  { intros m Hm. apply (candidates_iff os w text _ _ m H) in Hm.
    destruct Hm as [[_ Hs]|(d & _ & _ & _ & Hs & _)]; exact Hs. }
  unfold find_completions in H.
  destruct (scan_paths os w text _ []) as [e|found]; [discriminate|].
  destruct (PyStr.sort _) as [|first others] eqn:Es.
  - injection H as <- <-.
    split; [intros m []|split; [reflexivity|intros Hne; contradiction]].
  - injection H as <- <-.
    destruct (startswith_split first text (Htext first (or_introl eq_refl)))
      as (x & Hfirst).
    assert (Hd : PyStr.drop (String.length text) first = x)
      by (rewrite Hfirst; apply drop_app_length).
    rewrite Hd.
    destruct (common_end_spec (first :: others) x text Htext)
      as (ext & rest' & -> & Hj & Hall & Hend).
    rewrite Hj.
    assert (Ht : PyStr.take (String.length (text ++ ext)) first = text ++ ext)
      by (rewrite Hfirst, <- append_assoc; apply take_app_length).
    rewrite Ht. clear Hd Ht.
    split; [|split; [discriminate|]].
    + intros m Hm. split; [apply Htext|apply Hall]; assumption.
    + intros _. split; [apply startswith_prefix_app|].
      intros c. destruct Hend as [->|(c0 & r & -> & Hshare)].
      * exists first. split; [now left|].
        destruct (PyStr.startswith first ((text ++ ext) ++ String c "")) eqn:E;
          [|reflexivity].
        apply startswith_length in E. rewrite Hfirst in E.
        rewrite append_nil_r in E. rewrite !length_app in E. simpl in E. lia.
      * destruct (all_share_false _ _ _ Hshare) as (m0 & Hm0 & Hg).
        destruct (Ascii.eqb c c0) eqn:Ec.
        -- apply Ascii.eqb_eq in Ec. subst c0. exists m0. split; [assumption|].
           destruct (PyStr.startswith m0 ((text ++ ext) ++ String c "")) eqn:E;
             [|reflexivity].
           exfalso. apply Hg.
           apply (startswith_get _ _ E). rewrite get_app_length. reflexivity.
        -- exists first. split; [now left|].
           destruct (PyStr.startswith first ((text ++ ext) ++ String c "")) eqn:E;
             [|reflexivity].
           pose proof (startswith_get _ _ E (String.length (text ++ ext)) c) as Hg1.
           rewrite get_app_length in Hg1. specialize (Hg1 eq_refl).
           rewrite Hfirst, <- append_assoc, get_app_length in Hg1.
           simpl in Hg1. injection Hg1 as ->.
           rewrite Ascii.eqb_refl in Ec. discriminate.
Qed.

(** X17: the second result of find_completions is the longest common
    prefix of the candidates: every candidate starts with the typed text
    and with that prefix, the prefix starts with the typed text, and it
    cannot be made longer, since for every character some candidate does
    not start with the prefix followed by it; without candidates it is
    empty. *)
Theorem find_completions_longest_prefix (w : world F) (text : string)
    (matches : list string) (lp : string) :
  find_completions os w text = inr (matches, lp) ->
  (forall m, In m matches ->
             PyStr.startswith m text = true /\ PyStr.startswith m lp = true) /\
  (matches = [] -> lp = "") /\
  (matches <> [] ->
   PyStr.startswith lp text = true /\
   forall c, exists m,
     In m matches /\ PyStr.startswith m (lp ++ String c "") = false).
Proof. exact (longest_prefix_facts w text matches lp). Qed.

End LongestPrefix.

(** pw on a search path with pwdx: the candidates pwd and pwdx share pwd. *)
Lemma find_completions_longest_prefix_witness :
  (forall m, In m ["pwd"; "pwdx"] ->
             PyStr.startswith m "pw" = true /\ PyStr.startswith m "pwd" = true) /\
  (["pwd"; "pwdx"] = [] -> "pwd" = "") /\
  (["pwd"; "pwdx"] <> [] ->
   PyStr.startswith "pwd" "pw" = true /\
   forall c, exists m,
     In m ["pwd"; "pwdx"] /\ PyStr.startswith m ("pwd" ++ String c "") = false).
Proof.
  exact (find_completions_longest_prefix Toy.os Toy.w_pwdx "pw" ["pwd"; "pwdx"]
           "pwd" eq_refl).
Defined.

(** ** complete: one candidate, or a longer common prefix *)

Section Determinate.

Context {F : Type}.
Variable os : OS F.

Lemma single_candidate_prefix (w : world F) (text m lp : string) :
  find_completions os w text = inr ([m], lp) -> lp = m.
Proof.
  intros H. destruct (longest_prefix_facts os w text _ _ H) as (Hall & _ & Hmax).
  destruct (Hall m (or_introl eq_refl)) as [_ Hlp].
  destruct (startswith_split m lp Hlp) as (x & Hx).
  destruct x as [|c x]; [rewrite append_nil_r in Hx; congruence|].
  destruct Hmax as [_ Hmax]; [discriminate|].
  destruct (Hmax c) as (m' & [<-|[]] & Hno).
  rewrite Hx in Hno.
  change (String c x) with (String c "" ++ x) in Hno.
  rewrite <- append_assoc, startswith_prefix_app in Hno. discriminate.
Qed.

(** X18: when a typed text that is none of the hard-coded ones has
    exactly one candidate, the request at state 0 returns that candidate
    followed by a space, writes nothing, and records the text and the
    candidate; the awaited flag stays as it was. *)
Theorem complete_single_candidate (w : world F) (g : globals) (text m lp : string) :
  find_completions os w text = inr ([m], lp) ->
  hardcoded text = false ->
  complete os text 0 g w =
  (Ret (Some (m ++ " ")), recorded text [m] m (tab_pressed g), w).
Proof.
  intros Hf Hplain.
  pose proof (single_candidate_prefix w text m lp Hf) as ->.
  destruct (hardcoded_tests text Hplain) as (H1 & H2 & H3 & H4).
  unfold complete. rewrite H1, H2, H3, H4. simpl.
  rewrite orb_true_r, Hf. unfold recorded.
  destruct (String.length text <? String.length m)%nat; simpl.
  - rewrite String.eqb_refl. reflexivity.
  - reflexivity.
Qed.

(** X19: when the longest common prefix of the candidates is longer than
    a typed text that is none of the hard-coded ones, the request at state
    0 returns that prefix, followed by a space exactly when it is itself a
    candidate; nothing is written and the awaited flag stays as it was.
    What is returned starts with the typed text, and every candidate
    starts with it. *)
Theorem complete_extends_text (w : world F) (g : globals) (text lp : string)
    (matches : list string) :
  find_completions os w text = inr (matches, lp) ->
  String.length text < String.length lp ->
  hardcoded text = false ->
  complete os text 0 g w =
    (Ret (Some (if PyStr.mem lp matches then lp ++ " " else lp)),
     recorded text matches lp (tab_pressed g), w) /\
  PyStr.startswith lp text = true /\
  (forall m, In m matches -> PyStr.startswith m lp = true).
Proof.
  intros Hf Hlen Hplain.
  destruct (longest_prefix_facts os w text _ _ Hf) as (Hall & Hnil & Hmax).
  assert (Hne : matches <> []).
  { intros E. rewrite (Hnil E) in Hlen. simpl in Hlen. lia. }
  split; [|split; [apply Hmax, Hne|intros m Hm; apply Hall, Hm]].
  destruct (hardcoded_tests text Hplain) as (H1 & H2 & H3 & H4).
  unfold complete. rewrite H1, H2, H3, H4. simpl.
  rewrite orb_true_r, Hf. unfold recorded.
  replace (String.length text <? String.length lp)%nat with true
    by (symmetry; apply Nat.ltb_lt; exact Hlen).
  destruct matches as [|m0 ms]; [contradiction|]. simpl.
  destruct (String.eqb lp m0 || PyStr.mem lp ms); reflexivity.
Qed.

(** ** complete: longest_prefix is bound when it is read *)

Lemma scan_paths_error (w : world F) (text : string) (paths : list string) :
  forall executables e,
    scan_paths os w text paths executables = inl e -> exists e', e = OSError e'.
Proof.
  induction paths as [|d paths IH]; intros executables e; simpl; [discriminate|].
  destruct (negb (isdir os (fs w) (cwd w) d)); [apply IH|].
  destruct (listdir os (fs w) (cwd w) d) as [e0|files]; [|apply IH].
  destruct (os_kind e0); try apply IH; intros [= <-]; eauto.
Qed.

Lemma complete_name_error (text : string) (state : nat) (g : globals)
    (w : world F) :
  prefix_bound g ->
  prefix_bound (snd (fst (complete os text state g w))) /\
  is_name_error (fst (fst (complete os text state g w))) = false.
Proof.
  intros Hg.
  destruct (complete_prefix_bound os text state g w Hg) as [Hb Hn].
  split; [exact Hb|].
  destruct (fst (fst (complete os text state g w))) as [a|e|c] eqn:E;
    try reflexivity.
  destruct e as [e|e|n|t|]; try reflexivity. exfalso.
  revert E. unfold complete.
  repeat match goal with
    | |- context [if ?b then (Ret ?x, g, w) else _] =>
        destruct b; [discriminate|]
    end.
  assert (Hd : forall g0,
             fst (fst (complete_display text state g0 w)) = Raise (NameError n) ->
             n = "longest_prefix").
  { intros g0. unfold complete_display, complete_indexed.
    repeat match goal with
      | |- context [match ?x with _ => _ end] => destruct x
      end; simpl; intros [=]; congruence. }
  destruct (negb (String.eqb text (last_text g)) || (state =? 0)%nat).
  - destruct (find_completions os w text) as [e|[ms lp]] eqn:Ef.
    + simpl. intros [= ->]. unfold find_completions in Ef.
      destruct (scan_paths os w text _ []) as [e'|ex] eqn:Es.
      * injection Ef as ->. apply scan_paths_error in Es.
        destruct Es as (e0 & [=]).
      * destruct (PyStr.sort _); discriminate.
    + repeat match goal with
        | |- context [if ?b then _ else _] => destruct b
        end; simpl; intros E; try discriminate E; apply Hd in E; subst n;
        apply Hn; reflexivity.
  - intros E. apply Hd in E. subst n. apply Hn. reflexivity.
Qed.

(** X20: although longest_prefix has no binding before the first lookup,
    no run of completion requests from the initial state, whatever the
    texts, the state numbers and the state of the system at each request,
    ever raises NameError: candidates are only recorded together with
    their prefix. *)
Theorem requests_never_name_error (reqs : list (string * nat * world F)) :
  forallb (fun r => negb (is_name_error r)) (requests os reqs initial_globals) = true.
Proof.
  assert (H : forall g, prefix_bound g ->
             forallb (fun r => negb (is_name_error r)) (requests os reqs g) = true).
  { induction reqs as [|[[text state] w] reqs IH]; intros g Hg; [reflexivity|].
    simpl. destruct (complete_name_error text state g w Hg) as [Hb Hn].
    destruct (complete os text state g w) as [[r g'] w']. simpl in *.
    rewrite Hn. simpl. apply IH. exact Hb. }
  apply H. left. reflexivity.
Qed.

End Determinate.

(** l has the one candidate ls. *)
Lemma complete_single_candidate_witness :
  complete Toy.os "l" 0 initial_globals Toy.w0 =
  (Ret (Some "ls ")%string, recorded "l" ["ls"] "ls" false, Toy.w0).
Proof.
  exact (complete_single_candidate Toy.os Toy.w0 initial_globals "l" "ls" "ls"
           eq_refl eq_refl).
Defined.

(** pw extends to pwd, which is a candidate beside pwdx. *)
Lemma complete_extends_text_witness :
  complete Toy.os "pw" 0 initial_globals Toy.w_pwdx =
    (Ret (Some (if PyStr.mem "pwd" ["pwd"; "pwdx"] then "pwd" ++ " " else "pwd")),
     recorded "pw" ["pwd"; "pwdx"] "pwd" false, Toy.w_pwdx) /\
  PyStr.startswith "pwd" "pw" = true /\
  (forall m, In m ["pwd"; "pwdx"] -> PyStr.startswith m "pwd" = true).
Proof.
  apply (complete_extends_text Toy.os Toy.w_pwdx initial_globals "pw" "pwd"
           ["pwd"; "pwdx"]).
  - reflexivity.
  - simpl. lia.
  - reflexivity.
Defined.

(** ** main: the end of the loop *)

Section LoopFacts.

Context {F : Type}.
Variable os : OS F.

(** X21: once a line has ended main, by exit or by an uncaught exception,
    whatever follows on standard input is never read: main ends the same
    way and in the same world. *)
Theorem main_ignores_input_after_end (stdin more : list string) (w : world F) :
  fst (main os stdin w) <> EndOfInput ->
  main os (stdin ++ more) w = main os stdin w.
Proof.
  revert w. induction stdin as [|line stdin IH]; intros w H.
  - simpl in H. contradiction.
  - simpl in *. unfold stdout_write, emit_tty in *.
    destruct (run_line os line _) as [[[]|e|code] w2]; auto.
Qed.



End LoopFacts.

(** [exit 3] ends main; [pwd] after it is not read. *)
Lemma main_ignores_input_after_end_witness :
  main Toy.os (["echo hi"; "exit 3"] ++ ["pwd"]) Toy.w0 =
  main Toy.os ["echo hi"; "exit 3"] Toy.w0.
Proof.
  apply (main_ignores_input_after_end Toy.os ["echo hi"; "exit 3"] ["pwd"] Toy.w0).
  vm_compute. discriminate.
Defined.

(* ================================================================== *)
(** * handle_redirects on lines with operators *)

(** ** The patterns *)

Lemma patterns_shape :
  Re.compile stdout_append_pattern = Some (re_shape op_stdout_append g3_lazy re_tail) /\
  Re.compile stdout_pattern = Some (re_shape op_stdout g3_lazy re_tail) /\
  Re.compile stderr_append_pattern = Some (re_shape op_stderr_append g3_greedy Re.Eol) /\
  Re.compile stderr_pattern = Some (re_shape op_stderr g3_greedy Re.Eol).
Proof. repeat split; reflexivity. Qed.

(** ** Repetition *)

Lemma rep_fails_where (Q : string -> bool) (k : Re.cls) (g : bool)
    (kont : Re.cont) (s : string) :
  (forall a s', Q (String a s') = true -> Q s' = true) ->
  forall lo hi pos cs,
    (forall s' p cs', Q s' = true -> kont s' p cs' = None) ->
    Q s = true ->
    Re.rep k lo hi g s pos cs kont = None.
Proof.
  intros HQ. induction s as [|a s IH]; intros lo hi pos cs Hk Hs.
  - destruct lo; simpl; [|reflexivity].
    destruct g; rewrite (Hk "" pos cs Hs); reflexivity.
  - pose proof (HQ _ _ Hs) as Hs'.
    destruct lo; simpl.
    + destruct g.
      * destruct (Re.cls_match k a && Re.hi_allows hi);
          [rewrite IH by assumption|]; apply Hk; assumption.
      * rewrite (Hk _ pos cs Hs).
        destruct (Re.cls_match k a && Re.hi_allows hi); [|reflexivity].
        apply IH; assumption.
    + destruct (Re.cls_match k a); [|reflexivity]. apply IH; assumption.
Qed.

(** A lazy [.*] passes over a text at no point of which the rest matches. *)
Lemma lazy_skip (x r : string) (kont : Re.cont) :
  forall pos cs,
    all_chars no_newline x = true ->
    (forall x1 x2, x = x1 ++ x2 -> x2 <> "" ->
                   kont (x2 ++ r) (pos + String.length x1) cs = None) ->
    Re.rep Re.Dot 0 None false (x ++ r) pos cs kont =
    Re.rep Re.Dot 0 None false r (pos + String.length x) cs kont.
Proof.
  induction x as [|a x IH]; intros pos cs Hn Hk.
  - simpl. rewrite Nat.add_0_r. reflexivity.
  - simpl in Hn. apply andb_true_iff in Hn. destruct Hn as [Ha Hn].
    change ((String a x) ++ r) with (String a (x ++ r)). simpl Re.rep.
    pose proof (Hk "" (String a x) eq_refl) as H0. simpl in H0.
    rewrite Nat.add_0_r in H0. rewrite H0 by discriminate.
    unfold no_newline in Ha. simpl. rewrite Ha. simpl.
    rewrite IH; [|assumption|].
    + f_equal. simpl. lia.
    + intros x1 x2 E Hx2. specialize (Hk (String a x1) x2).
      simpl in Hk. rewrite E in Hk. specialize (Hk eq_refl Hx2).
      replace (S pos + String.length x1) with (pos + S (String.length x1)) by lia.
      exact Hk.
Qed.

Lemma lazy_here (r : string) (kont : Re.cont) (pos : nat) (cs : Re.caps)
    (res : Re.caps) :
  kont r pos cs = Some res ->
  Re.rep Re.Dot 0 None false r pos cs kont = Some res.
Proof. intros H. destruct r; simpl; rewrite H; reflexivity. Qed.

(** A greedy [\s+] takes the whole of a run of white space when the rest
    matches after it. *)
Lemma ws_greedy (ws r : string) (kont : Re.cont) (res : Re.caps) :
  forall lo pos cs,
    lo <= 1 -> (lo = 1 -> ws <> "") ->
    all_chars PyStr.isspace ws = true -> head_space r = false ->
    kont r (pos + String.length ws) cs = Some res ->
    Re.rep Re.Space lo None true (ws ++ r) pos cs kont = Some res.
Proof.
  induction ws as [|a ws IH]; intros lo pos cs Hlo Hne Hws Hr Hk.
  - destruct lo as [|lo]; [|exfalso; apply Hne; [lia|reflexivity]].
    simpl in *. rewrite Nat.add_0_r in Hk.
    destruct r as [|b r]; simpl; [exact Hk|].
    simpl in Hr. rewrite Hr. simpl. exact Hk.
  - simpl in Hws. apply andb_true_iff in Hws. destruct Hws as [Ha Hws].
    assert (Hrec : Re.rep Re.Space 0 None true (ws ++ r) (S pos) cs kont = Some res).
    { apply IH; try assumption; try lia; try discriminate.
      replace (S pos + String.length ws) with (pos + String.length (String a ws))
        by (simpl; lia). exact Hk. }
    destruct lo as [|[|lo]]; [| |lia]; simpl; rewrite Ha; simpl.
    + rewrite Hrec. reflexivity.
    + exact Hrec.
Qed.

(** A greedy [.*] or [.+] takes a whole text without newline when the rest
    matches at its end. *)
Lemma dot_greedy (x : string) (kont : Re.cont) (res : Re.caps) :
  forall lo pos cs,
    lo <= String.length x ->
    all_chars no_newline x = true ->
    kont "" (pos + String.length x) cs = Some res ->
    Re.rep Re.Dot lo None true x pos cs kont = Some res.
Proof.
  induction x as [|a x IH]; intros lo pos cs Hlo Hn Hk.
  - simpl in Hlo. assert (lo = 0) by lia. subst lo. simpl in *.
    rewrite Nat.add_0_r in Hk. exact Hk.
  - simpl in Hn. apply andb_true_iff in Hn. destruct Hn as [Ha Hn].
    unfold no_newline in Ha.
    assert (Hrec : forall lo', lo' <= String.length x ->
              Re.rep Re.Dot lo' None true x (S pos) cs kont = Some res).
    { intros lo' Hlo'. apply IH; try assumption.
      replace (S pos + String.length x) with (pos + String.length (String a x))
        by (simpl; lia). exact Hk. }
    destruct lo as [|lo]; simpl; rewrite Ha; simpl.
    + rewrite Hrec by lia. reflexivity.
    + apply Hrec. simpl in Hlo. lia.
Qed.

(** ** One operator pattern

    The four patterns have one shape: the lazy first group, white space, the
    operator group, white space, the target group and a tail. What follows
    holds for any operator expression [op] with the spellings [ops]. *)

Lemma all_chars_imp (p q : ascii -> bool) (s : string) :
  (forall c, p c = true -> q c = true) ->
  all_chars p s = true -> all_chars q s = true.
Proof.
  intros Hpq. induction s as [|a s IH]; simpl; [reflexivity|].
  intros H. apply andb_true_iff in H. destruct H as [Ha Hs].
  rewrite (Hpq _ Ha), (IH Hs). reflexivity.
Qed.

Lemma rmatch_cat (r1 r2 : Re.regex) (s : string) (pos : nat) (cs : Re.caps)
    (kont : Re.cont) :
  Re.rmatch (Re.Cat r1 r2) s pos cs kont =
  Re.rmatch r1 s pos cs (fun s1 p1 c1 => Re.rmatch r2 s1 p1 c1 kont).
Proof. reflexivity. Qed.

Lemma rmatch_group (n : nat) (r : Re.regex) (s : string) (pos : nat)
    (cs : Re.caps) (kont : Re.cont) :
  Re.rmatch (Re.Group n r) s pos cs kont =
  Re.rmatch r s pos cs (fun s1 p1 c1 => kont s1 p1 ((n, (pos, p1)) :: c1)).
Proof. reflexivity. Qed.

Lemma rmatch_rep (k : Re.cls) (lo : nat) (hi : option nat) (g : bool)
    (s : string) (pos : nat) (cs : Re.caps) (kont : Re.cont) :
  Re.rmatch (Re.Rep k lo hi g) s pos cs kont = Re.rep k lo hi g s pos cs kont.
Proof. reflexivity. Qed.

Lemma op_free_tail (ops : list string) (a : ascii) (s : string) :
  op_free ops (String a s) = true -> op_free ops s = true.
Proof. simpl. intros H. apply andb_true_iff in H. apply H. Qed.

Lemma op_free_lead (ops : list string) (s : string) :
  op_free ops s = true -> lead_free ops s = true.
Proof.
  induction s as [|a s IH]; simpl; [reflexivity|].
  intros H. apply andb_true_iff in H. destruct H as [Ha Hs].
  destruct (PyStr.isspace a); [|reflexivity].
  rewrite Ha. simpl. apply IH. exact Hs.
Qed.

Section Operator.

Variables (op : Re.regex) (ops : list string).

Hypothesis op_fail : forall rest s pos cs kont,
  starts ops s = false ->
  Re.rmatch (Re.Cat (Re.Group 2 op) (Re.Cat re_ws rest)) s pos cs kont = None.

Hypothesis op_hit : forall o r pos cs (kont : Re.cont) res,
  In o ops ->
  kont r (pos + String.length o) ((2, (pos, pos + String.length o)) :: cs)
  = Some res ->
  Re.rmatch (Re.Group 2 op) (o ++ r) pos cs kont = Some res.

Lemma ws_op_fail (rest : Re.regex) (s : string) (pos : nat) (cs : Re.caps)
    (kont : Re.cont) :
  lead_free ops s = true ->
  Re.rmatch (Re.Cat re_ws (Re.Cat (Re.Group 2 op) (Re.Cat re_ws rest)))
    s pos cs kont = None.
Proof.
  change (Re.rmatch (Re.Cat re_ws (Re.Cat (Re.Group 2 op) (Re.Cat re_ws rest)))
            s pos cs kont)
    with (Re.rep Re.Space 1 None true s pos cs
            (fun s1 p1 c1 =>
               Re.rmatch (Re.Cat (Re.Group 2 op) (Re.Cat re_ws rest)) s1 p1 c1 kont)).
  set (K := fun s1 p1 c1 =>
              Re.rmatch (Re.Cat (Re.Group 2 op) (Re.Cat re_ws rest)) s1 p1 c1 kont).
  assert (H0 : forall s' p,
             starts ops s' = false -> lead_free ops s' = true ->
             Re.rep Re.Space 0 None true s' p cs K = None).
  { induction s' as [|b s' IH]; intros p Hst Hl.
    - simpl. unfold K. apply op_fail. exact Hst.
    - simpl. simpl in Hl. destruct (PyStr.isspace b); simpl.
      + apply andb_true_iff in Hl. destruct Hl as [Hn Hl].
        apply negb_true_iff in Hn. rewrite (IH _ Hn Hl).
        unfold K. apply op_fail. exact Hst.
      + unfold K. apply op_fail. exact Hst. }
  intros Hl. destruct s as [|a s]; simpl; [reflexivity|].
  simpl in Hl. destruct (PyStr.isspace a); [|reflexivity].
  apply andb_true_iff in Hl. destruct Hl as [Hn Hl].
  apply negb_true_iff in Hn. apply H0; assumption.
Qed.

(** A line without the operator after white space has no match. *)
Lemma shape_fails (g3 tail : Re.regex) (whole s : string) :
  forall pos, op_free ops s = true ->
              Re.search_from (re_shape op g3 tail) whole s pos = None.
Proof.
  assert (Hm : forall s pos, op_free ops s = true ->
             Re.rmatch (re_shape op g3 tail) s pos []
               (fun _ p cs => Some ((0, (pos, p)) :: cs)) = None).
  { intros s0 pos H. unfold re_shape.
    rewrite rmatch_cat, rmatch_group, rmatch_rep.
    apply (rep_fails_where (op_free ops)).
    - apply op_free_tail.
    - intros s' p cs' Hs'.
      apply (ws_op_fail (Re.Cat (Re.Group 3 g3) tail) s' p _ _
               (op_free_lead _ _ Hs')).
    - exact H. }
  induction s as [|a s IH]; intros pos H.
  - cbn [Re.search_from]. rewrite Hm by exact H. reflexivity.
  - cbn [Re.search_from]. rewrite Hm by exact H.
    apply IH. apply (op_free_tail _ _ _ H).
Qed.

(** A line [x w1 o w2 y] matches with the first group on [x] and the
    operator group on [o], when no operator comes earlier and the target
    group and the tail match [y]. *)
Lemma shape_matches (g3 tail : Re.regex) (x w1 o w2 y : string)
    (res : Re.caps) :
  all_chars no_newline x = true ->
  prefix_free ops x (w1 ++ o ++ w2 ++ y) = true ->
  sep w1 = true -> sep w2 = true -> In o ops ->
  head_space (o ++ w2 ++ y) = false -> head_space y = false ->
  Re.rmatch (Re.Cat (Re.Group 3 g3) tail) y
    (String.length (x ++ w1 ++ o ++ w2))
    [(2, (String.length (x ++ w1), String.length (x ++ w1 ++ o)));
     (1, (0, String.length x))] (final 0) = Some res ->
  Re.search_regex (re_shape op g3 tail) (x ++ w1 ++ o ++ w2 ++ y)
  = Some {| Re.subject := x ++ w1 ++ o ++ w2 ++ y; Re.spans := res |}.
Proof.
  intros Hx Hpf Hw1 Hw2 Ho Hho Hhy Hres.
  unfold sep in Hw1, Hw2.
  apply andb_true_iff in Hw1. destruct Hw1 as [Hn1 Hw1].
  apply andb_true_iff in Hw2. destruct Hw2 as [Hn2 Hw2].
  assert (Hs1 : all_chars PyStr.isspace w1 = true).
  { revert Hw1. apply all_chars_imp. intros c Hc. unfold hspace in Hc.
    apply andb_true_iff in Hc. apply Hc. }
  assert (Hs2 : all_chars PyStr.isspace w2 = true).
  { revert Hw2. apply all_chars_imp. intros c Hc. unfold hspace in Hc.
    apply andb_true_iff in Hc. apply Hc. }
  assert (Hne1 : w1 <> "") by (intros ->; discriminate).
  assert (Hne2 : w2 <> "") by (intros ->; discriminate).
  set (line := x ++ w1 ++ o ++ w2 ++ y).
  assert (Hm : Re.rmatch (re_shape op g3 tail) line 0 [] (final 0) = Some res).
  { unfold re_shape, line. rewrite rmatch_cat, rmatch_group, rmatch_rep.
    rewrite lazy_skip.
    - apply lazy_here. simpl Nat.add.
      rewrite rmatch_cat. unfold re_ws at 1. rewrite rmatch_rep.
      apply ws_greedy; [lia|intros _; assumption|assumption|assumption|].
      rewrite rmatch_cat.
      apply op_hit; [exact Ho|].
      rewrite rmatch_cat. unfold re_ws at 1. rewrite rmatch_rep.
      apply ws_greedy; [lia|intros _; assumption|assumption|assumption|].
      rewrite !length_app, !Nat.add_assoc in Hres. exact Hres.
    - exact Hx.
    - intros x1 x2 E Hx2.
      apply (ws_op_fail (Re.Cat (Re.Group 3 g3) tail)).
      subst x. clear - Hpf Hx2. revert Hpf.
      induction x1 as [|a x1 IH]; simpl.
      + destruct x2 as [|b x2]; [contradiction|].
        intros H. apply andb_true_iff in H. apply H.
      + intros H. apply andb_true_iff in H. apply IH. apply H. }
  unfold Re.search_regex. fold line.
  destruct line as [|a l] eqn:E; cbn [Re.search_from];
    change (fun (_ : string) (p : nat) (cs : Re.caps) => Some ((0, (0, p)) :: cs))
      with (final 0); rewrite Hm; reflexivity.
Qed.

End Operator.

(** ** The four operator expressions *)

Ltac split_ifs :=
  repeat match goal with
         | H : context [if ?b then _ else _] |- _ =>
             let E := fresh "E" in destruct b eqn:E; cbn in H
         | |- context [if ?b then _ else _] =>
             let E := fresh "E" in destruct b eqn:E; cbn
         end.

Ltac by_chars :=
  try discriminate; try reflexivity;
  try match goal with
      | H : _ && false = true |- _ => rewrite andb_false_r in H; discriminate
      end;
  repeat match goal with
         | H : Ascii.eqb _ _ = true |- _ => apply Ascii.eqb_eq in H; subst
         end;
  try discriminate.

Ltac op_fails_tac :=
  intros rest s pos cs kont H; unfold starts, begins in H;
  destruct s as [|a [|b [|c [|d s]]]];
  cbn in H |- *; split_ifs; by_chars.

Lemma stdout_append_fail : forall rest s pos cs kont,
  starts ops_stdout_append s = false ->
  Re.rmatch (Re.Cat (Re.Group 2 op_stdout_append) (Re.Cat re_ws rest))
    s pos cs kont = None.
Proof. op_fails_tac. Qed.

Lemma stdout_fail : forall rest s pos cs kont,
  starts ops_stdout s = false ->
  Re.rmatch (Re.Cat (Re.Group 2 op_stdout) (Re.Cat re_ws rest))
    s pos cs kont = None.
Proof. op_fails_tac. Qed.

Lemma stderr_append_fail : forall rest s pos cs kont,
  starts ops_stderr_append s = false ->
  Re.rmatch (Re.Cat (Re.Group 2 op_stderr_append) (Re.Cat re_ws rest))
    s pos cs kont = None.
Proof. op_fails_tac. Qed.

Lemma stderr_fail : forall rest s pos cs kont,
  starts ops_stderr s = false ->
  Re.rmatch (Re.Cat (Re.Group 2 op_stderr) (Re.Cat re_ws rest))
    s pos cs kont = None.
Proof. op_fails_tac. Qed.

Ltac op_hits_tac :=
  intros o r pos cs kont res Ho H;
  repeat (destruct Ho as [<-|Ho]; [|]); try contradiction;
  cbn in H |- *;
  rewrite ?Nat.add_1_r in H;
  replace (pos + 2) with (S (S pos)) in H by lia;
  replace (pos + 3) with (S (S (S pos))) in H by lia;
  rewrite ?H; reflexivity.

Lemma stdout_append_hit : forall o r pos cs (kont : Re.cont) res,
  In o ops_stdout_append ->
  kont r (pos + String.length o) ((2, (pos, pos + String.length o)) :: cs)
  = Some res ->
  Re.rmatch (Re.Group 2 op_stdout_append) (o ++ r) pos cs kont = Some res.
Proof. op_hits_tac. Qed.

Lemma stdout_hit : forall o r pos cs (kont : Re.cont) res,
  In o ops_stdout ->
  kont r (pos + String.length o) ((2, (pos, pos + String.length o)) :: cs)
  = Some res ->
  Re.rmatch (Re.Group 2 op_stdout) (o ++ r) pos cs kont = Some res.
Proof. op_hits_tac. Qed.

Lemma stderr_append_hit : forall o r pos cs (kont : Re.cont) res,
  In o ops_stderr_append ->
  kont r (pos + String.length o) ((2, (pos, pos + String.length o)) :: cs)
  = Some res ->
  Re.rmatch (Re.Group 2 op_stderr_append) (o ++ r) pos cs kont = Some res.
Proof. op_hits_tac. Qed.

Lemma stderr_hit : forall o r pos cs (kont : Re.cont) res,
  In o ops_stderr ->
  kont r (pos + String.length o) ((2, (pos, pos + String.length o)) :: cs)
  = Some res ->
  Re.rmatch (Re.Group 2 op_stderr) (o ++ r) pos cs kont = Some res.
Proof. op_hits_tac. Qed.

(** ** The target group and the tail *)

Lemma isspace_no_newline (a : ascii) :
  PyStr.isspace a = false -> no_newline a = true.
Proof.
  intros H. unfold no_newline. apply negb_true_iff.
  destruct (Ascii.eqb a PyStr.newline) eqn:E; [|reflexivity].
  apply Ascii.eqb_eq in E. subst a. vm_compute in H. discriminate.
Qed.

Lemma hspace_split (w : string) :
  sep w = true ->
  w <> "" /\ all_chars PyStr.isspace w = true /\ all_chars no_newline w = true /\
  head_space w = true.
Proof.
  unfold sep. intros H. apply andb_true_iff in H. destruct H as [Hn Hw].
  assert (Hs : all_chars PyStr.isspace w = true).
  { revert Hw. apply all_chars_imp. intros c Hc. unfold hspace in Hc.
    apply andb_true_iff in Hc. apply Hc. }
  repeat split.
  - intros ->. discriminate.
  - exact Hs.
  - revert Hw. apply all_chars_imp. intros c Hc. unfold hspace in Hc.
    apply andb_true_iff in Hc. apply Hc.
  - destruct w as [|a w]; [discriminate|]. simpl in Hs |- *.
    apply andb_true_iff in Hs. apply Hs.
Qed.

Lemma solid_split (t : string) :
  solid t = true ->
  exists a t', t = String a t' /\ PyStr.isspace a = false /\ not_gt a = true /\
               all_chars solid_char t' = true.
Proof.
  unfold solid. intros H. apply andb_true_iff in H. destruct H as [Hn Ht].
  destruct t as [|a t']; [discriminate|]. simpl in Ht.
  apply andb_true_iff in Ht. destruct Ht as [Ha Ht].
  unfold solid_char in Ha. apply andb_true_iff in Ha. destruct Ha as [Ha1 Ha2].
  apply negb_true_iff in Ha1. exists a, t'. auto.
Qed.

Lemma solid_no_newline (t : string) :
  all_chars solid_char t = true -> all_chars no_newline t = true.
Proof.
  apply all_chars_imp. intros c Hc. unfold solid_char in Hc.
  apply andb_true_iff in Hc. destruct Hc as [Hc _].
  apply negb_true_iff in Hc. apply isspace_no_newline. exact Hc.
Qed.

(** Inside a target the tail does not match. *)
Lemma tail_inside (a : ascii) (s : string) (pos : nat) (cs : Re.caps)
    (kont : Re.cont) :
  PyStr.isspace a = false ->
  Re.rmatch re_tail (String a s) pos cs kont = None.
Proof.
  intros Ha. pose proof (isspace_no_newline a Ha) as Hn.
  unfold no_newline in Hn. apply negb_true_iff in Hn.
  unfold re_tail, re_ws. cbn [Re.rmatch Re.rep Re.cls_match]. rewrite Ha.
  unfold Re.at_eol. destruct s; [rewrite Hn|]; reflexivity.
Qed.

(** At the end of the text the tail matches by [$]. *)
Lemma tail_at_end (pos : nat) (cs : Re.caps) (kont : Re.cont) :
  Re.rmatch re_tail "" pos cs kont = kont "" pos cs.
Proof.
  unfold re_tail, re_ws. cbn [Re.rmatch Re.rep Re.at_eol].
  destruct (kont "" pos cs); reflexivity.
Qed.

(** The lazy target group stops at the first point where the tail matches:
    not inside a target without white space. *)
Lemma lazy_target (t r : string) (pos : nat) (cs : Re.caps) (kont : Re.cont)
    (res : Re.caps) :
  solid t = true ->
  Re.rmatch re_tail r (pos + String.length t)
    ((3, (pos, pos + String.length t)) :: cs) kont = Some res ->
  Re.rmatch (Re.Cat (Re.Group 3 g3_lazy) re_tail) (t ++ r) pos cs kont = Some res.
Proof.
  intros Ht Hr. destruct (solid_split t Ht) as (a & t' & -> & Ha & _ & Ht').
  rewrite rmatch_cat, rmatch_group. unfold g3_lazy. rewrite rmatch_rep.
  change (String a t' ++ r) with (String a (t' ++ r)).
  cbn [Re.rep Re.cls_match Re.hi_pred].
  pose proof (isspace_no_newline a Ha) as Hn. unfold no_newline in Hn.
  rewrite Hn.
  rewrite lazy_skip.
  - apply lazy_here. simpl String.length in Hr.
    replace (S pos + String.length t') with (pos + S (String.length t')) by lia.
    exact Hr.
  - apply solid_no_newline. exact Ht'.
  - intros x1 x2 E Hx2. destruct x2 as [|b x2]; [contradiction|].
    change (String b x2 ++ r) with (String b (x2 ++ r)).
    apply tail_inside.
    subst t'. rewrite all_chars_app in Ht'. apply andb_true_iff in Ht'.
    destruct Ht' as [_ Hb]. simpl in Hb. apply andb_true_iff in Hb.
    destruct Hb as [Hb _]. unfold solid_char in Hb.
    apply andb_true_iff in Hb. destruct Hb as [Hb _].
    apply negb_true_iff in Hb. exact Hb.
Qed.

(** The greedy target group of the stderr patterns takes the rest of the
    line. *)
Lemma greedy_target (e : string) (pos : nat) (cs : Re.caps) (start : nat) :
  e <> "" -> all_chars no_newline e = true ->
  Re.rmatch (Re.Cat (Re.Group 3 g3_greedy) Re.Eol) e pos cs (final start)
  = Some ((0, (start, pos + String.length e))
          :: (3, (pos, pos + String.length e)) :: cs).
Proof.
  intros Hne Hn. rewrite rmatch_cat, rmatch_group. unfold g3_greedy.
  rewrite rmatch_rep. apply dot_greedy.
  - destruct e; [contradiction|simpl; lia].
  - exact Hn.
  - reflexivity.
Qed.

(** White space after which the rest never matches. *)
Lemma ws_fails (ws r : string) (kont : Re.cont) (cs : Re.caps) :
  forall lo pos,
    all_chars PyStr.isspace ws = true -> head_space r = false ->
    (forall ws1 ws2 p, ws = ws1 ++ ws2 -> kont (ws2 ++ r) p cs = None) ->
    Re.rep Re.Space lo None true (ws ++ r) pos cs kont = None.
Proof.
  induction ws as [|a ws IH]; intros lo pos Hws Hr Hk.
  - pose proof (Hk "" "" pos eq_refl) as H0. simpl in H0. simpl.
    destruct lo; destruct r as [|b r]; simpl; try reflexivity; try exact H0.
    + simpl in Hr. rewrite Hr. simpl. exact H0.
    + simpl in Hr. rewrite Hr. reflexivity.
  - simpl in Hws. apply andb_true_iff in Hws. destruct Hws as [Ha Hws].
    assert (Hrec : forall lo' p, Re.rep Re.Space lo' None true (ws ++ r) p cs kont = None).
    { intros lo' p. apply IH; try assumption.
      intros ws1 ws2 p' E. apply (Hk (String a ws1) ws2 p'). simpl. now rewrite E. }
    change (String a ws ++ r) with (String a (ws ++ r)).
    destruct lo; simpl; rewrite Ha; simpl.
    + rewrite Hrec. apply (Hk "" (String a ws) pos eq_refl).
    + apply Hrec.
Qed.

Lemma literal_fails (rest : Re.regex) (s : string) (pos : nat) (cs : Re.caps)
    (kont : Re.cont) :
  after_prefix "2>>" s = None ->
  Re.rmatch (Re.Cat (re_lit "2") (Re.Cat (re_lit ">") (Re.Cat (re_lit ">") rest)))
    s pos cs kont = None.
Proof.
  intros H. destruct s as [|a [|b [|c s]]]; cbn in H |- *; split_ifs; by_chars.
Qed.

(** The tail on what follows a stdout target when a stderr redirection
    comes after it: the rest of the line is taken. *)
Lemma tail_stderr (w3 w4 e : string) (eo : err_op) (pos : nat) (cs : Re.caps)
    (kont : Re.cont) (res : Re.caps) :
  sep w3 = true -> sep w4 = true -> all_chars no_newline e = true ->
  kont "" (pos + String.length (w3 ++ err_text eo ++ w4 ++ e)) cs = Some res ->
  Re.rmatch re_tail (w3 ++ err_text eo ++ w4 ++ e) pos cs kont = Some res.
Proof.
  intros H3 H4 He Hk.
  destruct (hspace_split w3 H3) as (Hn3 & Hs3 & Hl3 & Hh3).
  destruct (hspace_split w4 H4) as (Hn4 & Hs4 & Hl4 & Hh4).
  assert (Hrest : all_chars no_newline (w4 ++ e) = true).
  { rewrite all_chars_app, Hl4, He. reflexivity. }
  rewrite !length_app in Hk.
  destruct eo; simpl err_text in *.
  - (* 2> : the first alternative fails, the third one matches *)
    unfold re_tail.
    assert (H1 : forall k', Re.rmatch
               (Re.Cat re_ws (Re.Cat (re_lit "2") (Re.Cat (re_lit ">")
                  (Re.Cat (re_lit ">") (Re.Rep Re.Dot 0 None true)))))
               (w3 ++ "2>" ++ w4 ++ e) pos cs k' = None).
    { intros k'. rewrite rmatch_cat. unfold re_ws. rewrite rmatch_rep.
      apply ws_fails; [exact Hs3|reflexivity|].
      intros ws1 ws2 p E. apply literal_fails.
      destruct ws2 as [|b ws2].
      - destruct w4 as [|d w4]; [contradiction|]. simpl in Hh4 |- *.
        destruct (Ascii.eqb d ">") eqn:Ed; [|reflexivity].
        apply Ascii.eqb_eq in Ed. subst d. vm_compute in Hh4. discriminate.
      - subst w3. rewrite all_chars_app in Hs3. apply andb_true_iff in Hs3.
        destruct Hs3 as [_ Hb]. simpl in Hb. apply andb_true_iff in Hb.
        destruct Hb as [Hb _]. simpl.
        destruct (Ascii.eqb b "2") eqn:Eb; [|reflexivity].
        apply Ascii.eqb_eq in Eb. subst b. vm_compute in Hb. discriminate. }
    cbn [Re.rmatch] in H1 |- *. rewrite H1.
    assert (He0 : Re.at_eol (w3 ++ "2>" ++ w4 ++ e) = false).
    { destruct w3 as [|a [|b w3]]; [contradiction|reflexivity|reflexivity]. }
    rewrite He0.
    assert (H3' : Re.rep Re.Space 1 None true (w3 ++ "2>" ++ w4 ++ e) pos cs
              (fun s1 p1 c1 =>
                 Re.rmatch (Re.Cat (re_lit "2") (Re.Cat (re_lit ">")
                   (Re.Rep Re.Dot 0 None true))) s1 p1 c1 kont) = Some res).
    { apply ws_greedy; [lia|intros _; exact Hn3|exact Hs3|reflexivity|].
      cbn [Re.rmatch re_lit Re.cls_match append]. cbn [Ascii.eqb Bool.eqb].
      apply dot_greedy; [lia|exact Hrest|]. rewrite length_app.
      rewrite <- Hk. f_equal. simpl. lia. }
    cbn [Re.rmatch] in H3'. unfold re_ws. cbn [Re.rmatch]. rewrite H3'. reflexivity.
  - (* 2>> : the first alternative matches *)
    unfold re_tail.
    assert (H1 : Re.rep Re.Space 1 None true (w3 ++ "2>>" ++ w4 ++ e) pos cs
              (fun s1 p1 c1 =>
                 Re.rmatch (Re.Cat (re_lit "2") (Re.Cat (re_lit ">")
                   (Re.Cat (re_lit ">") (Re.Rep Re.Dot 0 None true)))) s1 p1 c1 kont)
              = Some res).
    { apply ws_greedy; [lia|intros _; exact Hn3|exact Hs3|reflexivity|].
      cbn [Re.rmatch re_lit Re.cls_match append]. cbn [Ascii.eqb Bool.eqb].
      apply dot_greedy; [lia|exact Hrest|]. rewrite length_app.
      rewrite <- Hk. f_equal. simpl. lia. }
    unfold re_ws. cbn [Re.rmatch] in H1 |- *. rewrite H1. reflexivity.
Qed.

(** ** Where an operator can begin *)

Lemma is_spelling_cases (o : string) :
  is_spelling o = true ->
  o = ">" \/ o = "1>" \/ o = ">>" \/ o = "1>>" \/ o = "2>" \/ o = "2>>".
Proof.
  unfold is_spelling, spellings. cbn [existsb]. rewrite !orb_true_iff.
  rewrite !String.eqb_eq. intuition discriminate.
Qed.

Ltac spelling_cases H :=
  apply is_spelling_cases in H;
  destruct H as [->|[->|[->|[->|[->| ->]]]]].

Lemma starts_cons (o : string) (ops : list string) (s : string) :
  starts (o :: ops) s = begins o s || starts ops s.
Proof. reflexivity. Qed.

Lemma begins_space (o s : string) :
  is_spelling o = true -> head_space s = true -> begins o s = false.
Proof.
  intros Ho Hs. destruct s as [|a s]; [discriminate|]. simpl in Hs.
  spelling_cases Ho; unfold begins; cbn [after_prefix];
    (destruct (Ascii.eqb a _) eqn:E; [|reflexivity]);
    apply Ascii.eqb_eq in E; subst a; vm_compute in Hs; discriminate.
Qed.

Lemma begins_no_gt (o s : string) :
  is_spelling o = true -> gt2 s = false -> begins o s = false.
Proof.
  intros Ho Hs.
  destruct s as [|a [|b s]]; unfold gt2, is_gt in Hs;
    try (apply orb_false_iff in Hs; destruct Hs as [Ha Hb]);
    spelling_cases Ho; unfold begins; cbn [after_prefix];
    rewrite ?Hs, ?Ha, ?Hb; try reflexivity;
    repeat match goal with
           | |- context [if Ascii.eqb ?x ?y then _ else _] =>
               destruct (Ascii.eqb x y) eqn:?
           end; try reflexivity; try discriminate.
Qed.

Lemma begins_other (o o' : string) (b : ascii) (r : string) :
  is_spelling o = true -> is_spelling o' = true -> String.eqb o' o = false ->
  PyStr.isspace b = true -> begins o (o' ++ String b r) = false.
Proof.
  intros Ho Ho' Hd Hb.
  spelling_cases Ho; spelling_cases Ho'; try discriminate Hd;
    unfold begins; cbn [after_prefix append Ascii.eqb Bool.eqb];
    try reflexivity;
    (destruct (Ascii.eqb b ">") eqn:E;
     [apply Ascii.eqb_eq in E; subst b; vm_compute in Hb; discriminate
     |reflexivity]).
Qed.

Lemma starts_space (ops : list string) (s : string) :
  only_spellings ops = true -> head_space s = true -> starts ops s = false.
Proof.
  intros Hops Hs. induction ops as [|o ops IH]; [reflexivity|].
  simpl in Hops. apply andb_true_iff in Hops. destruct Hops as [Ho Hops].
  rewrite starts_cons, (begins_space o s Ho Hs), (IH Hops). reflexivity.
Qed.

Lemma starts_no_gt (ops : list string) (s : string) :
  only_spellings ops = true -> gt2 s = false -> starts ops s = false.
Proof.
  intros Hops Hs. induction ops as [|o ops IH]; [reflexivity|].
  simpl in Hops. apply andb_true_iff in Hops. destruct Hops as [Ho Hops].
  rewrite starts_cons, (begins_no_gt o s Ho Hs), (IH Hops). reflexivity.
Qed.

Lemma starts_other (ops : list string) (o' : string) (b : ascii) (r : string) :
  only_spellings ops = true -> is_spelling o' = true -> mem_ops o' ops = false ->
  PyStr.isspace b = true -> starts ops (o' ++ String b r) = false.
Proof.
  intros Hops Ho' Hm Hb. induction ops as [|o ops IH]; [reflexivity|].
  simpl in Hops. apply andb_true_iff in Hops. destruct Hops as [Ho Hops].
  simpl in Hm. apply orb_false_iff in Hm. destruct Hm as [Hd Hm].
  rewrite starts_cons, (begins_other o o' b r Ho Ho' Hd Hb), (IH Hops Hm).
  reflexivity.
Qed.

(** ** Lines made of a command, operators and targets *)

Section Segments.

Variable ops : list string.
Hypothesis Hops : only_spellings ops = true.

Lemma prefix_free_app (a b r : string) :
  prefix_free ops (a ++ b) r = prefix_free ops a (b ++ r) && prefix_free ops b r.
Proof.
  induction a as [|c a IH]; [reflexivity|].
  change (String c a ++ b) with (String c (a ++ b)). cbn [prefix_free].
  rewrite IH. change (String c (a ++ b)) with (String c a ++ b).
  rewrite append_assoc, andb_assoc. reflexivity.
Qed.

Lemma prefix_free_lead (x r : string) :
  x <> "" -> prefix_free ops x r = true -> lead_free ops (x ++ r) = true.
Proof.
  destruct x as [|a x]; [contradiction|]. intros _ H. cbn [prefix_free] in H.
  apply andb_true_iff in H. apply H.
Qed.

Lemma lead_free_nospace (s : string) :
  head_space s = false -> lead_free ops s = true.
Proof. destruct s as [|a s]; simpl; [reflexivity|]. intros ->. reflexivity. Qed.

Lemma prefix_free_cmd (c r : string) :
  cmd_ok c = true -> head_space r = true -> prefix_free ops c r = true.
Proof.
  unfold cmd_ok. intros Hc Hr. apply andb_true_iff in Hc. destruct Hc as [Hc He].
  induction c as [|a c IH]; [reflexivity|].
  simpl in Hc. apply andb_true_iff in Hc. destruct Hc as [Ha Hc].
  assert (He' : ends_nonspace c = true).
  { destruct c; [reflexivity|exact He]. }
  specialize (IH Hc He'). cbn [prefix_free]. rewrite IH, andb_true_r.
  change (String a c ++ r) with (String a (c ++ r)). cbn [lead_free].
  destruct (PyStr.isspace a) eqn:Ea; [|reflexivity].
  destruct c as [|b c]; [simpl in He; rewrite Ea in He; discriminate|].
  rewrite (prefix_free_lead (String b c) r) by (discriminate || assumption).
  rewrite andb_true_r. apply negb_true_iff. apply starts_no_gt; [exact Hops|].
  simpl in Hc. apply andb_true_iff in Hc. destruct Hc as [Hb Hc].
  apply andb_true_iff in Hb. destruct Hb as [Hb _].
  unfold not_gt in Hb. apply negb_true_iff in Hb.
  destruct c as [|d c].
  - destruct r as [|d r]; [discriminate|]. simpl in Hr |- *. rewrite Hb. simpl.
    unfold is_gt. destruct (Ascii.eqb d ">") eqn:Ed; [|reflexivity].
    apply Ascii.eqb_eq in Ed. subst d. vm_compute in Hr. discriminate.
  - simpl in Hc. apply andb_true_iff in Hc. destruct Hc as [Hd _].
    apply andb_true_iff in Hd. destruct Hd as [Hd _].
    unfold not_gt in Hd. apply negb_true_iff in Hd.
    simpl. rewrite Hb, Hd. reflexivity.
Qed.

Lemma prefix_free_ws (w s : string) :
  all_chars PyStr.isspace w = true -> head_space s = false ->
  starts ops s = false -> prefix_free ops w s = true.
Proof.
  intros Hw Hs Hst. induction w as [|a w IH]; [reflexivity|].
  simpl in Hw. apply andb_true_iff in Hw. destruct Hw as [Ha Hw].
  specialize (IH Hw). cbn [prefix_free]. rewrite IH, andb_true_r.
  change (String a w ++ s) with (String a (w ++ s)). cbn [lead_free]. rewrite Ha.
  destruct w as [|b w].
  - simpl. rewrite Hst. simpl. apply lead_free_nospace. exact Hs.
  - rewrite (prefix_free_lead (String b w) s) by (discriminate || assumption).
    rewrite andb_true_r. apply negb_true_iff. apply starts_space; [exact Hops|].
    simpl in Hw |- *. apply andb_true_iff in Hw. apply Hw.
Qed.

Lemma prefix_free_nospace (x r : string) :
  all_chars (fun a => negb (PyStr.isspace a)) x = true ->
  prefix_free ops x r = true.
Proof.
  induction x as [|a x IH]; [reflexivity|]. simpl. intros H.
  apply andb_true_iff in H. destruct H as [Ha Hx].
  apply negb_true_iff in Ha. rewrite Ha, (IH Hx). reflexivity.
Qed.

Lemma op_free_app (x r : string) :
  prefix_free ops x r = true -> op_free ops r = true ->
  op_free ops (x ++ r) = true.
Proof.
  intros Hx Hr. induction x as [|a x IH]; [exact Hr|].
  cbn [prefix_free] in Hx. apply andb_true_iff in Hx. destruct Hx as [Hl Hx].
  change (String a x ++ r) with (String a (x ++ r)) in *.
  cbn [op_free]. rewrite (IH Hx), andb_true_r.
  cbn [lead_free] in Hl. destruct (PyStr.isspace a); [|reflexivity].
  apply andb_true_iff in Hl. apply Hl.
Qed.

Lemma spelling_nospace (o : string) :
  is_spelling o = true ->
  all_chars (fun a => negb (PyStr.isspace a)) o = true /\ head_space o = false /\
  all_chars no_newline o = true /\ o <> "".
Proof.
  intros Ho. spelling_cases Ho; repeat split; try reflexivity; discriminate.
Qed.

Lemma solid_nospace (t : string) :
  solid t = true ->
  all_chars (fun a => negb (PyStr.isspace a)) t = true /\
  all_chars no_newline t = true /\ t <> "" /\
  (forall r, head_space (t ++ r) = false) /\
  (forall r, r = "" \/ head_space r = true -> gt2 (t ++ r) = false).
Proof.
  intros Ht. destruct (solid_split t Ht) as (a & t' & -> & Ha & Hg & Ht').
  unfold not_gt in Hg. apply negb_true_iff in Hg.
  repeat split.
  - simpl. rewrite Ha. simpl. revert Ht'. apply all_chars_imp.
    intros c Hc. unfold solid_char in Hc. apply andb_true_iff in Hc. apply Hc.
  - simpl. rewrite (isspace_no_newline a Ha). simpl.
    apply solid_no_newline. exact Ht'.
  - discriminate.
  - intros r. simpl. exact Ha.
  - intros r Hr. destruct t' as [|b t'].
    + destruct r as [|d r]; simpl; [exact Hg|]. rewrite Hg. simpl.
      destruct Hr as [Hr|Hr]; [discriminate|]. simpl in Hr.
      unfold is_gt. destruct (Ascii.eqb d ">") eqn:Ed; [|reflexivity].
      apply Ascii.eqb_eq in Ed. subst d. vm_compute in Hr. discriminate.
    + simpl in Ht' |- *. apply andb_true_iff in Ht'. destruct Ht' as [Hb _].
      unfold solid_char in Hb. apply andb_true_iff in Hb. destruct Hb as [_ Hb].
      unfold not_gt in Hb. apply negb_true_iff in Hb. rewrite Hg, Hb. reflexivity.
Qed.

(** White space, an operator that is none of [ops], white space, a target:
    no operator of [ops] in them. *)
Lemma redirection_free (w o v t rest : string) :
  sep w = true -> is_spelling o = true -> mem_ops o ops = false ->
  sep v = true -> solid t = true ->
  rest = "" \/ head_space rest = true -> op_free ops rest = true ->
  op_free ops (w ++ o ++ v ++ t ++ rest) = true.
Proof.
  intros Hw Ho Hm Hv Ht Hr Hfree.
  destruct (hspace_split w Hw) as (Hnw & Hsw & _ & _).
  destruct (hspace_split v Hv) as (Hnv & Hsv & _ & Hhv).
  destruct (spelling_nospace o Ho) as (Hso & Hho & _ & Hno).
  destruct (solid_nospace t Ht) as (Hst & _ & _ & Hht & Hgt).
  apply op_free_app.
  - apply prefix_free_ws; [exact Hsw| |].
    + destruct o; [contradiction|exact Hho].
    + destruct v as [|b v]; [contradiction|].
      change (String b v ++ t ++ rest) with (String b (v ++ t ++ rest)).
      apply starts_other; assumption.
  - apply op_free_app; [apply prefix_free_nospace; exact Hso|].
    apply op_free_app.
    + apply prefix_free_ws; [exact Hsv|apply Hht|].
      apply starts_no_gt; [exact Hops|]. apply Hgt. exact Hr.
    + apply op_free_app; [apply prefix_free_nospace; exact Hst|exact Hfree].
Qed.

(** The same inside a command line. *)
Lemma line_free (c w o v t rest : string) :
  cmd_ok c = true ->
  sep w = true -> is_spelling o = true -> mem_ops o ops = false ->
  sep v = true -> solid t = true ->
  rest = "" \/ head_space rest = true -> op_free ops rest = true ->
  op_free ops (c ++ w ++ o ++ v ++ t ++ rest) = true.
Proof.
  intros Hc Hw Ho Hm Hv Ht Hr Hfree.
  apply op_free_app.
  - apply prefix_free_cmd; [exact Hc|]. destruct (hspace_split w Hw) as (Hn & Hs & _ & Hh).
    destruct w; [contradiction|exact Hh].
  - apply redirection_free; assumption.
Qed.

(** Everything before a second redirection. *)
Lemma line_prefix_free (c w o v t r : string) :
  cmd_ok c = true ->
  sep w = true -> is_spelling o = true -> mem_ops o ops = false ->
  sep v = true -> solid t = true -> head_space r = true ->
  prefix_free ops (c ++ w ++ o ++ v ++ t) r = true.
Proof.
  intros Hc Hw Ho Hm Hv Ht Hr.
  destruct (hspace_split w Hw) as (Hnw & Hsw & _ & Hhw).
  destruct (hspace_split v Hv) as (Hnv & Hsv & _ & Hhv).
  destruct (spelling_nospace o Ho) as (Hso & Hho & _ & Hno).
  destruct (solid_nospace t Ht) as (Hst & _ & _ & Hht & Hgt).
  rewrite !prefix_free_app, !append_assoc.
  rewrite prefix_free_cmd; [|exact Hc|destruct w; [contradiction|exact Hhw]].
  rewrite prefix_free_ws; [|exact Hsw|destruct o; [contradiction|exact Hho]|].
  - rewrite (prefix_free_nospace o) by exact Hso.
    rewrite prefix_free_ws; [|exact Hsv|apply Hht|].
    + rewrite (prefix_free_nospace t) by exact Hst. reflexivity.
    + apply starts_no_gt; [exact Hops|]. apply Hgt. right. exact Hr.
  - destruct v as [|b v]; [contradiction|].
    change ((String b v ++ t) ++ r) with (String b ((v ++ t) ++ r)).
    apply starts_other; assumption.
Qed.

End Segments.

(** ** What the four searches find *)

Lemma tail_rest (rest : string) (pos : nat) (cs : Re.caps) (kont : Re.cont)
    (res : Re.caps) :
  tail_ok rest ->
  kont "" (pos + String.length rest) cs = Some res ->
  Re.rmatch re_tail rest pos cs kont = Some res.
Proof.
  intros [->|(w3 & eo & w4 & e & -> & H3 & H4 & He)] Hk.
  - rewrite tail_at_end. simpl in Hk. rewrite Nat.add_0_r in Hk. exact Hk.
  - apply tail_stderr; try assumption.
    apply (solid_nospace e He).
Qed.

Lemma tail_ok_head (rest : string) :
  tail_ok rest -> rest = "" \/ head_space rest = true.
Proof.
  intros [->|(w3 & eo & w4 & e & -> & H3 & H4 & He)]; [left; reflexivity|right].
  destruct (hspace_split w3 H3) as (Hn & _ & _ & Hh).
  destruct w3; [contradiction|exact Hh].
Qed.

Lemma err_text_spelling (eo : err_op) : is_spelling (err_text eo) = true.
Proof. destruct eo; reflexivity. Qed.

Lemma out_text_spelling (o : out_op) : is_spelling (out_text o) = true.
Proof. destruct o; reflexivity. Qed.

Lemma tail_ok_free (ops : list string) (rest : string) :
  only_spellings ops = true ->
  (forall eo, mem_ops (err_text eo) ops = false) ->
  tail_ok rest -> op_free ops rest = true.
Proof.
  intros Hops Hm [->|(w3 & eo & w4 & e & -> & H3 & H4 & He)]; [reflexivity|].
  rewrite <- (append_nil_r e).
  apply redirection_free; try assumption; try reflexivity.
  - apply err_text_spelling.
  - apply Hm.
  - left. reflexivity.
Qed.

Lemma groups_of (x w1 o w2 t rest : string) (e2 : nat) (sp2 : nat * nat) :
  let m := {| Re.subject := x ++ w1 ++ o ++ w2 ++ t ++ rest;
              Re.spans := [(0, (0, e2));
                           (3, (String.length (x ++ w1 ++ o ++ w2),
                                String.length (x ++ w1 ++ o ++ w2)
                                + String.length t));
                           (2, sp2); (1, (0, String.length x))] |} in
  Re.group m 1 = x /\ Re.group m 3 = t.
Proof.
  cbv zeta. unfold Re.group. cbn [Re.spans Re.subject Re.span_of Nat.eqb].
  split.
  - rewrite Nat.sub_0_r. cbn [PyStr.drop]. apply take_app_length.
  - replace (x ++ w1 ++ o ++ w2 ++ t ++ rest)
      with ((x ++ w1 ++ o ++ w2) ++ t ++ rest)
      by (rewrite !append_assoc; reflexivity).
    rewrite drop_app_length, Nat.add_comm, Nat.add_sub. apply take_app_length.
Qed.

Lemma in_spelling (ops : list string) (o : string) :
  only_spellings ops = true -> In o ops -> is_spelling o = true.
Proof.
  unfold only_spellings. rewrite forallb_forall. intros H Ho. apply H. exact Ho.
Qed.

Lemma cmd_ok_no_newline (c : string) :
  cmd_ok c = true -> all_chars no_newline c = true.
Proof.
  unfold cmd_ok. intros H. apply andb_true_iff in H. destruct H as [H _].
  revert H. apply all_chars_imp. intros a Ha.
  apply andb_true_iff in Ha. apply Ha.
Qed.

Section Searches.

Variables (op : Re.regex) (ops : list string).

Hypothesis op_fail : forall rest s pos cs kont,
  starts ops s = false ->
  Re.rmatch (Re.Cat (Re.Group 2 op) (Re.Cat re_ws rest)) s pos cs kont = None.

Hypothesis op_hit : forall o r pos cs (kont : Re.cont) res,
  In o ops ->
  kont r (pos + String.length o) ((2, (pos, pos + String.length o)) :: cs)
  = Some res ->
  Re.rmatch (Re.Group 2 op) (o ++ r) pos cs kont = Some res.

Hypothesis Hops : only_spellings ops = true.

(** A stdout pattern on a text, its operator, a target and what may
    follow. *)
Lemma stdout_shape_search_any (x w1 o w2 t rest : string) :
  all_chars no_newline x = true ->
  prefix_free ops x (w1 ++ o ++ w2 ++ t ++ rest) = true ->
  sep w1 = true -> In o ops -> sep w2 = true ->
  solid t = true -> tail_ok rest ->
  exists m,
    Re.search_regex (re_shape op g3_lazy re_tail)
      (x ++ w1 ++ o ++ w2 ++ t ++ rest) = Some m /\
    Re.group m 1 = x /\ Re.group m 3 = t.
Proof.
  intros Hx Hpf H1 Ho H2 Ht Hrest.
  pose proof (in_spelling ops o Hops Ho) as Hsp.
  destruct (spelling_nospace o Hsp) as (_ & Hho & _ & Hno).
  destruct (solid_nospace t Ht) as (_ & _ & _ & Hht & _).
  eexists. split.
  - apply (shape_matches op ops op_fail op_hit g3_lazy re_tail x w1 o w2
             (t ++ rest)); try assumption.
    + destruct o; [contradiction|exact Hho].
    + apply Hht.
    + apply lazy_target; [exact Ht|]. apply tail_rest; [exact Hrest|].
      reflexivity.
  - apply groups_of.
Qed.

Lemma stdout_shape_search (c w1 o w2 t rest : string) :
  cmd_ok c = true -> sep w1 = true -> In o ops -> sep w2 = true ->
  solid t = true -> tail_ok rest ->
  exists m,
    Re.search_regex (re_shape op g3_lazy re_tail)
      (c ++ w1 ++ o ++ w2 ++ t ++ rest) = Some m /\
    Re.group m 1 = c /\ Re.group m 3 = t.
Proof.
  intros Hc H1 Ho H2 Ht Hrest.
  destruct (hspace_split w1 H1) as (Hn1 & _ & _ & Hh1).
  apply stdout_shape_search_any; try assumption.
  - apply cmd_ok_no_newline. exact Hc.
  - apply prefix_free_cmd; [exact Hops|exact Hc|].
    destruct w1; [contradiction|exact Hh1].
Qed.

(** A stderr pattern on a text, its operator and the rest of the line. *)
Lemma stderr_shape_search_any (x w1 o w2 y : string) :
  all_chars no_newline x = true ->
  prefix_free ops x (w1 ++ o ++ w2 ++ y) = true ->
  sep w1 = true -> In o ops -> sep w2 = true ->
  y <> "" -> all_chars no_newline y = true -> head_space y = false ->
  exists m,
    Re.search_regex (re_shape op g3_greedy Re.Eol) (x ++ w1 ++ o ++ w2 ++ y)
    = Some m /\
    Re.group m 1 = x /\ Re.group m 3 = y.
Proof.
  intros Hx Hpf H1 Ho H2 Hne Hnn Hhy.
  pose proof (in_spelling ops o Hops Ho) as Hsp.
  destruct (spelling_nospace o Hsp) as (_ & Hho & _ & Hno).
  eexists. split.
  - apply (shape_matches op ops op_fail op_hit g3_greedy Re.Eol x w1 o w2 y);
      try assumption.
    + destruct o; [contradiction|exact Hho].
    + apply greedy_target; assumption.
  - pose proof (groups_of x w1 o w2 y "" (String.length (x ++ w1 ++ o ++ w2)
                  + String.length y)
                  (String.length (x ++ w1), String.length (x ++ w1 ++ o))) as G.
    cbv zeta in G. rewrite append_nil_r in G. exact G.
Qed.

Lemma stderr_shape_search (x w1 o w2 e : string) :
  all_chars no_newline x = true ->
  prefix_free ops x (w1 ++ o ++ w2 ++ e) = true ->
  sep w1 = true -> In o ops -> sep w2 = true -> solid e = true ->
  exists m,
    Re.search_regex (re_shape op g3_greedy Re.Eol) (x ++ w1 ++ o ++ w2 ++ e)
    = Some m /\
    Re.group m 1 = x /\ Re.group m 3 = e.
Proof.
  intros Hx Hpf H1 Ho H2 He.
  destruct (solid_nospace e He) as (_ & Hne & Hnn & Hhe & _).
  apply stderr_shape_search_any; try assumption.
  rewrite <- (append_nil_r e). apply Hhe.
Qed.

End Searches.

Lemma search_stdout_append_none (line : string) :
  op_free ops_stdout_append line = true ->
  Re.search stdout_append_pattern line = None.
Proof.
  intros H. unfold Re.search. destruct patterns_shape as (E & _). rewrite E.
  apply (shape_fails _ _ stdout_append_fail). exact H.
Qed.

Lemma search_stdout_none (line : string) :
  op_free ops_stdout line = true -> Re.search stdout_pattern line = None.
Proof.
  intros H. unfold Re.search. destruct patterns_shape as (_ & E & _). rewrite E.
  apply (shape_fails _ _ stdout_fail). exact H.
Qed.

Lemma search_stderr_append_none (line : string) :
  op_free ops_stderr_append line = true ->
  Re.search stderr_append_pattern line = None.
Proof.
  intros H. unfold Re.search. destruct patterns_shape as (_ & _ & E & _).
  rewrite E. apply (shape_fails _ _ stderr_append_fail). exact H.
Qed.

Lemma search_stderr_none (line : string) :
  op_free ops_stderr line = true -> Re.search stderr_pattern line = None.
Proof.
  intros H. unfold Re.search. destruct patterns_shape as (_ & _ & _ & E).
  rewrite E. apply (shape_fails _ _ stderr_fail). exact H.
Qed.

(** The stdout searches on a line with a stdout redirection. *)
Lemma stdout_searches (c w1 w2 t rest : string) (o : out_op) :
  cmd_ok c = true -> sep w1 = true -> sep w2 = true -> solid t = true ->
  tail_ok rest ->
  let line := c ++ w1 ++ out_text o ++ w2 ++ t ++ rest in
  exists m, Re.group m 1 = c /\ Re.group m 3 = t /\
    if out_appends o
    then Re.search stdout_append_pattern line = Some m
    else Re.search stdout_append_pattern line = None /\
         Re.search stdout_pattern line = Some m.
Proof.
  intros Hc H1 H2 Ht Hrest line.
  destruct patterns_shape as (Ea & Es & _).
  assert (Happ : out_appends o = true ->
            exists m, Re.search stdout_append_pattern line = Some m /\
                      Re.group m 1 = c /\ Re.group m 3 = t).
  { intros Ho. unfold Re.search. rewrite Ea.
    apply (stdout_shape_search _ _ stdout_append_fail stdout_append_hit);
      try assumption; try reflexivity.
    destruct o; try discriminate; simpl; auto. }
  assert (Hstd : out_appends o = false ->
            Re.search stdout_append_pattern line = None /\
            exists m, Re.search stdout_pattern line = Some m /\
                      Re.group m 1 = c /\ Re.group m 3 = t).
  { intros Ho. split.
    - apply search_stdout_append_none. apply line_free; try assumption;
        try reflexivity.
      + apply out_text_spelling.
      + destruct o; try discriminate; reflexivity.
      + apply tail_ok_head. exact Hrest.
      + apply tail_ok_free; [reflexivity| |exact Hrest].
        intros []; reflexivity.
    - unfold Re.search. rewrite Es.
      apply (stdout_shape_search _ _ stdout_fail stdout_hit);
        try assumption; try reflexivity.
      destruct o; try discriminate; simpl; auto. }
  destruct (out_appends o).
  - destruct (Happ eq_refl) as (m & Hm & G1 & G3). exists m. auto.
  - destruct (Hstd eq_refl) as (Hn & m & Hm & G1 & G3). exists m. auto.
Qed.

(** The stderr searches on a line whose last redirection is a stderr one. *)
Lemma stderr_searches (x w1 w2 e : string) (eo : err_op) :
  all_chars no_newline x = true ->
  (forall ops, only_spellings ops = true ->
               prefix_free ops x (w1 ++ err_text eo ++ w2 ++ e) = true) ->
  sep w1 = true -> sep w2 = true -> solid e = true ->
  let line := x ++ w1 ++ err_text eo ++ w2 ++ e in
  exists m, Re.group m 1 = x /\ Re.group m 3 = e /\
    if err_appends eo
    then Re.search stderr_append_pattern line = Some m
    else Re.search stderr_append_pattern line = None /\
         Re.search stderr_pattern line = Some m.
Proof.
  intros Hx Hpf H1 H2 He line.
  destruct patterns_shape as (_ & _ & Ea & Es).
  destruct eo; simpl err_appends; simpl err_text in *.
  - destruct (stderr_shape_search _ _ stderr_fail stderr_hit eq_refl
                x w1 "2>" w2 e) as (m & Hm & G1 & G3); try assumption.
    + apply Hpf. reflexivity.
    + simpl. auto.
    + exists m. split; [exact G1|]. split; [exact G3|]. split.
      * apply search_stderr_append_none. unfold line.
        apply op_free_app; [apply Hpf; reflexivity|].
        rewrite <- (append_nil_r e).
        apply redirection_free; try assumption; try reflexivity.
        left. reflexivity.
      * unfold Re.search. rewrite Es. exact Hm.
  - destruct (stderr_shape_search _ _ stderr_append_fail stderr_append_hit eq_refl
                x w1 "2>>" w2 e) as (m & Hm & G1 & G3); try assumption.
    + apply Hpf. reflexivity.
    + simpl. auto.
    + exists m. split; [exact G1|]. split; [exact G3|].
      unfold Re.search. rewrite Ea. exact Hm.
Qed.

(** ** handle_redirects on these lines *)

Lemma redirect_stdout (c w1 w2 t : string) (o : out_op) :
  cmd_ok c = true -> sep w1 = true -> sep w2 = true -> solid t = true ->
  handle_redirects (c ++ w1 ++ out_text o ++ w2 ++ t) =
  {| cmd := c; stdout_file := Some t; stderr_file := None;
     append_stdout := out_appends o; append_stderr := false |}.
Proof.
  intros Hc H1 H2 Ht.
  pose proof (stdout_searches c w1 w2 t "" o Hc H1 H2 Ht (or_introl eq_refl)) as S.
  cbv zeta in S. rewrite append_nil_r in S. destruct S as (m & G1 & G3 & S).
  assert (Ea : Re.search stderr_append_pattern
                 (c ++ w1 ++ out_text o ++ w2 ++ t) = None).
  { apply search_stderr_append_none. rewrite <- (append_nil_r t).
    apply line_free; try assumption; try reflexivity.
    - apply out_text_spelling.
    - destruct o; reflexivity.
    - left. reflexivity. }
  assert (Es : Re.search stderr_pattern
                 (c ++ w1 ++ out_text o ++ w2 ++ t) = None).
  { apply search_stderr_none. rewrite <- (append_nil_r t).
    apply line_free; try assumption; try reflexivity.
    - apply out_text_spelling.
    - destruct o; reflexivity.
    - left. reflexivity. }
  unfold handle_redirects. rewrite Ea, Es.
  destruct (out_appends o).
  - rewrite S. cbn. rewrite G1, G3. reflexivity.
  - destruct S as [Sa Ss]. rewrite Sa, Ss. cbn. rewrite G1, G3. reflexivity.
Qed.

Lemma redirect_stderr (c w1 w2 t : string) (eo : err_op) :
  cmd_ok c = true -> sep w1 = true -> sep w2 = true -> solid t = true ->
  handle_redirects (c ++ w1 ++ err_text eo ++ w2 ++ t) =
  {| cmd := c; stdout_file := None; stderr_file := Some t;
     append_stdout := false; append_stderr := err_appends eo |}.
Proof.
  intros Hc H1 H2 Ht.
  destruct (hspace_split w1 H1) as (Hn1 & _ & _ & Hh1).
  assert (Hpf : forall ops, only_spellings ops = true ->
            prefix_free ops c (w1 ++ err_text eo ++ w2 ++ t) = true).
  { intros ops Hops. apply prefix_free_cmd; try assumption.
    destruct w1; [contradiction|exact Hh1]. }
  pose proof (stderr_searches c w1 w2 t eo (cmd_ok_no_newline c Hc) Hpf H1 H2 Ht)
    as S.
  cbv zeta in S. destruct S as (m & G1 & G3 & S).
  assert (Ea : Re.search stdout_append_pattern
                 (c ++ w1 ++ err_text eo ++ w2 ++ t) = None).
  { apply search_stdout_append_none. rewrite <- (append_nil_r t).
    apply line_free; try assumption; try reflexivity.
    - apply err_text_spelling.
    - destruct eo; reflexivity.
    - left. reflexivity. }
  assert (Es : Re.search stdout_pattern
                 (c ++ w1 ++ err_text eo ++ w2 ++ t) = None).
  { apply search_stdout_none. rewrite <- (append_nil_r t).
    apply line_free; try assumption; try reflexivity.
    - apply err_text_spelling.
    - destruct eo; reflexivity.
    - left. reflexivity. }
  unfold handle_redirects. rewrite Ea, Es.
  destruct (err_appends eo).
  - rewrite S. cbn. rewrite G1, G3. reflexivity.
  - destruct S as [Sa Ss]. rewrite Sa, Ss. cbn. rewrite G1, G3. reflexivity.
Qed.

Lemma redirect_both (c w1 w2 t w3 w4 e : string) (o : out_op) (eo : err_op) :
  cmd_ok c = true -> sep w1 = true -> sep w2 = true -> solid t = true ->
  sep w3 = true -> sep w4 = true -> solid e = true ->
  handle_redirects
    (c ++ w1 ++ out_text o ++ w2 ++ t ++ w3 ++ err_text eo ++ w4 ++ e) =
  {| cmd := c; stdout_file := Some t; stderr_file := Some e;
     append_stdout := out_appends o; append_stderr := err_appends eo |}.
Proof.
  intros Hc H1 H2 Ht H3 H4 He.
  assert (Hrest : tail_ok (w3 ++ err_text eo ++ w4 ++ e)).
  { right. exists w3, eo, w4, e. auto. }
  pose proof (stdout_searches c w1 w2 t _ o Hc H1 H2 Ht Hrest) as S.
  cbv zeta in S. destruct S as (m & G1 & G3 & S).
  destruct (hspace_split w1 H1) as (_ & _ & Hl1 & _).
  destruct (hspace_split w2 H2) as (_ & _ & Hl2 & _).
  destruct (hspace_split w3 H3) as (Hn3 & _ & _ & Hh3).
  destruct (spelling_nospace _ (out_text_spelling o)) as (_ & _ & Hlo & _).
  destruct (solid_nospace t Ht) as (_ & Hlt & _ & _ & _).
  set (x := c ++ w1 ++ out_text o ++ w2 ++ t).
  assert (Hline : c ++ w1 ++ out_text o ++ w2 ++ t ++ w3 ++ err_text eo ++ w4 ++ e
                  = x ++ w3 ++ err_text eo ++ w4 ++ e).
  { unfold x. rewrite !append_assoc. reflexivity. }
  assert (Hx : all_chars no_newline x = true).
  { unfold x. rewrite !all_chars_app, (cmd_ok_no_newline c Hc), Hl1, Hlo, Hl2, Hlt.
    reflexivity. }
  assert (Hpf : forall ops, only_spellings ops = true ->
            mem_ops (out_text o) ops = false ->
            prefix_free ops x (w3 ++ err_text eo ++ w4 ++ e) = true).
  { intros ops Hops Hm. unfold x. apply line_prefix_free; try assumption.
    - apply out_text_spelling.
    - destruct w3; [contradiction|exact Hh3]. }
  assert (Hp1 : prefix_free ops_stderr x (w3 ++ err_text eo ++ w4 ++ e) = true).
  { apply Hpf; [reflexivity|]. destruct o; reflexivity. }
  assert (Hp2 : prefix_free ops_stderr_append x (w3 ++ err_text eo ++ w4 ++ e)
                = true).
  { apply Hpf; [reflexivity|]. destruct o; reflexivity. }
  destruct patterns_shape as (_ & _ & Ea & Es).
  assert (E : exists m', Re.group m' 3 = e /\
            if err_appends eo
            then Re.search stderr_append_pattern
                   (x ++ w3 ++ err_text eo ++ w4 ++ e) = Some m'
            else Re.search stderr_append_pattern
                   (x ++ w3 ++ err_text eo ++ w4 ++ e) = None /\
                 Re.search stderr_pattern
                   (x ++ w3 ++ err_text eo ++ w4 ++ e) = Some m').
  { destruct eo; simpl err_appends; simpl err_text in *.
    - destruct (stderr_shape_search _ _ stderr_fail stderr_hit eq_refl
                  x w3 "2>" w4 e) as (m' & Hm & _ & G3'); try assumption.
      + simpl. auto.
      + exists m'. split; [exact G3'|]. split.
        * apply search_stderr_append_none.
          apply op_free_app; [exact Hp2|].
          rewrite <- (append_nil_r e).
          apply redirection_free; try assumption; try reflexivity.
          left. reflexivity.
        * unfold Re.search. rewrite Es. exact Hm.
    - destruct (stderr_shape_search _ _ stderr_append_fail stderr_append_hit
                  eq_refl x w3 "2>>" w4 e) as (m' & Hm & _ & G3'); try assumption.
      + simpl. auto.
      + exists m'. split; [exact G3'|].
        unfold Re.search. rewrite Ea. exact Hm. }
  destruct E as (m' & G3' & E). rewrite <- Hline in E.
  unfold handle_redirects.
  destruct (out_appends o), (err_appends eo).
  - rewrite S, E. cbn. rewrite G1, G3, G3'. reflexivity.
  - destruct E as [E1 E2]. rewrite S, E1, E2. cbn. rewrite G1, G3, G3'. reflexivity.
  - destruct S as [S1 S2]. rewrite S1, S2, E. cbn. rewrite G1, G3, G3'. reflexivity.
  - destruct S as [S1 S2], E as [E1 E2]. rewrite S1, S2, E1, E2. cbn.
    rewrite G1, G3, G3'. reflexivity.
Qed.

Lemma rstrip_ends_nonspace (c : string) :
  ends_nonspace c = true -> PyStr.rstrip c = c.
Proof.
  induction c as [|a c IH]; [reflexivity|].
  destruct c as [|b c].
  - simpl. intros H. apply negb_true_iff in H. rewrite H. reflexivity.
  - intros H. change (ends_nonspace (String b c) = true) in H.
    specialize (IH H). cbn [PyStr.rstrip] in IH |- *. rewrite IH. reflexivity.
Qed.

Lemma join_tail (args : list string) :
  (if (1 <? List.length args)%nat then PyStr.join " " (tl args) else "")
  = PyStr.join " " (tl args).
Proof. destruct args as [|a [|b l]]; reflexivity. Qed.

Lemma strip_echo (c : string) :
  cmd_ok c = true -> PyStr.startswith c "echo " = true -> PyStr.strip c = c.
Proof.
  intros Hc He. unfold PyStr.strip. destruct c as [|a c]; [discriminate|].
  unfold PyStr.startswith in He. cbn [String.prefix] in He.
  destruct (ascii_dec "e" a) as [<-|]; [|discriminate].
  cbn [PyStr.lstrip]. replace (PyStr.isspace "e") with false by reflexivity.
  apply rstrip_ends_nonspace. unfold cmd_ok in Hc.
  apply andb_true_iff in Hc. apply Hc.
Qed.

Section RedirectedEcho.

Context {F : Type}.
Variable os : OS F.

(** X26: an echo line with a stdout redirection writes nothing to the
    terminal itself: after the directory of the target is seen to, the
    words of the command joined by single spaces, and a newline, go to
    the target in one write, appending exactly for [>>] and [1>>]. *)
Theorem echo_to_file (c w1 w2 t : string) (o : out_op) (args : list string)
    (w : world F) :
  cmd_ok c = true -> PyStr.startswith c "echo " = true ->
  parse_command c = inr args ->
  sep w1 = true -> sep w2 = true -> solid t = true ->
  run_line os (c ++ w1 ++ out_text o ++ w2 ++ t) w =
  (ensure_dir_exists os t ;;
   open_write os t (out_appends o) (PyStr.join " " (tl args) ++ nl))%prog w.
Proof.
  intros Hc He Hp H1 H2 Ht.
  unfold run_line. cbv zeta. rewrite (redirect_stdout c w1 w2 t o Hc H1 H2 Ht).
  cbn [cmd stdout_file stderr_file append_stdout append_stderr].
  assert (Hs : PyStr.strip c = c).
  { apply strip_echo; assumption. }
  rewrite Hs, He. unfold run_echo, tokens.
  cbn [cmd stdout_file stderr_file append_stdout append_stderr]. rewrite Hp.
  destruct (solid_split t Ht) as (a & t' & -> & _).
  unfold when_set, write_line, bind, ret. rewrite join_tail.
  destruct (ensure_dir_exists os (String a t') w) as [[u| |] w']; reflexivity.
Qed.

(** X27: an echo line with a stderr redirection still writes its words to
    the terminal; the target is opened, for appending exactly for [2>>],
    and nothing is written to it. *)
Theorem echo_with_stderr_target (c w1 w2 t : string) (eo : err_op)
    (args : list string) (w : world F) :
  cmd_ok c = true -> PyStr.startswith c "echo " = true ->
  parse_command c = inr args ->
  sep w1 = true -> sep w2 = true -> solid t = true ->
  run_line os (c ++ w1 ++ err_text eo ++ w2 ++ t) w =
  (ensure_dir_exists os t ;;
   open_write os t (err_appends eo) "" ;;
   print (PyStr.join " " (tl args)))%prog w.
Proof.
  intros Hc He Hp H1 H2 Ht.
  unfold run_line. cbv zeta. rewrite (redirect_stderr c w1 w2 t eo Hc H1 H2 Ht).
  cbn [cmd stdout_file stderr_file append_stdout append_stderr].
  assert (Hs : PyStr.strip c = c).
  { apply strip_echo; assumption. }
  rewrite Hs, He. unfold run_echo, tokens.
  cbn [cmd stdout_file stderr_file append_stdout append_stderr]. rewrite Hp.
  destruct (solid_split t Ht) as (a & t' & -> & _).
  unfold when_set, write_line, bind, ret. rewrite join_tail.
  destruct (ensure_dir_exists os (String a t') w) as [[u| |] w']; reflexivity.
Qed.

End RedirectedEcho.

(** X23: a command text, white space, one of the operators [>], [1>],
    [>>], [1>>], white space and a target without white space: the command
    text and the target come back as they are, stdout is appended to
    exactly for [>>] and [1>>], and no stderr target is set. The command
    text holds no [>] and no newline and does not end in white space. *)
Theorem handle_redirects_stdout_target (c w1 w2 t : string) (o : out_op) :
  cmd_ok c = true -> sep w1 = true -> sep w2 = true -> solid t = true ->
  handle_redirects (c ++ w1 ++ out_text o ++ w2 ++ t) =
  {| cmd := c; stdout_file := Some t; stderr_file := None;
     append_stdout := out_appends o; append_stderr := false |}.
Proof. exact (redirect_stdout c w1 w2 t o). Qed.

(** X24: the same line with [2>] or [2>>]: the command text comes back as
    it is, the target is the stderr target, appended to exactly for [2>>],
    and no stdout target is set. *)
Theorem handle_redirects_stderr_target (c w1 w2 t : string) (eo : err_op) :
  cmd_ok c = true -> sep w1 = true -> sep w2 = true -> solid t = true ->
  handle_redirects (c ++ w1 ++ err_text eo ++ w2 ++ t) =
  {| cmd := c; stdout_file := None; stderr_file := Some t;
     append_stdout := false; append_stderr := err_appends eo |}.
Proof. exact (redirect_stderr c w1 w2 t eo). Qed.

(** X25: a stdout redirection followed by a stderr redirection: both
    targets are found, each with the append flag of its operator, and the
    command text is what stands before the first operator. *)
Theorem handle_redirects_stdout_then_stderr (c w1 w2 t w3 w4 e : string)
    (o : out_op) (eo : err_op) :
  cmd_ok c = true -> sep w1 = true -> sep w2 = true -> solid t = true ->
  sep w3 = true -> sep w4 = true -> solid e = true ->
  handle_redirects
    (c ++ w1 ++ out_text o ++ w2 ++ t ++ w3 ++ err_text eo ++ w4 ++ e) =
  {| cmd := c; stdout_file := Some t; stderr_file := Some e;
     append_stdout := out_appends o; append_stderr := err_appends eo |}.
Proof. exact (redirect_both c w1 w2 t w3 w4 e o eo). Qed.

(** [echo 'a b' 1>> out.txt] *)
Lemma handle_redirects_stdout_target_witness :
  handle_redirects "echo 'a b'  1>> out.txt" =
  {| cmd := "echo 'a b'"; stdout_file := Some "out.txt"; stderr_file := None;
     append_stdout := true; append_stderr := false |}.
Proof.
  exact (handle_redirects_stdout_target "echo 'a b'" "  " " " "out.txt" App1
           eq_refl eq_refl eq_refl eq_refl).
Defined.

(** [ls /nowhere 2> err.log] *)
Lemma handle_redirects_stderr_target_witness :
  handle_redirects "ls /nowhere 2> err.log" =
  {| cmd := "ls /nowhere"; stdout_file := None; stderr_file := Some "err.log";
     append_stdout := false; append_stderr := false |}.
Proof.
  exact (handle_redirects_stderr_target "ls /nowhere" " " " " "err.log" ErrTrunc
           eq_refl eq_refl eq_refl eq_refl).
Defined.

(** [ls -1 /tmp > out.txt 2>> err.log] *)
Lemma handle_redirects_stdout_then_stderr_witness :
  handle_redirects "ls -1 /tmp > out.txt 2>> err.log" =
  {| cmd := "ls -1 /tmp"; stdout_file := Some "out.txt";
     stderr_file := Some "err.log";
     append_stdout := false; append_stderr := true |}.
Proof.
  exact (handle_redirects_stdout_then_stderr "ls -1 /tmp" " " " " "out.txt"
           " " " " "err.log" Trunc ErrApp
           eq_refl eq_refl eq_refl eq_refl eq_refl eq_refl eq_refl).
Defined.

(** [echo hello  world >> out.txt] *)
Lemma echo_to_file_witness :
  run_line Toy.os "echo hello  world >> out.txt" Toy.w0 =
  (ensure_dir_exists Toy.os "out.txt" ;;
   open_write Toy.os "out.txt" true ("hello world" ++ nl))%prog Toy.w0.
Proof.
  exact (echo_to_file Toy.os "echo hello  world" " " " " "out.txt" App
           ["echo"; "hello"; "world"] Toy.w0
           eq_refl eq_refl eq_refl eq_refl eq_refl eq_refl).
Defined.

(** [echo hello 2> err.log] *)
Lemma echo_with_stderr_target_witness :
  run_line Toy.os "echo hello 2> err.log" Toy.w0 =
  (ensure_dir_exists Toy.os "err.log" ;;
   open_write Toy.os "err.log" false "" ;;
   print "hello")%prog Toy.w0.
Proof.
  exact (echo_with_stderr_target Toy.os "echo hello" " " " " "err.log" ErrTrunc
           ["echo"; "hello"] Toy.w0
           eq_refl eq_refl eq_refl eq_refl eq_refl eq_refl).
Defined.

(* ================================================================== *)
(** * Every match takes a target *)

Lemma drop_drop (n m : nat) (s : string) :
  PyStr.drop m (PyStr.drop n s) = PyStr.drop (n + m) s.
Proof.
  revert s. induction n as [|n IH]; intros s; [destruct s; reflexivity|].
  destruct s as [|a s]; simpl; [destruct m; reflexivity|apply IH].
Qed.

Lemma drop_length (n : nat) (s : string) :
  n <= String.length s ->
  String.length (PyStr.drop n s) = String.length s - n.
Proof.
  revert s. induction n as [|n IH]; intros s H.
  - destruct s; simpl; lia.
  - destruct s as [|a s]; simpl in *; [lia|]. apply IH. lia.
Qed.

Lemma take_nonempty (n : nat) (s : string) :
  1 <= n -> n <= String.length s -> PyStr.take n s <> "".
Proof.
  intros H1 H2. destruct n; [lia|]. destruct s; simpl in *; [lia|discriminate].
Qed.

(** What a repetition hands on is the text after at least [lo]
    characters. *)
Lemma rep_sound (k : Re.cls) (g : bool) (kont : Re.cont) (cs res : Re.caps)
    (s : string) :
  forall lo hi pos,
    Re.rep k lo hi g s pos cs kont = Some res ->
    exists n, lo <= n /\ n <= String.length s /\
              kont (PyStr.drop n s) (pos + n) cs = Some res.
Proof.
  induction s as [|a s IH]; intros lo hi pos H.
  - destruct lo; simpl in H; [|discriminate].
    exists 0. rewrite Nat.add_0_r. repeat split; try lia. cbn [PyStr.drop].
    destruct g; [exact H|]. destruct (kont "" pos cs); [exact H|discriminate].
  - assert (Hstep : forall lo' hi',
              Re.rep k lo' hi' g s (S pos) cs kont = Some res ->
              exists n, S lo' <= n /\ n <= String.length (String a s) /\
                        kont (PyStr.drop n (String a s)) (pos + n) cs = Some res).
    { intros lo' hi' H'. destruct (IH _ _ _ H') as (n & Hl & Hn & Hk).
      exists (S n). simpl. repeat split; try lia.
      replace (pos + S n) with (S pos + n) by lia. exact Hk. }
    assert (Hhere : kont (String a s) pos cs = Some res ->
              exists n, 0 <= n /\ n <= String.length (String a s) /\
                        kont (PyStr.drop n (String a s)) (pos + n) cs = Some res).
    { intros H'. exists 0. rewrite Nat.add_0_r. repeat split; try lia. exact H'. }
    destruct lo as [|lo]; simpl in H.
    + destruct g.
      * destruct (Re.cls_match k a && Re.hi_allows hi); [|auto].
        destruct (Re.rep k 0 (Re.hi_pred hi) true s (S pos) cs kont) eqn:E; [|auto].
        injection H as <-. destruct (Hstep _ _ E) as (n & Hl & Hn & Hk).
        exists n. repeat split; try lia; assumption.
      * destruct (kont (String a s) pos cs) eqn:E; [injection H as <-; auto|].
        destruct (Re.cls_match k a && Re.hi_allows hi); [|discriminate].
        destruct (Hstep _ _ H) as (n & Hl & Hn & Hk).
        exists n. repeat split; try lia; assumption.
    + destruct (Re.cls_match k a); [|discriminate]. apply (Hstep _ _ H).
Qed.

(** The same for an expression without groups: the group spans are handed
    on as they are. *)
Lemma rmatch_sound (r : Re.regex) :
  group_free r = true ->
  forall s pos cs kont res,
    Re.rmatch r s pos cs kont = Some res ->
    exists n, n <= String.length s /\
              kont (PyStr.drop n s) (pos + n) cs = Some res.
Proof.
  induction r as [k|k lo hi g|r1 IH1 r2 IH2|r1 IH1 r2 IH2|n r IH| |];
    intros Hg s pos cs kont res H; simpl in Hg.
  - destruct s as [|a s]; simpl in H; [discriminate|].
    destruct (Re.cls_match k a); [|discriminate].
    exists 1. simpl. split; [lia|]. rewrite Nat.add_1_r.
    destruct s; exact H.
  - simpl in H. destruct (rep_sound _ _ _ _ _ _ _ _ _ H) as (n & _ & Hn & Hk).
    exists n. auto.
  - apply andb_true_iff in Hg. destruct Hg as [Hg1 Hg2]. simpl in H.
    destruct (IH1 Hg1 _ _ _ _ _ H) as (n1 & Hn1 & H1).
    destruct (IH2 Hg2 _ _ _ _ _ H1) as (n2 & Hn2 & H2).
    exists (n1 + n2). rewrite drop_length in Hn2 by exact Hn1.
    split; [lia|]. rewrite drop_drop, <- Nat.add_assoc in H2. exact H2.
  - apply andb_true_iff in Hg. destruct Hg as [Hg1 Hg2]. simpl in H.
    destruct (Re.rmatch r1 s pos cs kont) eqn:E.
    + injection H as <-. apply (IH1 Hg1 _ _ _ _ _ E).
    + apply (IH2 Hg2 _ _ _ _ _ H).
  - discriminate.
  - simpl in H. destruct (Re.at_eol s); [|discriminate].
    exists 0. rewrite Nat.add_0_r. split; [lia|]. destruct s; exact H.
  - simpl in H. exists 0. rewrite Nat.add_0_r. split; [lia|].
    destruct s; exact H.
Qed.

(** A match of one of the four patterns: the span of the target group is
    at least one character long and lies inside the text. *)
Lemma shape_sound (op tail : Re.regex) (g : bool) (s : string) (pos : nat)
    (res : Re.caps) :
  group_free op = true -> group_free tail = true ->
  Re.rmatch (re_shape op (Re.Rep Re.Dot 1 None g) tail) s pos [] (final pos)
  = Some res ->
  exists n3 n5, Re.span_of 3 res = Some (pos + n3, pos + n3 + n5) /\
                1 <= n5 /\ n3 + n5 <= String.length s.
Proof.
  intros Hop Htail H. unfold re_shape in H.
  rewrite rmatch_cat, rmatch_group, rmatch_rep in H.
  destruct (rep_sound _ _ _ _ _ _ _ _ _ H) as (n1 & _ & Hn1 & H1). clear H.
  rewrite rmatch_cat in H1. unfold re_ws in H1 at 1. rewrite rmatch_rep in H1.
  destruct (rep_sound _ _ _ _ _ _ _ _ _ H1) as (n2 & _ & Hn2 & H2). clear H1.
  rewrite rmatch_cat, rmatch_group in H2.
  destruct (rmatch_sound op Hop _ _ _ _ _ H2) as (n3 & Hn3 & H3). clear H2.
  rewrite rmatch_cat in H3. unfold re_ws in H3 at 1. rewrite rmatch_rep in H3.
  destruct (rep_sound _ _ _ _ _ _ _ _ _ H3) as (n4 & _ & Hn4 & H4). clear H3.
  rewrite rmatch_cat, rmatch_group, rmatch_rep in H4.
  destruct (rep_sound _ _ _ _ _ _ _ _ _ H4) as (n5 & Hl5 & Hn5 & H5). clear H4.
  destruct (rmatch_sound tail Htail _ _ _ _ _ H5) as (n6 & Hn6 & H6). clear H5.
  unfold final in H6. injection H6 as <-.
  rewrite !drop_drop in *.
  rewrite drop_length in Hn2 by lia.
  rewrite drop_length in Hn3 by lia.
  rewrite drop_length in Hn4 by lia.
  rewrite drop_length in Hn5 by lia.
  exists (n1 + n2 + n3 + n4), n5. cbn [Re.span_of Nat.eqb].
  split; [|lia]. f_equal. f_equal; lia.
Qed.

Lemma drop_next (pos : nat) (whole : string) (a : ascii) (s : string) :
  PyStr.drop pos whole = String a s -> PyStr.drop (S pos) whole = s.
Proof.
  intros H. replace (S pos) with (pos + 1) by lia.
  rewrite <- drop_drop, H. destruct s; reflexivity.
Qed.

Lemma search_from_target (op tail : Re.regex) (g : bool) (whole s : string) :
  group_free op = true -> group_free tail = true ->
  forall pos m,
    PyStr.drop pos whole = s ->
    Re.search_from (re_shape op (Re.Rep Re.Dot 1 None g) tail) whole s pos
    = Some m ->
    Re.group m 3 <> "".
Proof.
  intros Hop Htail. induction s as [|a s IH]; intros pos m Hd H;
    cbn [Re.search_from] in H;
    change (fun (_ : string) (p : nat) (cs : Re.caps) => Some ((0, (pos, p)) :: cs))
      with (final pos) in H;
    match type of H with
    | match ?x with _ => _ end = _ => destruct x as [res|] eqn:E
    end.
  1, 3: injection H as <-;
    destruct (shape_sound _ _ _ _ _ _ Hop Htail E) as (n3 & n5 & Hsp & H5 & Hn);
    unfold Re.group; cbn [Re.spans Re.subject]; rewrite Hsp;
    replace (pos + n3 + n5 - (pos + n3)) with n5 by lia;
    rewrite <- drop_drop, Hd;
    apply take_nonempty; [exact H5|rewrite drop_length by lia; lia].
  - discriminate.
  - apply (IH (S pos) m); [|exact H]. apply (drop_next _ _ _ _ Hd).
Qed.

Lemma search_target (pattern line : string) (m : Re.match_obj) :
  In pattern [stdout_append_pattern; stdout_pattern;
              stderr_append_pattern; stderr_pattern] ->
  Re.search pattern line = Some m -> Re.group m 3 <> "".
Proof.
  destruct patterns_shape as (E1 & E2 & E3 & E4).
  intros [<-|[<-|[<-|[<-|[]]]]] H; unfold Re.search in H;
    rewrite ?E1, ?E2, ?E3, ?E4 in H;
    unfold Re.search_regex, g3_lazy, g3_greedy in H;
    refine (search_from_target _ _ _ line line _ _ 0 m _ H);
    try reflexivity; destruct line; reflexivity.
Qed.

(** X28: whatever the line, a target handle_redirects returns is never the
    empty string, and an append flag is set only together with its
    target. *)
Theorem handle_redirects_targets (line : string) :
  stdout_file (handle_redirects line) <> Some "" /\
  stderr_file (handle_redirects line) <> Some "" /\
  (append_stdout (handle_redirects line) = true ->
   stdout_file (handle_redirects line) <> None) /\
  (append_stderr (handle_redirects line) = true ->
   stderr_file (handle_redirects line) <> None).
Proof.
  unfold handle_redirects.
  destruct (Re.search stdout_append_pattern line) as [m1|] eqn:E1;
    [pose proof (search_target _ _ _ (or_introl eq_refl) E1) as T1|];
    (destruct (Re.search stdout_pattern line) as [m2|] eqn:E2;
     [pose proof (search_target _ _ _ (or_intror (or_introl eq_refl)) E2) as T2|]);
    (destruct (Re.search stderr_append_pattern line) as [m3|] eqn:E3;
     [pose proof (search_target _ _ _
                    (or_intror (or_intror (or_introl eq_refl))) E3) as T3|]);
    (destruct (Re.search stderr_pattern line) as [m4|] eqn:E4;
     [pose proof (search_target _ _ _
                    (or_intror (or_intror (or_intror (or_introl eq_refl)))) E4)
        as T4|]);
    cbn; repeat split; try discriminate; try congruence.
Qed.

(* ================================================================== *)
(** * The stderr redirection first *)

(** X29: a stderr redirection followed by a stdout redirection: the stdout
    target is found, but the command text keeps the whole stderr
    redirection, and the stderr target is everything after the stderr
    operator, the stdout redirection included. *)
Theorem handle_redirects_stderr_then_stdout (c w1 w2 e w3 w4 t : string)
    (eo : err_op) (o : out_op) :
  cmd_ok c = true -> sep w1 = true -> sep w2 = true -> solid e = true ->
  sep w3 = true -> sep w4 = true -> solid t = true ->
  handle_redirects
    (c ++ w1 ++ err_text eo ++ w2 ++ e ++ w3 ++ out_text o ++ w4 ++ t) =
  {| cmd := c ++ w1 ++ err_text eo ++ w2 ++ e;
     stdout_file := Some t;
     stderr_file := Some (e ++ w3 ++ out_text o ++ w4 ++ t);
     append_stdout := out_appends o; append_stderr := err_appends eo |}.
Proof.
  intros Hc H1 H2 He H3 H4 Ht.
  destruct (hspace_split w1 H1) as (Hn1 & _ & Hl1 & Hh1).
  destruct (hspace_split w2 H2) as (_ & _ & Hl2 & _).
  destruct (hspace_split w3 H3) as (Hn3 & _ & Hl3 & Hh3).
  destruct (hspace_split w4 H4) as (_ & _ & Hl4 & _).
  destruct (spelling_nospace _ (out_text_spelling o)) as (_ & _ & Hlo & _).
  destruct (spelling_nospace _ (err_text_spelling eo)) as (_ & _ & Hle & _).
  destruct (solid_nospace e He) as (_ & Hne & Hee & Hhe & _).
  destruct (solid_nospace t Ht) as (_ & Hnt & _ & _ & _).
  destruct patterns_shape as (Pa & Ps & Pea & Pes).
  set (x := c ++ w1 ++ err_text eo ++ w2 ++ e).
  set (y := e ++ w3 ++ out_text o ++ w4 ++ t).
  assert (Hline : c ++ w1 ++ err_text eo ++ w2 ++ y
                  = x ++ w3 ++ out_text o ++ w4 ++ t ++ "").
  { unfold x, y. rewrite !append_assoc, append_nil_r. reflexivity. }
  assert (Hx : all_chars no_newline x = true).
  { unfold x. rewrite !all_chars_app, (cmd_ok_no_newline c Hc), Hl1, Hle, Hl2, Hne.
    reflexivity. }
  assert (Hy : all_chars no_newline y = true).
  { unfold y. rewrite !all_chars_app, Hne, Hl3, Hlo, Hl4, Hnt. reflexivity. }
  assert (Hyn : y <> "").
  { unfold y. destruct e; [contradiction|discriminate]. }
  assert (Hw3 : forall r, head_space (w3 ++ r) = true).
  { intros r. destruct w3; [contradiction|exact Hh3]. }
  assert (Hfree : forall ops, only_spellings ops = true ->
            mem_ops (err_text eo) ops = false ->
            mem_ops (out_text o) ops = false ->
            op_free ops (c ++ w1 ++ err_text eo ++ w2 ++ y) = true).
  { intros ops Hops Hme Hmo. unfold y.
    apply line_free; try assumption.
    - apply err_text_spelling.
    - right. apply Hw3.
    - rewrite <- (append_nil_r t).
      apply redirection_free; try assumption; try reflexivity.
      + apply out_text_spelling.
      + left. reflexivity. }
  assert (Hpx : forall ops, only_spellings ops = true ->
            mem_ops (err_text eo) ops = false ->
            prefix_free ops x (w3 ++ out_text o ++ w4 ++ t ++ "") = true).
  { intros ops Hops Hme. unfold x. apply line_prefix_free; try assumption.
    - apply err_text_spelling.
    - apply Hw3. }
  assert (Hpc : forall ops, only_spellings ops = true ->
            prefix_free ops c (w1 ++ err_text eo ++ w2 ++ y) = true).
  { intros ops Hops. apply prefix_free_cmd; try assumption.
    destruct w1; [contradiction|exact Hh1]. }
  assert (Hhy : head_space y = false) by apply Hhe.
  (* the stdout searches *)
  assert (S : exists m, Re.group m 1 = x /\ Re.group m 3 = t /\
            if out_appends o
            then Re.search stdout_append_pattern
                   (c ++ w1 ++ err_text eo ++ w2 ++ y) = Some m
            else Re.search stdout_append_pattern
                   (c ++ w1 ++ err_text eo ++ w2 ++ y) = None /\
                 Re.search stdout_pattern
                   (c ++ w1 ++ err_text eo ++ w2 ++ y) = Some m).
  { destruct (out_appends o) eqn:Eo.
    - destruct (stdout_shape_search_any _ _ stdout_append_fail stdout_append_hit
                  eq_refl x w3 (out_text o) w4 t "") as (m & Hm & G1 & G3);
        try assumption.
      + apply Hpx; [reflexivity|]. destruct eo; reflexivity.
      + destruct o; try discriminate; simpl; auto.
      + left. reflexivity.
      + exists m. split; [exact G1|]. split; [exact G3|].
        unfold Re.search. rewrite Pa, Hline. exact Hm.
    - destruct (stdout_shape_search_any _ _ stdout_fail stdout_hit
                  eq_refl x w3 (out_text o) w4 t "") as (m & Hm & G1 & G3);
        try assumption.
      + apply Hpx; [reflexivity|]. destruct eo; reflexivity.
      + destruct o; try discriminate; simpl; auto.
      + left. reflexivity.
      + exists m. split; [exact G1|]. split; [exact G3|]. split.
        * apply search_stdout_append_none. apply Hfree; [reflexivity| |].
          -- destruct eo; reflexivity.
          -- destruct o; try discriminate; reflexivity.
        * unfold Re.search. rewrite Ps, Hline. exact Hm. }
  (* the stderr searches *)
  assert (E : exists m, Re.group m 3 = y /\
            if err_appends eo
            then Re.search stderr_append_pattern
                   (c ++ w1 ++ err_text eo ++ w2 ++ y) = Some m
            else Re.search stderr_append_pattern
                   (c ++ w1 ++ err_text eo ++ w2 ++ y) = None /\
                 Re.search stderr_pattern
                   (c ++ w1 ++ err_text eo ++ w2 ++ y) = Some m).
  { destruct (err_appends eo) eqn:Ee.
    - destruct (stderr_shape_search_any _ _ stderr_append_fail stderr_append_hit
                  eq_refl c w1 (err_text eo) w2 y) as (m & Hm & _ & G3);
        try assumption.
      + apply cmd_ok_no_newline. exact Hc.
      + apply Hpc. reflexivity.
      + destruct eo; try discriminate; simpl; auto.
      + exists m. split; [exact G3|]. unfold Re.search. rewrite Pea. exact Hm.
    - destruct (stderr_shape_search_any _ _ stderr_fail stderr_hit
                  eq_refl c w1 (err_text eo) w2 y) as (m & Hm & _ & G3);
        try assumption.
      + apply cmd_ok_no_newline. exact Hc.
      + apply Hpc. reflexivity.
      + destruct eo; try discriminate; simpl; auto.
      + exists m. split; [exact G3|]. split.
        * apply search_stderr_append_none. apply Hfree; [reflexivity| |].
          -- destruct eo; try discriminate; reflexivity.
          -- destruct o; reflexivity.
        * unfold Re.search. rewrite Pes. exact Hm. }
  destruct S as (m & G1 & G3 & S). destruct E as (m' & G3' & E).
  fold y. unfold handle_redirects.
  destruct (out_appends o), (err_appends eo).
  - rewrite S, E. cbn. rewrite G1, G3, G3'. reflexivity.
  - destruct E as [E1 E2]. rewrite S, E1, E2. cbn. rewrite G1, G3, G3'. reflexivity.
  - destruct S as [S1 S2]. rewrite S1, S2, E. cbn. rewrite G1, G3, G3'. reflexivity.
  - destruct S as [S1 S2], E as [E1 E2]. rewrite S1, S2, E1, E2. cbn.
    rewrite G1, G3, G3'. reflexivity.
Qed.

(** [ls /nowhere 2> err.log > out.txt] *)
Lemma handle_redirects_stderr_then_stdout_witness :
  handle_redirects "ls /nowhere 2> err.log > out.txt" =
  {| cmd := "ls /nowhere 2> err.log";
     stdout_file := Some "out.txt";
     stderr_file := Some "err.log > out.txt";
     append_stdout := false; append_stderr := false |}.
Proof.
  exact (handle_redirects_stderr_then_stdout "ls /nowhere" " " " " "err.log"
           " " " " "out.txt" ErrTrunc Trunc
           eq_refl eq_refl eq_refl eq_refl eq_refl eq_refl eq_refl).
Defined.

(* ================================================================== *)
(** * An unknown command with a redirection *)

Section RedirectedExternal.

Context {F : Type}.
Variable os : OS F.

(** X30: a command that is no builtin and that find_executable does not
    find, with one redirection. With a stderr redirection the message
    [name: command not found] and a newline are written to the target and
    nothing to the terminal; with a stdout redirection the message goes to
    the terminal and the target is not opened at all. In both cases only
    the directory of the target has been seen to before, and when that
    ends with an exception, nothing more is done. *)
Theorem command_not_found_redirected (c w1 w2 t name : string)
    (rest : list string) (w : world F) :
  cmd_ok c = true -> classify (PyStr.strip c) = External ->
  parse_command c = inr (name :: rest) ->
  sep w1 = true -> sep w2 = true -> solid t = true ->
  find_executable os (snd (ensure_dir_exists os t w)) name = None ->
  (forall eo,
     run_line os (c ++ w1 ++ err_text eo ++ w2 ++ t) w =
     (ensure_dir_exists os t ;;
      open_write os t (err_appends eo) ((name ++ ": command not found") ++ nl))%prog
       w) /\
  (forall o,
     run_line os (c ++ w1 ++ out_text o ++ w2 ++ t) w =
     (ensure_dir_exists os t ;; print (name ++ ": command not found"))%prog w).
Proof.
  intros Hc Hk Hp H1 H2 Ht Hf.
  destruct (solid_split t Ht) as (a & t' & Et & _).
  split.
  - intros eo. rewrite run_line_dispatch. cbv zeta.
    rewrite (redirect_stderr c w1 w2 t eo Hc H1 H2 Ht).
    cbn [cmd stdout_file stderr_file append_stdout append_stderr].
    rewrite Hk. cbn [run_kind]. unfold ensure_dirs, run_external, tokens.
    cbn [cmd stdout_file stderr_file append_stdout append_stderr].
    rewrite Hp. subst t. unfold when_set, bind, ret.
    destruct (ensure_dir_exists os (String a t') w) as [[[]|e|code] w'];
      try reflexivity.
    cbn [snd] in Hf. rewrite Hf. reflexivity.
  - intros o. rewrite run_line_dispatch. cbv zeta.
    rewrite (redirect_stdout c w1 w2 t o Hc H1 H2 Ht).
    cbn [cmd stdout_file stderr_file append_stdout append_stderr].
    rewrite Hk. cbn [run_kind]. unfold ensure_dirs, run_external, tokens.
    cbn [cmd stdout_file stderr_file append_stdout append_stderr].
    rewrite Hp. subst t. unfold when_set, bind, ret.
    destruct (ensure_dir_exists os (String a t') w) as [[[]|e|code] w'];
      try reflexivity.
    cbn [snd] in Hf. rewrite Hf. reflexivity.
Qed.

End RedirectedExternal.

(** [nosuch -x 2>> err.log] and [nosuch -x > out.txt] *)
Lemma command_not_found_redirected_witness :
  (forall eo,
     run_line Toy.os ("nosuch -x" ++ " " ++ err_text eo ++ " " ++ "err.log") Toy.w0 =
     (ensure_dir_exists Toy.os "err.log" ;;
      open_write Toy.os "err.log" (err_appends eo)
        (("nosuch" ++ ": command not found") ++ nl))%prog Toy.w0) /\
  (forall o,
     run_line Toy.os ("nosuch -x" ++ " " ++ out_text o ++ " " ++ "err.log") Toy.w0 =
     (ensure_dir_exists Toy.os "err.log" ;;
      print ("nosuch" ++ ": command not found"))%prog Toy.w0).
Proof.
  exact (command_not_found_redirected Toy.os "nosuch -x" " " " " "err.log"
           "nosuch" ["-x"] Toy.w0
           eq_refl eq_refl eq_refl eq_refl eq_refl eq_refl eq_refl).
Defined.
